(** * DEEPISL: the keypoint pipeline of [MediaPipeManager] and the
      application around it

    A shallow embedding of the browser-side recognition pipeline: keypoint
    extraction, the sliding keypoint buffer, the throttled prediction gate,
    the sequence validator and the capture life cycle; and of the classes
    that use it: [WebSocketManager], [UIManager], [TranslationManager],
    [AnimationManager] and [DeepISLApp].

    The repository holds two definitions of [class MediaPipeManager]
    (both in [src/unnamed/part_001]):
    - lines 1-193, the plain manager that goes with [js/config.js]
      (module [Mgr1] below): it clears the buffer at a dispatch;
    - lines 193-591, the manager with debug counters, the retained tail and
      [validateSequence] (module [Mgr2] below).
    Both are modelled, and the statements say which one they are about.
    The application is written once, over the methods it calls on its
    manager, and its statements hold with either definition.

    A manager is a record of the fields the pipeline reads and writes; a
    method takes the record and returns the new one with its result.
    Asynchronous code is cut at its [await]s: each piece is one event of a
    trace, and the clock value read by [Date.now()] comes with the event.

    What is not modelled: the canvas, the video element, the Holistic
    handle, the socket itself and console output; of the page, the mode
    switch and the animation elements.  Drawing is taken to succeed;
    nothing below reads what it writes.  The debug block of the second
    [extractKeypoints], which throws on a vector too long to be passed as
    arguments, is modelled on its own ([Mgr2.debugBlock],
    [Mgr2.extractKeypointsLogged]); the detection callback is modelled on
    the vectors where it returns.  The managers are modelled without
    their error callback; in the application it is the one [initialize()]
    sets. *)

From Stdlib Require Import ZArith Lia.
From stdpp Require Import base list strings gmap sorting.

Local Open Scope nat_scope.

(** ** [js/config.js] *)

Module CONFIG.
Definition N_FRAMES : nat := 30.
Definition FRAME_SKIP : nat := 4.
Definition PREDICTION_THROTTLE_MS : Z := 400.
Definition POSE_INDICES : list nat := [11; 12; 13; 14; 15; 16].
End CONFIG.

(** ** JavaScript values used by the pipeline *)

(** A JavaScript number.  The pipeline never does arithmetic on coordinates;
    it copies them and classifies them (NaN, infinite, finite), so a finite
    double is kept as the dyadic [m * 2^e] it denotes. *)
Inductive jsnum : Type :=
| Finite (m e : Z)
| PosInf
| NegInf
| NaN.

#[global] Instance jsnum_eq_dec : EqDecision jsnum.
Proof. solve_decision. Defined.

(** The literal [0]. *)
Definition zero : jsnum := Finite 0 0.
Definition one : jsnum := Finite 1 0.

(** [Number.isNaN] and the finiteness test on numbers. *)
Definition num_isNaN (n : jsnum) : bool :=
  match n with NaN => true | _ => false end.
Definition num_isFinite (n : jsnum) : bool :=
  match n with Finite _ _ => true | _ => false end.

(** Exceptions the modelled code can raise. *)
Inductive Exn : Type := TypeError | RangeError.

(** The result of evaluating a JavaScript expression: a value, or a throw. *)
Inductive Outcome (A : Type) : Type :=
| Ok (a : A)
| Throw (e : Exn).
Arguments Ok {A} a.
Arguments Throw {A} e.

#[global] Instance Outcome_ret : MRet Outcome := fun _ a => Ok a.
#[global] Instance Outcome_bind : MBind Outcome := fun _ _ f m =>
  match m with
  | Ok a => f a
  | Throw e => Throw e
  end.

Definition returns {A} (m : Outcome A) : bool :=
  match m with Ok _ => true | Throw _ => false end.

(** [arr.slice(-n)]: the last [n] elements, the whole array when it is
    shorter. *)
Definition slice_neg {A} (n : nat) (arr : list A) : list A :=
  drop (length arr - n) arr.

(** [arr.some(cb)] for a callback that may throw: stops at the first
    truthy answer. *)
Fixpoint some {A} (cb : A -> Outcome bool) (arr : list A) : Outcome bool :=
  match arr with
  | [] => Ok false
  | val :: rest => b ← cb val; if b : bool then Ok true else some cb rest
  end.

(** ** Candidates of [validateSequence]

    The validator looks at its argument on three levels: the sequence, its
    frames, their elements.  A value is a primitive or an array; elements
    are primitives.  Strings and objects other than arrays are not
    represented. *)
Inductive Prim : Type :=
| PUndefined
| PNull
| PBool (b : bool)
| PNum (n : jsnum)
| PBigInt (i : Z)
| PSymbol.

Inductive Value (A : Type) : Type :=
| Primitive (p : Prim)
| Array (items : list A).
Arguments Primitive {A} p.
Arguments Array {A} items.

Abbreviation FrameValue := (Value Prim).
Abbreviation Candidate := (Value (Value Prim)).

(** [Array.isArray(v)] *)
Definition isArray {A} (v : Value A) : bool :=
  match v with Array _ => true | Primitive _ => false end.

(** [v.length !== n].  The validator evaluates it on arrays only: the test
    before it in the same [||] is true of everything else. *)
Definition lengthDiffers {A} (v : Value A) (n : nat) : bool :=
  match v with
  | Array items => negb (length items =? n)
  | Primitive _ => true   (* [undefined !== n] *)
  end.

(** Reading the property [v.length]: it throws on [undefined] and [null]. *)
Definition readLength {A} (v : Value A) : Outcome unit :=
  match v with
  | Primitive PUndefined | Primitive PNull => Throw TypeError
  | _ => Ok tt
  end.

(** The abstract operation ToNumber on primitives. *)
Definition ToNumber (val : Prim) : Outcome jsnum :=
  match val with
  | PUndefined => Ok NaN
  | PNull => Ok zero
  | PBool b => Ok (if b then one else zero)
  | PNum n => Ok n
  | PBigInt _ => Throw TypeError
  | PSymbol => Throw TypeError
  end.

(** The global [isNaN] and [isFinite]. *)
Definition isNaN (val : Prim) : Outcome bool :=
  n ← ToNumber val; Ok (num_isNaN n).
Definition isFinite (val : Prim) : Outcome bool :=
  n ← ToNumber val; Ok (num_isFinite n).

(** ** Detection results *)

(** One landmark of the detector, [{x, y, z}]. *)
Record Landmark : Type := mkLandmark {
  lm_x : jsnum;
  lm_y : jsnum;
  lm_z : jsnum
}.

(** A landmark array.  A slot holds a landmark or nothing ([undefined] or
    [null]): [None] is a landmark the detector left out. *)
Abbreviation Landmarks := (list (option Landmark)).

(** The [results] object handed to [onResults]: each landmark set may be
    absent. *)
Record Results : Type := mkResults {
  leftHandLandmarks : option Landmarks;
  rightHandLandmarks : option Landmarks;
  poseLandmarks : option Landmarks
}.

(** One feature vector, and the buffer of them. *)
Abbreviation Frame := (list jsnum).

(** [new Array(n).fill(0)]. *)
Definition zeros (n : nat) : Frame := replicate n zero.

(** [landmarks.flatMap(lm => [lm.x, lm.y, lm.z])]: reading [.x] of an
    empty slot throws. *)
Fixpoint flatMapCoords (landmarks : Landmarks) : Outcome Frame :=
  match landmarks with
  | [] => Ok []
  | None :: _ => Throw TypeError
  | Some lm :: rest =>
      coords ← flatMapCoords rest;
      Ok (lm_x lm :: lm_y lm :: lm_z lm :: coords)
  end.

(** [results.poseLandmarks && results.poseLandmarks[idx]]: the landmark at
    [idx] when the pose set is present and the slot is filled. *)
Definition poseAt (results : Results) (idx : nat) : option Landmark :=
  match poseLandmarks results with
  | None => None
  | Some pose => mjoin (pose !! idx)
  end.

(** The prediction gate of [onResults]:
    [length >= N_FRAMES && (now - lastPredictionTime) > PREDICTION_THROTTLE_MS]. *)
Definition gate (len : nat) (now lastPredictionTime : Z) : bool :=
  (CONFIG.N_FRAMES <=? len) &&
  (CONFIG.PREDICTION_THROTTLE_MS <? now - lastPredictionTime)%Z.

(** What one [onResults] call did about prediction: nothing, or it took the
    gate's branch with [sequenceToPredict], and [delivered] tells whether
    [onPredictionReady] was set and called with it. *)
Inductive Signal : Type :=
| Quiet
| Fired (sequenceToPredict : list Frame) (delivered : bool).

(** How [navigator.mediaDevices.getUserMedia] answered [startCapture]. *)
Inductive Camera : Type :=
| Granted
| Denied.

(** What the environment does to a manager: the calls of the application
    and the callbacks of the browser and the detector.  [startCapture] is
    asynchronous: the call ([StartCapture]) tests [capturing] and asks for
    the camera, and the rest of it runs when the camera answers
    ([CameraAnswer]).  [Date.now()] is an input of the detection
    callback. *)
Inductive Event : Type :=
| StartCapture
| CameraAnswer (cam : Camera) (loaded : bool)
| StopCapture
| AnimationFrame
| DetectorResults (results : Results) (now : Z)
| SetPredictionCallback (installed : bool).

(** What a manager is seen to do in answer. *)
Inductive Obs : Type :=
| Started (result : bool)
| Sent
| Predict (now : Z) (sequenceToPredict : list Frame) (delivered : bool)
| Raised (e : Exn).

(** The timestamps and the sequences of the gate's firings in a trace. *)
Definition fireTimes (obs : list Obs) : list Z :=
  omap (fun o => match o with Predict now _ _ => Some now | _ => None end) obs.
Definition firedSequences (obs : list Obs) : list (list Frame) :=
  omap (fun o => match o with Predict _ s _ => Some s | _ => None end) obs.
Definition deliveredSequences (obs : list Obs) : list (list Frame) :=
  omap (fun o => match o with Predict _ s true => Some s | _ => None end) obs.

(** A state machine driven by a list of events, its observations
    collected in order. *)
Fixpoint runWith {State : Type} (step : Event -> State -> State * list Obs)
    (evs : list Event) (this : State) : State * list Obs :=
  match evs with
  | [] => (this, [])
  | ev :: rest =>
      let '(this1, o) := step ev this in
      let '(this2, os) := runWith step rest this1 in
      (this2, o ++ os)
  end.

(** ** The first manager ([part_001], lines 1-193) *)

Module Mgr1.

Record Manager : Type := mkManager {
  capturing : bool;
  frameCounter : nat;
  keypointSequence : list Frame;
  lastPredictionTime : Z;
  onPredictionReady : bool   (* whether a prediction callback is set *)
}.

(** [constructor()] *)
Definition new : Manager := mkManager false 0 [] 0 false.

Definition set_capturing (b : bool) (this : Manager) : Manager :=
  mkManager b (frameCounter this) (keypointSequence this)
            (lastPredictionTime this) (onPredictionReady this).
Definition set_frameCounter (n : nat) (this : Manager) : Manager :=
  mkManager (capturing this) n (keypointSequence this)
            (lastPredictionTime this) (onPredictionReady this).
Definition set_keypointSequence (s : list Frame) (this : Manager) : Manager :=
  mkManager (capturing this) (frameCounter this) s
            (lastPredictionTime this) (onPredictionReady this).
Definition set_lastPredictionTime (t : Z) (this : Manager) : Manager :=
  mkManager (capturing this) (frameCounter this) (keypointSequence this)
            t (onPredictionReady this).
Definition setPredictionCallback (installed : bool) (this : Manager) : Manager :=
  mkManager (capturing this) (frameCounter this) (keypointSequence this)
            (lastPredictionTime this) installed.

(** [startCapture()] before its [await]: whether it goes on to ask for the
    camera (it answers [false] at once while capturing). *)
Definition startCapture_asks (this : Manager) : bool :=
  negb (capturing this).

(** [startCapture()] after its [await], up to the promise it returns;
    [loaded] is whether the video then reports its metadata (the promise
    resolves to [true]) or an error (it resolves to [false]). *)
Definition startCapture_resume (cam : Camera) (loaded : bool) (this : Manager)
  : Manager * bool :=
  match cam with
  | Denied => (this, false)
  | Granted =>
      let this := set_capturing true this in
      let this := set_keypointSequence [] this in
      let this := set_frameCounter 0 this in
      (this, loaded)
  end.

(** A whole [startCapture()] whose camera request is answered before
    anything else happens to the manager. *)
Definition startCapture (cam : Camera) (loaded : bool) (this : Manager)
  : Manager * bool :=
  if startCapture_asks this then startCapture_resume cam loaded this
  else (this, false).

(** [stopCapture()] *)
Definition stopCapture (this : Manager) : Manager :=
  set_capturing false this.

(** [processVideoFrame()]: the flag tells whether the frame was sent to
    the detector. *)
Definition processVideoFrame (this : Manager) : Manager * bool :=
  if negb (capturing this) then (this, false)
  else
    let this := set_frameCounter (frameCounter this + 1) this in
    (this, frameCounter this mod CONFIG.FRAME_SKIP =? 0).

(** The inner [extract(landmarks, num)]. *)
Definition extract (landmarks : option Landmarks) (num : nat) : Outcome Frame :=
  match landmarks with
  | None => Ok (zeros (num * 3))
  | Some landmarks => flatMapCoords landmarks
  end.

(** [extractKeypoints(results)] *)
Definition extractKeypoints (results : Results) : Outcome Frame :=
  let poseCoords :=
    foldl (fun poseCoords idx =>
             match poseAt results idx with
             | Some lm => poseCoords ++ [lm_x lm; lm_y lm; lm_z lm]
             | None => poseCoords ++ [zero; zero; zero]
             end) [] CONFIG.POSE_INDICES in
  leftHandCoords ← extract (leftHandLandmarks results) 21;
  rightHandCoords ← extract (rightHandLandmarks results) 21;
  Ok (leftHandCoords ++ rightHandCoords ++ poseCoords).

(** [onResults(results)], with [now] the value of [Date.now()]. *)
Definition onResults (results : Results) (now : Z) (this : Manager)
  : Manager * Outcome Signal :=
  match extractKeypoints results with
  | Throw e => (this, Throw e)
  | Ok keypoints =>
      let this := set_keypointSequence (keypointSequence this ++ [keypoints]) this in
      if gate (length (keypointSequence this)) now (lastPredictionTime this) then
        let this := set_lastPredictionTime now this in
        let sequenceToPredict := keypointSequence this in
        let this := set_keypointSequence [] this in
        (this, Ok (Fired sequenceToPredict (onPredictionReady this)))
      else (this, Ok Quiet)
  end.

Definition step (ev : Event) (this : Manager) : Manager * list Obs :=
  match ev with
  | StartCapture =>
      (this, if startCapture_asks this then [] else [Started false])
  | CameraAnswer cam loaded =>
      let '(this, r) := startCapture_resume cam loaded this in (this, [Started r])
  | StopCapture => (stopCapture this, [])
  | AnimationFrame =>
      let '(this, sent) := processVideoFrame this in
      (this, if sent then [Sent] else [])
  | DetectorResults results now =>
      match onResults results now this with
      | (this, Throw e) => (this, [Raised e])
      | (this, Ok Quiet) => (this, [])
      | (this, Ok (Fired s d)) => (this, [Predict now s d])
      end
  | SetPredictionCallback installed => (setPredictionCallback installed this, [])
  end.

(** The manager driven by a list of events. *)
Definition run : list Event -> Manager -> Manager * list Obs := runWith step.

(** [isCapturing()] *)
Definition isCapturing (this : Manager) : bool := capturing this.

(** [cleanup()]: the Holistic handle apart, it stops the capture. *)
Definition cleanup (this : Manager) : Manager := stopCapture this.

End Mgr1.

(** ** The second manager ([part_001], lines 193-591) *)

Module Mgr2.

(** [this.landmarksDetected] *)
Record Detected : Type := mkDetected {
  leftHand : nat;
  rightHand : nat;
  pose : nat
}.

(** The [handName] key of [extractLandmarks]. *)
Inductive HandName : Type := LeftHand | RightHand.

Definition setHand (handName : HandName) (n : nat) (d : Detected) : Detected :=
  match handName with
  | LeftHand => mkDetected n (rightHand d) (pose d)
  | RightHand => mkDetected (leftHand d) n (pose d)
  end.

Record Manager : Type := mkManager {
  capturing : bool;
  frameCounter : nat;
  keypointSequence : list Frame;
  lastPredictionTime : Z;
  onPredictionReady : bool;   (* whether a prediction callback is set *)
  framesProcessed : nat;
  predictionsAttempted : nat;
  landmarksDetected : Detected
}.

(** [constructor()] *)
Definition new : Manager :=
  mkManager false 0 [] 0 false 0 0 (mkDetected 0 0 0).

Definition set_capturing (b : bool) (this : Manager) : Manager :=
  mkManager b (frameCounter this) (keypointSequence this)
            (lastPredictionTime this) (onPredictionReady this)
            (framesProcessed this) (predictionsAttempted this)
            (landmarksDetected this).
Definition set_frameCounter (n : nat) (this : Manager) : Manager :=
  mkManager (capturing this) n (keypointSequence this)
            (lastPredictionTime this) (onPredictionReady this)
            (framesProcessed this) (predictionsAttempted this)
            (landmarksDetected this).
Definition set_keypointSequence (s : list Frame) (this : Manager) : Manager :=
  mkManager (capturing this) (frameCounter this) s
            (lastPredictionTime this) (onPredictionReady this)
            (framesProcessed this) (predictionsAttempted this)
            (landmarksDetected this).
Definition set_lastPredictionTime (t : Z) (this : Manager) : Manager :=
  mkManager (capturing this) (frameCounter this) (keypointSequence this)
            t (onPredictionReady this)
            (framesProcessed this) (predictionsAttempted this)
            (landmarksDetected this).
Definition setPredictionCallback (installed : bool) (this : Manager) : Manager :=
  mkManager (capturing this) (frameCounter this) (keypointSequence this)
            (lastPredictionTime this) installed
            (framesProcessed this) (predictionsAttempted this)
            (landmarksDetected this).
Definition set_framesProcessed (n : nat) (this : Manager) : Manager :=
  mkManager (capturing this) (frameCounter this) (keypointSequence this)
            (lastPredictionTime this) (onPredictionReady this)
            n (predictionsAttempted this) (landmarksDetected this).
Definition set_predictionsAttempted (n : nat) (this : Manager) : Manager :=
  mkManager (capturing this) (frameCounter this) (keypointSequence this)
            (lastPredictionTime this) (onPredictionReady this)
            (framesProcessed this) n (landmarksDetected this).
Definition set_landmarksDetected (d : Detected) (this : Manager) : Manager :=
  mkManager (capturing this) (frameCounter this) (keypointSequence this)
            (lastPredictionTime this) (onPredictionReady this)
            (framesProcessed this) (predictionsAttempted this) d.

(** [startCapture()] before its [await]: whether it goes on to ask for the
    camera (it answers [false] at once while capturing). *)
Definition startCapture_asks (this : Manager) : bool :=
  negb (capturing this).

(** [startCapture()] after its [await], up to the promise it returns;
    [loaded] is whether the video then reports its metadata (the promise
    resolves to [true]) or an error (it resolves to [false]). *)
Definition startCapture_resume (cam : Camera) (loaded : bool) (this : Manager)
  : Manager * bool :=
  match cam with
  | Denied => (this, false)
  | Granted =>
      let this := set_capturing true this in
      let this := set_keypointSequence [] this in
      let this := set_frameCounter 0 this in
      let this := set_framesProcessed 0 this in
      let this := set_predictionsAttempted 0 this in
      (this, loaded)
  end.

(** A whole [startCapture()] whose camera request is answered before
    anything else happens to the manager. *)
Definition startCapture (cam : Camera) (loaded : bool) (this : Manager)
  : Manager * bool :=
  if startCapture_asks this then startCapture_resume cam loaded this
  else (this, false).

(** [stopCapture()] *)
Definition stopCapture (this : Manager) : Manager :=
  if capturing this then set_capturing false this else this.

(** [processVideoFrame()]: every frame is sent while capturing. *)
Definition processVideoFrame (this : Manager) : Manager * bool :=
  if negb (capturing this) then (this, false)
  else (set_frameCounter (frameCounter this + 1) this, true).

(** The inner [extractLandmarks(landmarks, count, handName)]: it records the
    number of landmarks before it reads them. *)
Definition extractLandmarks (landmarks : option Landmarks) (count : nat)
    (handName : HandName) (this : Manager) : Manager * Outcome Frame :=
  match landmarks with
  | None => (this, Ok (zeros (count * 3)))
  | Some landmarks =>
      if length landmarks =? 0 then (this, Ok (zeros (count * 3)))
      else
        let this :=
          set_landmarksDetected
            (setHand handName (length landmarks) (landmarksDetected this)) this in
        (this, flatMapCoords landmarks)
  end.

(** One turn of [CONFIG.POSE_INDICES.forEach]. *)
Definition poseStep (results : Results) (acc : Frame * Manager) (index : nat)
  : Frame * Manager :=
  let '(poseCoords, this) := acc in
  match poseAt results index with
  | Some landmark =>
      let d := landmarksDetected this in
      (poseCoords ++ [lm_x landmark; lm_y landmark; lm_z landmark],
       set_landmarksDetected (mkDetected (leftHand d) (rightHand d) (pose d + 1)) this)
  | None => (poseCoords ++ [zero; zero; zero], this)
  end.

(** [extractKeypoints(results)] without the debug block that stands before
    its [return] (lines 498-508): the vector and the counters.  The block
    is [debugBlock] below and the whole method [extractKeypointsLogged];
    the block writes no field, and it returns unless the vector is longer
    than the engine lets a call take arguments. *)
Definition extractKeypoints (results : Results) (this : Manager)
  : Manager * Outcome Frame :=
  let this := set_landmarksDetected (mkDetected 0 0 0) this in
  let '(poseCoords, this) := foldl (poseStep results) ([], this) CONFIG.POSE_INDICES in
  match extractLandmarks (leftHandLandmarks results) 21 LeftHand this with
  | (this, Throw e) => (this, Throw e)
  | (this, Ok leftHandCoords) =>
      match extractLandmarks (rightHandLandmarks results) 21 RightHand this with
      | (this, Throw e) => (this, Throw e)
      | (this, Ok rightHandCoords) =>
          (this, Ok (leftHandCoords ++ rightHandCoords ++ poseCoords))
      end
  end.

(** The condition of the debug block:
    [this.framesProcessed === 1 || this.framesProcessed % 60 === 0]. *)
Definition debugDue (this : Manager) : bool :=
  (framesProcessed this =? 1) || (framesProcessed this mod 60 =? 0).

(** The debug block of [extractKeypoints] (lines 498-508).  It reads
    [framesProcessed] and the counters and writes nothing.  When it is due
    it logs, among others, [Math.min(...keypoints)] and
    [Math.max(...keypoints)]: each passes every number of the vector as an
    argument of one call, and the engine throws a RangeError at a call with
    more arguments than it accepts; [maxArguments] is that number.  On
    numbers nothing else in the block throws. *)
Definition debugBlock (maxArguments : nat) (keypoints : Frame) (this : Manager)
  : Outcome unit :=
  if debugDue this && (maxArguments <? length keypoints) then Throw RangeError
  else Ok ().

(** The whole method [extractKeypoints(results)], on an engine that accepts
    [maxArguments] arguments: the vector and the counters, then the debug
    block, then [return keypoints]. *)
Definition extractKeypointsLogged (maxArguments : nat) (results : Results)
    (this : Manager) : Manager * Outcome Frame :=
  match extractKeypoints results this with
  | (this, Throw e) => (this, Throw e)
  | (this, Ok keypoints) =>
      (this, _ ← debugBlock maxArguments keypoints this; Ok keypoints)
  end.

(** [onResults(results)], with [now] the value of [Date.now()].  The
    extraction is taken where its debug block returns: on vectors the
    engine can pass as arguments (the detector's hand sets hold 21
    landmarks). *)
Definition onResults (results : Results) (now : Z) (this : Manager)
  : Manager * Outcome Signal :=
  let this := set_framesProcessed (framesProcessed this + 1) this in
  match extractKeypoints results this with
  | (this, Throw e) => (this, Throw e)
  | (this, Ok keypoints) =>
      let this := set_keypointSequence (keypointSequence this ++ [keypoints]) this in
      if gate (length (keypointSequence this)) now (lastPredictionTime this) then
        let this := set_predictionsAttempted (predictionsAttempted this + 1) this in
        let this := set_lastPredictionTime now this in
        let sequenceToPredict := keypointSequence this in
        let this := set_keypointSequence (slice_neg 10 (keypointSequence this)) this in
        (this, Ok (Fired sequenceToPredict (onPredictionReady this)))
      else (this, Ok Quiet)
  end.

Definition step (ev : Event) (this : Manager) : Manager * list Obs :=
  match ev with
  | StartCapture =>
      (this, if startCapture_asks this then [] else [Started false])
  | CameraAnswer cam loaded =>
      let '(this, r) := startCapture_resume cam loaded this in (this, [Started r])
  | StopCapture => (stopCapture this, [])
  | AnimationFrame =>
      let '(this, sent) := processVideoFrame this in
      (this, if sent then [Sent] else [])
  | DetectorResults results now =>
      match onResults results now this with
      | (this, Throw e) => (this, [Raised e])
      | (this, Ok Quiet) => (this, [])
      | (this, Ok (Fired s d)) => (this, [Predict now s d])
      end
  | SetPredictionCallback installed => (setPredictionCallback installed this, [])
  end.

(** The manager driven by a list of events. *)
Definition run : list Event -> Manager -> Manager * list Obs := runWith step.

(** *** [validateSequence] *)

(** [val => isNaN(val) || !isFinite(val)] *)
Definition invalidValue (val : Prim) : Outcome bool :=
  nan ← isNaN val;
  if nan : bool then Ok true else fin ← isFinite val; Ok (negb fin).

(** The [for] loop of [validateSequence] from index [i] on, [frames] being
    [sequence[i..]]. *)
Fixpoint validateFrames (frames : list FrameValue) : Outcome bool :=
  match frames with
  | [] => Ok true
  | frame :: rest =>
      if negb (isArray frame) || lengthDiffers frame 144 then
        (* console.error(`... ${frame.length} vs 144`) *)
        _ ← readLength frame;
        Ok false
      else
        match frame with
        | Primitive _ => Ok false
        | Array elems =>
            invalid ← some invalidValue elems;
            if invalid : bool then Ok false else validateFrames rest
        end
  end.

(** [validateSequence(sequence)] *)
Definition validateSequence (sequence : Candidate) : Outcome bool :=
  match sequence with
  | Primitive _ => Ok false
  | Array frames =>
      if negb (length frames =? CONFIG.N_FRAMES) then Ok false
      else validateFrames frames
  end.

(** The buffer's snapshot as the JavaScript value the callback receives. *)
Definition ofFrame (f : Frame) : FrameValue := Array (PNum <$> f).
Definition ofSequence (s : list Frame) : Candidate := Array (ofFrame <$> s).

(** [isCapturing()] *)
Definition isCapturing (this : Manager) : bool := capturing this.

(** The object [getStats()] returns. *)
Record Stats : Type := mkStats {
  stats_framesProcessed : nat;
  stats_predictionsAttempted : nat;
  stats_currentSequenceLength : nat;
  stats_landmarksDetected : Detected;
  stats_isCapturing : bool
}.

(** [getStats()] *)
Definition getStats (this : Manager) : Stats :=
  mkStats (framesProcessed this) (predictionsAttempted this)
          (length (keypointSequence this)) (landmarksDetected this)
          (capturing this).

(** [cleanup()]: the Holistic handle apart, it stops the capture. *)
Definition cleanup (this : Manager) : Manager := stopCapture this.

End Mgr2.

(** ** The other classes

    A state machine driven by a list of inputs of any kind, what it is
    seen to do collected in order. *)
Fixpoint runOver {State Input Output : Type}
    (step : Input -> State -> State * list Output)
    (inputs : list Input) (this : State) : State * list Output :=
  match inputs with
  | [] => (this, [])
  | input :: rest =>
      let '(this1, o) := step input this in
      let '(this2, os) := runOver step rest this1 in
      (this2, o ++ os)
  end.

(** ** Text typed by the user or sent by the server

    A JavaScript string is a sequence of UTF-16 code units.  Texts of the
    program itself (event names, status words, labels) are kept as
    [string]; text whose length and white space matter is kept as its code
    units. *)
Abbreviation JsString := (list N).

(** The code units that [trim()] strips and [\s] matches: WhiteSpace and
    LineTerminator of the language. *)
Definition isWhiteSpace (c : N) : bool :=
  ((9 <=? c) && (c <=? 13) || (c =? 32) || (c =? 160) || (c =? 5760)
   || (8192 <=? c) && (c <=? 8202) || (c =? 8232) || (c =? 8233)
   || (c =? 8239) || (c =? 8287) || (c =? 12288) || (c =? 65279))%N.

Fixpoint trimStart (text : JsString) : JsString :=
  match text with
  | [] => []
  | c :: rest => if isWhiteSpace c then trimStart rest else text
  end.

Definition trimEnd (text : JsString) : JsString :=
  reverse (trimStart (reverse text)).

(** [text.trim()] *)
Definition trim (text : JsString) : JsString := trimEnd (trimStart text).

(** [text.split(/\s+/)]: the pieces between the maximal runs of white
    space, [piece] being the piece under way and [inSpace] telling whether
    the scan stands in such a run. *)
Fixpoint splitSpaces (inSpace : bool) (piece text : JsString) : list JsString :=
  match text with
  | [] => [piece]
  | c :: rest =>
      if isWhiteSpace c then
        if inSpace then splitSpaces true piece rest
        else piece :: splitSpaces true [] rest
      else splitSpaces false (piece ++ [c]) rest
  end.
Definition split_spaces (text : JsString) : list JsString :=
  splitSpaces false [] text.

(** [a > b] on numbers.  Finite numbers are compared as the dyadics they
    denote; NaN compares false with everything. *)
Definition num_gt (a b : jsnum) : bool :=
  match a, b with
  | NaN, _ | _, NaN => false
  | PosInf, PosInf => false
  | PosInf, _ => true
  | _, PosInf => false
  | NegInf, _ => false
  | _, NegInf => true
  | Finite m e, Finite m' e' =>
      if (e' <=? e)%Z then (m' <? m * 2 ^ (e - e'))%Z
      else (m' * 2 ^ (e' - e) <? m)%Z
  end.

(** ** [WebSocketManager] ([js/translation-manager.js], lines 74-194)

    The socket itself is outside: the manager keeps whether it holds one,
    and what it hands to it is listed.  The connection label of the page
    is not modelled. *)

Module WebSocketManager.

(** What goes to the socket: [socket.emit(name, ...)] and
    [socket.disconnect()]. *)
Inductive Emit : Type :=
| predict_sequence (sequence : list Frame) (history : list string)
| generate_animation (text : JsString)
| clear_history
| socket_disconnect.

(** What the socket delivers, [P] being what the server sends along. *)
Inductive SocketEvent (P : Type) : Type :=
| Connect                        (* ['connect'] *)
| Disconnected                   (* ['disconnect'] *)
| PredictionResult (data : P)    (* ['prediction_result'] *)
| PredictionError (data : P)     (* ['prediction_error'] *)
| AnimationResult (data : P)     (* ['animation_result'] *)
| AnimationError (data : P).     (* ['animation_error'] *)
Arguments Connect {P}.
Arguments Disconnected {P}.
Arguments PredictionResult {P} data.
Arguments PredictionError {P} data.
Arguments AnimationResult {P} data.
Arguments AnimationError {P} data.

(** What a handler is called with: an object [{status}] the manager
    builds, or the server's data. *)
Inductive Data (P : Type) : Type :=
| StatusData (status : string)
| ServerData (data : P).
Arguments StatusData {P} status.
Arguments ServerData {P} data.

(** The manager; [H] is the type of the handlers. *)
Record Manager (H : Type) : Type := mkManager {
  socket : bool;   (* whether [this.socket] holds a socket *)
  eventHandlers : gmap string (list H);
  isConnected : bool
}.
Arguments mkManager {H} socket eventHandlers isConnected.
Arguments socket {H} m.
Arguments eventHandlers {H} m.
Arguments isConnected {H} m.

(** [constructor()] *)
Definition new {H} : Manager H := mkManager false ∅ false.

(** [initialize()]; [io] tells whether [io()] returns a socket (or
    throws). *)
Definition initialize {H} (io : bool) (this : Manager H) : Manager H :=
  if socket this && isConnected this then this
  else if io then mkManager true (eventHandlers this) (isConnected this)
  else this.

(** [on(event, handler)] *)
Definition on {H} (event : string) (handler : H) (this : Manager H) : Manager H :=
  let handlers := default [] (eventHandlers this !! event) in
  mkManager (socket this)
            (<[event := handlers ++ [handler]]> (eventHandlers this))
            (isConnected this).

(** [emitEvent(event, data)]: the calls it makes, in order. *)
Definition emitEvent {H D} (event : string) (data : D) (this : Manager H)
  : list (H * D) :=
  match eventHandlers this !! event with
  | Some handlers => (fun handler => (handler, data)) <$> handlers
  | None => []
  end.

(** [handleConnect()], [handleDisconnect()] and the four forwarding
    handlers, by the socket event they are bound to. *)
Definition handle {H P} (ev : SocketEvent P) (this : Manager H)
  : Manager H * list (H * Data P) :=
  match ev with
  | Connect =>
      let this := mkManager (socket this) (eventHandlers this) true in
      (this, emitEvent "statusUpdate" (StatusData "READY") this)
  | Disconnected =>
      let this := mkManager (socket this) (eventHandlers this) false in
      (this, emitEvent "statusUpdate" (StatusData "DISCONNECTED") this)
  | PredictionResult data =>
      (this, emitEvent "predictionResult" (ServerData data) this)
  | PredictionError data =>
      (this, emitEvent "predictionError" (ServerData data) this
               ++ emitEvent "statusUpdate" (StatusData "ERROR") this)
  | AnimationResult data =>
      (this, emitEvent "animationResult" (ServerData data) this)
  | AnimationError data =>
      (this, emitEvent "animationError" (ServerData data) this)
  end.

(** The three sending methods: the answer and what goes to the socket. *)
Definition send {H} (message : Emit) (this : Manager H) : bool * list Emit :=
  if socket this && isConnected this then (true, [message]) else (false, []).

Definition predictSequence {H} (sequence : list Frame) (history : list string)
    (this : Manager H) : bool * list Emit :=
  send (predict_sequence sequence history) this.

Definition generateAnimation {H} (text : JsString) (this : Manager H)
  : bool * list Emit :=
  send (generate_animation text) this.

Definition clearHistory {H} (this : Manager H) : bool * list Emit :=
  send clear_history this.

(** [getConnectionStatus()] *)
Definition getConnectionStatus {H} (this : Manager H) : bool := isConnected this.

(** [disconnect()] *)
Definition disconnect {H} (this : Manager H) : Manager H * list Emit :=
  if socket this then (mkManager false (eventHandlers this) false, [socket_disconnect])
  else (this, []).

(** The calls and callbacks a manager gets. *)
Inductive Call (H P : Type) : Type :=
| Initialize (io : bool)
| FromSocket (ev : SocketEvent P)
| On (event : string) (handler : H)
| PredictSequence (sequence : list Frame) (history : list string)
| GenerateAnimation (text : JsString)
| ClearHistory
| Disconnect.
Arguments Initialize {H P} io.
Arguments FromSocket {H P} ev.
Arguments On {H P} event handler.
Arguments PredictSequence {H P} sequence history.
Arguments GenerateAnimation {H P} text.
Arguments ClearHistory {H P}.
Arguments Disconnect {H P}.

(** What is seen of a call: what went to the socket, and which handlers
    were called. *)
Inductive Seen (H P : Type) : Type :=
| ToSocket (message : Emit)
| Called (handler : H) (data : Data P)
| Answered (result : bool).
Arguments ToSocket {H P} message.
Arguments Called {H P} handler data.
Arguments Answered {H P} result.

Definition answered {H P} (r : bool * list Emit) : list (Seen H P) :=
  (ToSocket <$> snd r) ++ [Answered (fst r)].

Definition step {H P} (call : Call H P) (this : Manager H)
  : Manager H * list (Seen H P) :=
  match call with
  | Initialize io => (initialize io this, [])
  | FromSocket ev =>
      let '(this, calls) := handle ev this in
      (this, (fun c => Called (fst c) (snd c)) <$> calls)
  | On event handler => (on event handler this, [])
  | PredictSequence sequence history =>
      (this, answered (predictSequence sequence history this))
  | GenerateAnimation text => (this, answered (generateAnimation text this))
  | ClearHistory => (this, answered (clearHistory this))
  | Disconnect =>
      let '(this, out) := disconnect this in (this, ToSocket <$> out)
  end.

Definition run {H P} : list (Call H P) -> Manager H -> Manager H * list (Seen H P) :=
  runOver step.

(** What a run handed to the socket. *)
Definition toSocket {H P} (seen : list (Seen H P)) : list Emit :=
  omap (fun s => match s with ToSocket m => Some m | _ => None end) seen.

End WebSocketManager.

(** [CONFIG.MIN_CONFIDENCE]: the double written [0.65]. *)
Definition MIN_CONFIDENCE : jsnum := Finite 5854679515581645 (-53).

(** ** [UIManager] ([js/app.js], lines 140-294)

    The page elements the recognition side writes: the status box, the
    video placeholder, the detected text with its word count, the recent
    signs and the confidence meter; and the text input the animation side
    reads.  Mode switching and the animation elements are not modelled. *)

Module UIManager.

(** The text of the status box: a word of the program, or the text built
    from a recognised label and its confidence,
    [`${label.toUpperCase()} (${Math.round(confidence * 100)}%)`]. *)
Inductive StatusText : Type :=
| Plain (text : string)
| Recognised (label : string) (confidence : jsnum).

Record UI : Type := mkUI {
  statusValue : StatusText;
  statusType : string;           (* the class beside ['status-box'], or [""] *)
  videoPlaceholderHidden : bool;
  detectedText : JsString;
  wordCount : nat;
  recentSigns : list string;     (* the signs shown; none: the 'no signs' text *)
  confidenceShown : option jsnum;
  textInput : JsString
}.

(** [updateStatus(status, type = '')] *)
Definition updateStatus (status : StatusText) (type : string) (ui : UI) : UI :=
  mkUI status type (videoPlaceholderHidden ui) (detectedText ui) (wordCount ui)
       (recentSigns ui) (confidenceShown ui) (textInput ui).

(** [updateConfidence(confidence)] *)
Definition updateConfidence (confidence : jsnum) (ui : UI) : UI :=
  mkUI (statusValue ui) (statusType ui) (videoPlaceholderHidden ui)
       (detectedText ui) (wordCount ui) (recentSigns ui) (Some confidence)
       (textInput ui).

(** The number [updateWordCount()] shows for a text. *)
Definition countWords (text : JsString) : nat :=
  if decide (trim text = []) then 0 else length (split_spaces (trim text)).

(** [updateDetectedText(sentence)], with the [updateWordCount()] it ends in. *)
Definition updateDetectedText (sentence : JsString) (ui : UI) : UI :=
  mkUI (statusValue ui) (statusType ui) (videoPlaceholderHidden ui)
       sentence (countWords sentence) (recentSigns ui) (confidenceShown ui)
       (textInput ui).

(** [clearDetectedText()] *)
Definition clearDetectedText (ui : UI) : UI := updateDetectedText [] ui.

(** [updateRecentSigns(signHistory)] *)
Definition updateRecentSigns (signHistory : list string) (ui : UI) : UI :=
  mkUI (statusValue ui) (statusType ui) (videoPlaceholderHidden ui)
       (detectedText ui) (wordCount ui)
       (if length signHistory =? 0 then [] else slice_neg 5 signHistory)
       (confidenceShown ui) (textInput ui).

(** [showVideoPlaceholder(show)] *)
Definition showVideoPlaceholder (show : bool) (ui : UI) : UI :=
  mkUI (statusValue ui) (statusType ui) (negb show) (detectedText ui)
       (wordCount ui) (recentSigns ui) (confidenceShown ui) (textInput ui).

(** [getTextInput()] *)
Definition getTextInput (ui : UI) : JsString := trim (textInput ui).

End UIManager.

(** ** [TranslationManager] ([js/translation-manager.js], lines 1-74) *)

Module TranslationManager.

Import UIManager.

(** The data of a ['prediction_result']. *)
Record Prediction : Type := mkPrediction {
  label : string;
  confidence : jsnum;
  sentence : JsString;
  history : option (list string)
}.

(** [handlePredictionResult(data)]: the new [signHistory] and page. *)
Definition handlePredictionResult (data : Prediction)
    (signHistory : list string) (ui : UI) : list string * UI :=
  let ui := updateConfidence (confidence data) ui in
  if num_gt (confidence data) MIN_CONFIDENCE then
    let ui := updateStatus (Recognised (label data) (confidence data)) "confident" ui in
    let signHistory := default [] (history data) in
    let ui := if length (sentence data) =? 0 then ui
              else updateDetectedText (sentence data) ui in
    (signHistory, updateRecentSigns signHistory ui)
  else
    (signHistory, updateStatus (Plain "DETECTING...") "uncertain" ui).

(** [handlePredictionError(data)] *)
Definition handlePredictionError (ui : UI) : UI :=
  updateStatus (Plain "PREDICTION_ERROR") "error" ui.

(** [handleStatusUpdate(data)] *)
Definition handleStatusUpdate (status : string) (ui : UI) : UI :=
  updateStatus (Plain status) "" ui.

(** [handleSequenceReady(sequence)]: the page, and what goes to the socket. *)
Definition handleSequenceReady {H} (sequence : list Frame)
    (signHistory : list string) (ws : WebSocketManager.Manager H) (ui : UI)
  : UI * list WebSocketManager.Emit :=
  if WebSocketManager.getConnectionStatus ws then
    let '(success, out) := WebSocketManager.predictSequence sequence signHistory ws in
    (if success then ui else updateStatus (Plain "WEBSOCKET_ERROR") "error" ui, out)
  else (updateStatus (Plain "DISCONNECTED") "error" ui, []).

(** [clearHistory()] *)
Definition clearHistory {H} (ws : WebSocketManager.Manager H) (ui : UI)
  : list string * UI * list WebSocketManager.Emit :=
  let ui := updateRecentSigns [] ui in
  let ui := clearDetectedText ui in
  ([], ui, snd (WebSocketManager.clearHistory ws)).

End TranslationManager.

(** ** [AnimationManager] ([part_002]) *)

Module AnimationManager.

(** What [validateText] returns: [{valid: true, text}] or
    [{valid: false, error}]. *)
Inductive Validation : Type :=
| Valid (text : JsString)
| Invalid (error : string).

(** [text.replace(/[<>]/g, '')] *)
Definition sanitize (text : JsString) : JsString :=
  filter (fun c => c <> 60%N /\ c <> 62%N) text.

(** [validateText(text)] *)
Definition validateText (text : JsString) : Validation :=
  if (length text =? 0) || (length (trim text) =? 0) then
    Invalid "Text cannot be empty"
  else if 500 <? length text then
    Invalid "Text too long (max 500 characters)"
  else Valid (sanitize text).

(** [generateAnimation()]: its answer, what goes to the socket, and the
    error it shows, if any; [alerted] tells that it stopped at the alert. *)
Record Generated : Type := mkGenerated {
  answer : bool;
  sent : list WebSocketManager.Emit;
  shown : option string;
  alerted : bool
}.

Definition generateAnimation {H} (ui : UIManager.UI)
    (ws : WebSocketManager.Manager H) : Generated :=
  let text := UIManager.getTextInput ui in
  if length text =? 0 then mkGenerated false [] None true
  else if WebSocketManager.getConnectionStatus ws then
    let '(success, out) := WebSocketManager.generateAnimation text ws in
    mkGenerated success out
                (if success then None else Some "Failed to send animation request")
                false
  else mkGenerated false [] (Some "Not connected to the server.") false.

End AnimationManager.

(** ** [DeepISLApp] ([js/app.js], lines 1-140)

    The application wires one manager of each kind.  It is written once
    for both definitions of [MediaPipeManager], through the methods it
    calls on it. *)

Class MediaPipe (M : Type) : Type := {
  mp_isCapturing : M -> bool;
  mp_startCapture_resume : Camera -> bool -> M -> M * bool;
  mp_stopCapture : M -> M;
  mp_processVideoFrame : M -> M * bool;
  mp_onResults : Results -> Z -> M -> M * Outcome Signal;
  mp_setPredictionCallback : bool -> M -> M;
  mp_cleanup : M -> M;
  mp_new : M
}.

#[global] Instance Mgr1_MediaPipe : MediaPipe Mgr1.Manager := {
  mp_isCapturing := Mgr1.isCapturing;
  mp_startCapture_resume := Mgr1.startCapture_resume;
  mp_stopCapture := Mgr1.stopCapture;
  mp_processVideoFrame := Mgr1.processVideoFrame;
  mp_onResults := Mgr1.onResults;
  mp_setPredictionCallback := Mgr1.setPredictionCallback;
  mp_cleanup := Mgr1.cleanup;
  mp_new := Mgr1.new
}.

#[global] Instance Mgr2_MediaPipe : MediaPipe Mgr2.Manager := {
  mp_isCapturing := Mgr2.isCapturing;
  mp_startCapture_resume := Mgr2.startCapture_resume;
  mp_stopCapture := Mgr2.stopCapture;
  mp_processVideoFrame := Mgr2.processVideoFrame;
  mp_onResults := Mgr2.onResults;
  mp_setPredictionCallback := Mgr2.setPredictionCallback;
  mp_cleanup := Mgr2.cleanup;
  mp_new := Mgr2.new
}.

Module DeepISLApp.

Import UIManager.

(** The handlers the two dependent managers register with the
    [WebSocketManager]. *)
Inductive Handler : Type :=
| TranslationManager_handlePredictionResult
| TranslationManager_handlePredictionError
| TranslationManager_handleStatusUpdate
| AnimationManager_handleAnimationResult
| AnimationManager_handleAnimationError.

(** What the server sends along with its events. *)
Inductive Payload : Type :=
| PredictionPayload (data : TranslationManager.Prediction)
| ErrorPayload (error : string)
| AnimationPayload (video_url : option string).

(** The socket events as the server of this application sends them: a
    ['prediction_result'] carries a prediction (a label, a number, a
    sentence, and a history that is an array of strings or absent), the
    error events an error text, an ['animation_result'] a video URL or
    none. *)
Inductive ServerEvent : Type :=
| Connect
| Disconnected
| PredictionResult (data : TranslationManager.Prediction)
| PredictionError (error : string)
| AnimationResult (video_url : option string)
| AnimationError (error : string).

Definition socketEvent (ev : ServerEvent) : WebSocketManager.SocketEvent Payload :=
  match ev with
  | Connect => WebSocketManager.Connect
  | Disconnected => WebSocketManager.Disconnected
  | PredictionResult data => WebSocketManager.PredictionResult (PredictionPayload data)
  | PredictionError error => WebSocketManager.PredictionError (ErrorPayload error)
  | AnimationResult video_url =>
      WebSocketManager.AnimationResult (AnimationPayload video_url)
  | AnimationError error => WebSocketManager.AnimationError (ErrorPayload error)
  end.

Record App (M : Type) : Type := mkApp {
  mediaPipeManager : M;
  webSocketManager : WebSocketManager.Manager Handler;
  uiManager : UI;
  signHistory : list string;   (* [translationManager.signHistory] *)
  startPending : bool
    (* the promise of the last [startCapture()] that got the camera is not
       yet resolved: a [startSignDetection()] waits for it *)
}.
Arguments mkApp {M} mediaPipeManager webSocketManager uiManager signHistory
  startPending.
Arguments mediaPipeManager {M} a.
Arguments webSocketManager {M} a.
Arguments uiManager {M} a.
Arguments signHistory {M} a.
Arguments startPending {M} a.

(** What the application is seen to do. *)
Inductive Seen : Type :=
| ToSocket (message : WebSocketManager.Emit)
| GateFired (now : Z) (sequence : list Frame)
| FrameSent
| CameraAsked
| Alerted
| Thrown (e : Exn).

Section WithManager.

Context {M : Type} `{MediaPipe M}.

Definition with_ui (ui : UI) (app : App M) : App M :=
  mkApp (mediaPipeManager app) (webSocketManager app) ui (signHistory app)
        (startPending app).
Definition with_manager (m : M) (app : App M) : App M :=
  mkApp m (webSocketManager app) (uiManager app) (signHistory app)
        (startPending app).
Definition with_startPending (pending : bool) (app : App M) : App M :=
  mkApp (mediaPipeManager app) (webSocketManager app) (uiManager app)
        (signHistory app) pending.

(** The registrations of [TranslationManager.setupEventListeners] and
    [AnimationManager.setupEventListeners], in the order [initialize]
    constructs the two. *)
Definition registered (ws : WebSocketManager.Manager Handler)
  : WebSocketManager.Manager Handler :=
  WebSocketManager.on "animationError" AnimationManager_handleAnimationError
    (WebSocketManager.on "animationResult" AnimationManager_handleAnimationResult
       (WebSocketManager.on "statusUpdate" TranslationManager_handleStatusUpdate
          (WebSocketManager.on "predictionError" TranslationManager_handlePredictionError
             (WebSocketManager.on "predictionResult"
                TranslationManager_handlePredictionResult ws)))).

(** The application after a successful [initialize()], on a page [ui]. *)
Definition initialized (ui : UI) : App M :=
  mkApp (mp_setPredictionCallback true mp_new)
        (registered (WebSocketManager.initialize true WebSocketManager.new))
        ui [] false.

(** [stopSignDetection()] *)
Definition stopSignDetection (app : App M) : App M :=
  let app := with_manager (mp_stopCapture (mediaPipeManager app)) app in
  let app := with_ui (updateStatus (Plain "IDLE") "" (uiManager app)) app in
  with_ui (showVideoPlaceholder true (uiManager app)) app.

(** [handleMediaPipeError(error)] *)
Definition handleMediaPipeError (app : App M) : App M :=
  let app := with_ui (updateStatus (Plain "MEDIAPIPE_ERROR") "error" (uiManager app)) app in
  stopSignDetection app.

(** [handleVisibilityChange()], [hidden] being [document.hidden]. *)
Definition handleVisibilityChange (hidden : bool) (app : App M) : App M :=
  if hidden && mp_isCapturing (mediaPipeManager app) then stopSignDetection app
  else app.

(** [startSignDetection()] up to its [await]: the flag tells whether it got
    as far as asking for the camera. *)
Definition startSignDetection (app : App M) : App M * list Seen :=
  if mp_isCapturing (mediaPipeManager app) then (app, [])
  else if negb (WebSocketManager.getConnectionStatus (webSocketManager app))
  then (app, [Alerted])
  else
    let app := with_ui (showVideoPlaceholder false (uiManager app)) app in
    let app := with_ui (updateStatus (Plain "STARTING...") "" (uiManager app)) app in
    (app, [CameraAsked]).

(** The end of [startSignDetection()] when [startCapture()] answered
    [false]. *)
Definition startFailed (app : App M) : App M :=
  let app := with_ui (updateStatus (Plain "CAMERA_ERROR") "error" (uiManager app)) app in
  with_ui (showVideoPlaceholder true (uiManager app)) app.

(** The camera answers: the rest of [startCapture()] runs.  When the
    camera is granted it installs the two handlers of the video, which
    resolve the promise it returns (the handlers of an earlier call are
    replaced, so that its promise stays unresolved).  When the camera is
    denied it reports the error, which reaches [handleMediaPipeError], and
    answers [false] to its [startSignDetection()]. *)
Definition cameraAnswered (cam : Camera) (app : App M) : App M :=
  let app :=
    with_manager (fst (mp_startCapture_resume cam true (mediaPipeManager app))) app in
  match cam with
  | Granted => with_startPending true app
  | Denied => startFailed (handleMediaPipeError app)
  end.

(** [video.onloadedmetadata]: a [processVideoFrame()], then [resolve(true)]:
    if the promise was not resolved before, [startSignDetection()] goes
    on. *)
Definition videoLoaded (app : App M) : App M * list Seen :=
  let '(m, sent) := mp_processVideoFrame (mediaPipeManager app) in
  let app := with_manager m app in
  let app :=
    if startPending app
    then with_ui (updateStatus (Plain "DETECTING...") "" (uiManager app)) app
    else app in
  (with_startPending false app, if sent then [FrameSent] else []).

(** [video.onerror]: the error is reported, then [resolve(false)]: if the
    promise was not resolved before, [startSignDetection()] goes on. *)
Definition videoError (app : App M) : App M :=
  let app := handleMediaPipeError app in
  let app := if startPending app then startFailed app else app in
  with_startPending false app.

(** A detection result arrives: [onResults], and through the prediction
    callback [TranslationManager.handleSequenceReady]. *)
Definition detected (results : Results) (now : Z) (app : App M)
  : App M * list Seen :=
  match mp_onResults results now (mediaPipeManager app) with
  | (m, Throw e) => (with_manager m app, [Thrown e])
  | (m, Ok Quiet) => (with_manager m app, [])
  | (m, Ok (Fired sequence delivered)) =>
      let app := with_manager m app in
      if delivered then
        let '(ui, out) :=
          TranslationManager.handleSequenceReady
            sequence (signHistory app) (webSocketManager app) (uiManager app) in
        (with_ui ui app, GateFired now sequence :: (ToSocket <$> out))
      else (app, [GateFired now sequence])
  end.

(** One handler called by [emitEvent]. *)
Definition called (call : Handler * WebSocketManager.Data Payload) (app : App M)
  : App M :=
  match call with
  | (TranslationManager_handleStatusUpdate, WebSocketManager.StatusData status) =>
      with_ui (TranslationManager.handleStatusUpdate status (uiManager app)) app
  | (TranslationManager_handlePredictionError, _) =>
      with_ui (TranslationManager.handlePredictionError (uiManager app)) app
  | (TranslationManager_handlePredictionResult,
     WebSocketManager.ServerData (PredictionPayload data)) =>
      let '(h, ui) :=
        TranslationManager.handlePredictionResult data (signHistory app)
                                                  (uiManager app) in
      mkApp (mediaPipeManager app) (webSocketManager app) ui h (startPending app)
  | _ => app   (* the animation handlers write animation elements only *)
  end.

(** A socket event: the manager's handler, then the handlers it calls. *)
Definition fromSocket (ev : ServerEvent) (app : App M) : App M :=
  let '(ws, calls) :=
    WebSocketManager.handle (socketEvent ev) (webSocketManager app) in
  foldl (fun app call => called call app)
        (mkApp (mediaPipeManager app) ws (uiManager app) (signHistory app)
               (startPending app))
        calls.

(** The clear button: [TranslationManager.clearHistory()]. *)
Definition clear (app : App M) : App M * list Seen :=
  let '(h, ui, out) :=
    TranslationManager.clearHistory (webSocketManager app) (uiManager app) in
  (mkApp (mediaPipeManager app) (webSocketManager app) ui h (startPending app),
   ToSocket <$> out).

(** [cleanup()] *)
Definition cleanup (app : App M) : App M * list Seen :=
  let m := mp_cleanup (mediaPipeManager app) in
  let '(ws, out) := WebSocketManager.disconnect (webSocketManager app) in
  (mkApp m ws (uiManager app) (signHistory app) (startPending app),
   ToSocket <$> out).

(** What happens to the application.  The two events of the video element
    occur only after a camera was granted, when their handlers are
    installed. *)
Inductive Event : Type :=
| ClickStart
| CameraAnswered (cam : Camera)
| VideoLoaded
| VideoError
| ClickStop
| ClickClear
| VisibilityChange (hidden : bool)
| AnimationFrame
| Detected (results : Results) (now : Z)
| FromSocket (ev : ServerEvent)
| BeforeUnload.

Definition step (ev : Event) (app : App M) : App M * list Seen :=
  match ev with
  | ClickStart => startSignDetection app
  | CameraAnswered cam => (cameraAnswered cam app, [])
  | VideoLoaded => videoLoaded app
  | VideoError => (videoError app, [])
  | ClickStop => (stopSignDetection app, [])
  | ClickClear => clear app
  | VisibilityChange hidden => (handleVisibilityChange hidden app, [])
  | AnimationFrame =>
      let '(m, sent) := mp_processVideoFrame (mediaPipeManager app) in
      (with_manager m app, if sent then [FrameSent] else [])
  | Detected results now => detected results now app
  | FromSocket ev => (fromSocket ev app, [])
  | BeforeUnload => cleanup app
  end.

Definition run : list Event -> App M -> App M * list Seen := runOver step.

(** The sequences a run sent to the server, and the times of its
    firings. *)
Definition sentSequences (seen : list Seen) : list (list Frame) :=
  omap (fun s => match s with
                 | ToSocket (WebSocketManager.predict_sequence sequence _) =>
                     Some sequence
                 | _ => None
                 end) seen.
Definition firings (seen : list Seen) : list (Z * list Frame) :=
  omap (fun s => match s with GateFired now sequence => Some (now, sequence)
                              | _ => None end) seen.

(** The callbacks whose sequence went to the server: a firing followed at
    once by its [predict_sequence], with the clock value of the callback
    and the sequence sent. *)
Fixpoint sends (seen : list Seen) : list (Z * list Frame) :=
  match seen with
  | [] => []
  | GateFired now _ :: rest =>
      match rest with
      | ToSocket (WebSocketManager.predict_sequence sequence _) :: _ =>
          (now, sequence) :: sends rest
      | _ => sends rest
      end
  | _ :: rest => sends rest
  end.

End WithManager.

End DeepISLApp.

(** ** Vocabulary of the statements *)

(** Every slot of a landmark array is filled. *)
Definition filled (landmarks : Landmarks) : Prop := Forall is_Some landmarks.

(** A hand set that [Mgr2.extractKeypoints] turns into 63 numbers: absent,
    empty, or 21 filled slots. *)
Definition regularHand (hand : option Landmarks) : Prop :=
  match hand with
  | None => True
  | Some landmarks =>
      landmarks = [] \/ (length landmarks = 21 /\ filled landmarks)
  end.

(** The three numbers a pose index contributes. *)
Definition poseTriple (results : Results) (idx : nat) : Frame :=
  match poseAt results idx with
  | Some lm => [lm_x lm; lm_y lm; lm_z lm]
  | None => [zero; zero; zero]
  end.

(** How many of the indices have a landmark. *)
Definition poseCount (results : Results) (idxs : list nat) : nat :=
  length (filter (fun idx => is_Some (poseAt results idx)) idxs).

(** What [extractLandmarks] returns, apart from the counter it sets. *)
Definition handCoords (hand : option Landmarks) : Outcome Frame :=
  match hand with
  | None => Ok (zeros 63)
  | Some landmarks =>
      if length landmarks =? 0 then Ok (zeros 63) else flatMapCoords landmarks
  end.

Definition handCount (hand : option Landmarks) : nat :=
  match hand with None => 0 | Some landmarks => length landmarks end.

(** The vector of [Mgr2.extractKeypoints], as a function of the detection
    result alone. *)
Definition keypointsOf (results : Results) : Outcome Frame :=
  leftHandCoords ← handCoords (leftHandLandmarks results);
  rightHandCoords ← handCoords (rightHandLandmarks results);
  Ok (leftHandCoords ++ rightHandCoords
        ++ (CONFIG.POSE_INDICES ≫= poseTriple results)).

(** The debug counters [Mgr2.extractKeypoints] leaves behind: the right
    hand is not counted when reading the left hand threw. *)
Definition detectedAfter (results : Results) : Mgr2.Detected :=
  Mgr2.mkDetected
    (handCount (leftHandLandmarks results))
    (if returns (handCoords (leftHandLandmarks results))
     then handCount (rightHandLandmarks results) else 0)
    (poseCount results CONFIG.POSE_INDICES).

(** A number is not finite: NaN or an infinity. *)
Definition nonFinite (n : jsnum) : Prop := n = NaN \/ n = PosInf \/ n = NegInf.

(** What the validator is specified to reject: an outer length other than
    30, some inner vector of a length other than 144, or some element that
    is not finite. *)
Definition malformed (s : list Frame) : Prop :=
  length s <> 30 \/
  Exists (fun f => length f <> 144) s \/
  Exists (fun f => Exists nonFinite f) s.

(** The frames a list of events brings, for a given extraction. *)
Definition framesOf (extractKeypoints : Results -> Outcome Frame)
    (evs : list Event) : list Frame :=
  omap (fun ev =>
          match ev with
          | DetectorResults results _ =>
              match extractKeypoints results with
              | Ok keypoints => Some keypoints
              | Throw _ => None
              end
          | _ => None
          end) evs.

(** Sample detector outputs used by the examples. *)
Definition samplePoint : Landmark :=
  mkLandmark (Finite 1 (-1)) (Finite 1 (-2)) (Finite 0 0).
Definition sampleSet (n : nat) : Landmarks := replicate n (Some samplePoint).
Definition fullDetection : Results :=
  mkResults (Some (sampleSet 21)) (Some (sampleSet 21)) (Some (sampleSet 33)).
Definition noDetection : Results := mkResults None None None.
Definition shortHand : Results :=
  mkResults (Some (sampleSet 20)) None (Some (sampleSet 33)).
Definition holedHand : Results :=
  mkResults (Some (replicate 20 (Some samplePoint) ++ [None])) None None.

(** Sample traces used by the examples.  [paced n start period] is [n]
    detection callbacks, [period] ms apart, the first at [start + period]. *)
Definition T0 : Z := 1700000000000.
Definition paced (n : nat) (start period : Z) : list Event :=
  (fun k => DetectorResults fullDetection (start + period * Z.of_nat k)%Z)
    <$> seq 1 n.

(** Thirty callbacks at 16 ms, the last at [T0]. *)
Definition firstWindow : list Event := paced 30 (T0 - 480) 16.

(** ... then 21 more at 16 ms, the last at [T0 + 336]. *)
Definition overfullTrace : list Event := firstWindow ++ paced 21 T0 16.

(** ... or 26 more at 16 ms, the last at [T0 + 416], a callback set. *)
Definition oversizedDispatchTrace : list Event :=
  SetPredictionCallback true :: firstWindow ++ paced 26 T0 16.

(** ... or 20, respectively 30, more at 33 ms. *)
Definition twoFiresTrace : list Event := firstWindow ++ paced 20 T0 33.
Definition twoFiresTrace1 : list Event := firstWindow ++ paced 30 T0 33.

(** ... or, the clock having been set back by an hour, 31 more at 66 ms. *)
Definition clockSetBackTrace : list Event :=
  firstWindow ++ paced 31 (T0 - 3600000) 66.

(** Capture started and stopped at once, or after twelve callbacks. *)
Definition stoppedTrace : list Event :=
  [StartCapture; CameraAnswer Granted true; StopCapture].
Definition abandonedTrace : list Event :=
  StartCapture :: CameraAnswer Granted true :: paced 12 T0 33 ++ [StopCapture].

(** The managers after 29 callbacks, a prediction callback set: the next
    frame reaches [N_FRAMES]. *)
Definition primed : Mgr2.Manager :=
  fst (Mgr2.run (SetPredictionCallback true :: paced 29 (T0 - 480) 16) Mgr2.new).
Definition primed1 : Mgr1.Manager :=
  fst (Mgr1.run (SetPredictionCallback true :: paced 29 (T0 - 480) 16) Mgr1.new).

(** The number of numbers in the vector of [Mgr2.extractKeypoints]: three
    per landmark of a hand set, an absent or empty one counting as 21, and
    eighteen for the pose. *)
Definition keypointCount (results : Results) : nat :=
  3 * (if handCount (leftHandLandmarks results) =? 0 then 21
       else handCount (leftHandLandmarks results))
  + 3 * (if handCount (rightHandLandmarks results) =? 0 then 21
         else handCount (rightHandLandmarks results))
  + 18.

(** An engine that accepts 65535 arguments in a call, and a detector output
    with a left hand of 50000 landmarks, used by the examples. *)
Definition sampleLimit : nat := 2 ^ 16 - 1.
Definition hugeHand : Results :=
  mkResults (Some (sampleSet (50 * 1000))) None None.

(** ** Vocabulary of the further statements *)

(** The number of detection callbacks in a trace. *)
Fixpoint countResults (evs : list Event) : nat :=
  match evs with
  | [] => 0
  | DetectorResults _ _ :: rest => S (countResults rest)
  | _ :: rest => countResults rest
  end.

(** No camera is granted in the trace: capture is not (re)started. *)
Definition restartFree (evs : list Event) : bool :=
  forallb (fun ev => if ev is CameraAnswer Granted _ then false else true) evs.

(** Two clock values in a row are more than the throttle apart, and so
    are any two of the list. *)
Definition spaced (times : list Z) : Prop :=
  StronglySorted (fun t t' => (CONFIG.PREDICTION_THROTTLE_MS < t' - t)%Z) times.

(** A list of registrations done in order. *)
Definition registerAll {H} (registrations : list (string * H))
    (ws : WebSocketManager.Manager H) : WebSocketManager.Manager H :=
  foldl (fun ws r => WebSocketManager.on (fst r) (snd r) ws) ws registrations.

(** The handlers registered for an event, in the order of registration. *)
Definition registeredFor {H} (event : string) (registrations : list (string * H))
  : list H :=
  snd <$> filter (fun r => fst r = event) registrations.

(** No call of the list is [initialize()]. *)
Definition initializeFree {H P} (calls : list (WebSocketManager.Call H P)) : bool :=
  forallb (fun call => if call is WebSocketManager.Initialize _ then false else true)
          calls.

(** The code units of [<] and [>], and of the space. *)
Definition lessThan : N := 60.
Definition greaterThan : N := 62.
Definition space : N := 32.

(** The words of a text counted by their first code units: those that are
    not white space and stand first or after white space. *)
Fixpoint wordStarts (afterSpace : bool) (text : JsString) : nat :=
  match text with
  | [] => 0
  | c :: rest =>
      if isWhiteSpace c then wordStarts true rest
      else (if afterSpace then 1 else 0) + wordStarts false rest
  end.

(** A text of white space only (or empty). *)
Definition blank (text : JsString) : Prop :=
  Forall (fun c => isWhiteSpace c = true) text.

(** Whether a scan of [text] ends in white space, [inSpace] telling where
    it starts. *)
Fixpoint endsInSpace (inSpace : bool) (text : JsString) : bool :=
  match text with
  | [] => inSpace
  | c :: rest => endsInSpace (isWhiteSpace c) rest
  end.

(** The page shows what the application holds: the word count is that of
    the detected text, and the recent signs are the last five of the sign
    history. *)
Definition pageConsistent {M} (app : DeepISLApp.App M) : Prop :=
  UIManager.wordCount (DeepISLApp.uiManager app)
  = UIManager.countWords (UIManager.detectedText (DeepISLApp.uiManager app)) /\
  UIManager.recentSigns (DeepISLApp.uiManager app)
  = slice_neg 5 (DeepISLApp.signHistory app).

(** What an event of the application does to its [MediaPipeManager], as
    events of the manager.  A denied camera and a video error end in
    [handleMediaPipeError], which stops the capture. *)
Definition managerEvents (ev : DeepISLApp.Event) : list Event :=
  match ev with
  | DeepISLApp.CameraAnswered Granted => [CameraAnswer Granted true]
  | DeepISLApp.CameraAnswered Denied => [CameraAnswer Denied true; StopCapture]
  | DeepISLApp.VideoLoaded => [AnimationFrame]
  | DeepISLApp.VideoError => [StopCapture]
  | DeepISLApp.ClickStop => [StopCapture]
  | DeepISLApp.VisibilityChange hidden => if hidden then [StopCapture] else []
  | DeepISLApp.AnimationFrame => [AnimationFrame]
  | DeepISLApp.Detected results now => [DetectorResults results now]
  | DeepISLApp.BeforeUnload => [StopCapture]
  | DeepISLApp.ClickStart | DeepISLApp.ClickClear | DeepISLApp.FromSocket _ => []
  end.
Definition managerTrace (evs : list DeepISLApp.Event) : list Event :=
  evs ≫= managerEvents.

(** The firings of a manager's trace, each with its clock value. *)
Definition predictions (obs : list Obs) : list (Z * list Frame) :=
  omap (fun o => match o with Predict now s _ => Some (now, s) | _ => None end) obs.

(** What the application is seen to do apart from a firing and the
    [predict_sequence] that may follow it. *)
Definition quiet (s : DeepISLApp.Seen) : bool :=
  match s with
  | DeepISLApp.GateFired _ _ => false
  | DeepISLApp.ToSocket (WebSocketManager.predict_sequence _ _) => false
  | _ => true
  end.

(** A list of what is seen does not begin with a [predict_sequence]. *)
Definition headFree (seen : list DeepISLApp.Seen) : Prop :=
  match seen with
  | DeepISLApp.ToSocket (WebSocketManager.predict_sequence _ _) :: _ => False
  | _ => True
  end.

(** A page before anything is shown, a prediction of the server, and a
    short session, used by the examples. *)
Definition blankPage : UIManager.UI :=
  UIManager.mkUI (UIManager.Plain "IDLE") "" false [] 0 [] None [].
Definition helloWorld : JsString :=
  [104; 101; 108; 108; 111; 32; 119; 111; 114; 108; 100]%N.
Definition samplePrediction : TranslationManager.Prediction :=
  TranslationManager.mkPrediction "hello" (Finite 7 (-3)) helloWorld
                                  (Some ["hello"; "world"]).
Definition sampleSession : list DeepISLApp.Event :=
  [ DeepISLApp.FromSocket DeepISLApp.Connect;
    DeepISLApp.ClickStart; DeepISLApp.CameraAnswered Granted;
    DeepISLApp.VideoLoaded;
    DeepISLApp.FromSocket (DeepISLApp.PredictionResult samplePrediction);
    DeepISLApp.ClickStop ].

(** The handlers of the socket manager are those [initialize()]
    registered, on a manager without handlers. *)
Definition wired {M} (app : DeepISLApp.App M) : Prop :=
  WebSocketManager.eventHandlers (DeepISLApp.webSocketManager app)
  = WebSocketManager.eventHandlers (DeepISLApp.registered WebSocketManager.new).

(** The events that end in [stopCapture()]: through [stopSignDetection()]
    (the stop button, a report of the manager's error callback, a page
    hidden while capturing) or through [cleanup()]. *)
Definition stopping (ev : DeepISLApp.Event) : bool :=
  match ev with
  | DeepISLApp.ClickStop | DeepISLApp.VideoError
  | DeepISLApp.CameraAnswered Denied | DeepISLApp.BeforeUnload
  | DeepISLApp.VisibilityChange true => true
  | _ => false
  end.

(** A session in which the socket connects, capture starts, and sixty
    detection results arrive: thirty 16 ms apart, the last at [T0], then
    thirty 33 ms apart. *)
Definition streamingSession : list DeepISLApp.Event :=
  [ DeepISLApp.FromSocket DeepISLApp.Connect;
    DeepISLApp.ClickStart; DeepISLApp.CameraAnswered Granted;
    DeepISLApp.VideoLoaded ]
  ++ ((fun k => DeepISLApp.Detected fullDetection (T0 - 480 + 16 * Z.of_nat k)%Z)
        <$> seq 1 30)
  ++ ((fun k => DeepISLApp.Detected fullDetection (T0 + 33 * Z.of_nat k)%Z)
        <$> seq 1 30).

(** ** Basic facts *)

Lemma bind_Ok_inv {A B} (m : Outcome A) (k : A -> Outcome B) (b : B) :
  m ≫= k = Ok b -> exists a, m = Ok a /\ k a = Ok b.
Proof. destruct m as [a|e]; simpl; [eauto | discriminate]. Qed.

Lemma zeros_length n : length (zeros n) = n.
Proof. apply length_replicate. Qed.

Lemma flatMapCoords_length landmarks coords :
  flatMapCoords landmarks = Ok coords -> length coords = 3 * length landmarks.
Proof.
  revert coords. induction landmarks as [|slot rest IH]; intros coords H.
  - injection H as <-. reflexivity.
  - destruct slot as [lm|]; [|discriminate]. simpl in H.
    apply bind_Ok_inv in H as (tl & Htl & H). injection H as <-.
    simpl. rewrite (IH _ Htl). lia.
Qed.

Lemma flatMapCoords_filled landmarks :
  filled landmarks -> exists coords, flatMapCoords landmarks = Ok coords.
Proof.
  induction 1 as [|slot rest [lm ->] _ [tl IH]]; simpl; [eauto|].
  rewrite IH. simpl. eauto.
Qed.

Lemma flatMapCoords_throws landmarks :
  ~ filled landmarks -> flatMapCoords landmarks = Throw TypeError.
Proof.
  induction landmarks as [|[lm|] rest IH]; intros H; simpl.
  - destruct H. constructor.
  - rewrite IH; [reflexivity|]. intros Hrest. apply H. constructor; eauto.
  - reflexivity.
Qed.

Lemma poseTriple_length results idx : length (poseTriple results idx) = 3.
Proof. unfold poseTriple. destruct (poseAt results idx); reflexivity. Qed.

Lemma pose_region_length results idxs :
  length (idxs ≫= poseTriple results) = 3 * length idxs.
Proof.
  induction idxs as [|idx rest IH]; [reflexivity|].
  rewrite bind_cons, length_app, poseTriple_length, IH. simpl. lia.
Qed.

(** *** The first manager's extraction *)

Lemma Mgr1_pose_loop results idxs acc :
  foldl (fun poseCoords idx =>
           match poseAt results idx with
           | Some lm => poseCoords ++ [lm_x lm; lm_y lm; lm_z lm]
           | None => poseCoords ++ [zero; zero; zero]
           end) acc idxs
  = acc ++ (idxs ≫= poseTriple results).
Proof.
  revert acc. induction idxs as [|idx rest IH]; intros acc; simpl.
  - now rewrite app_nil_r.
  - rewrite IH. unfold poseTriple at 2.
    destruct (poseAt results idx); now rewrite <- app_assoc.
Qed.

Lemma Mgr1_extractKeypoints_eq results :
  Mgr1.extractKeypoints results =
  (leftHandCoords ← Mgr1.extract (leftHandLandmarks results) 21;
   rightHandCoords ← Mgr1.extract (rightHandLandmarks results) 21;
   Ok (leftHandCoords ++ rightHandCoords
         ++ (CONFIG.POSE_INDICES ≫= poseTriple results))).
Proof. unfold Mgr1.extractKeypoints. now rewrite Mgr1_pose_loop. Qed.

(** *** The second manager's extraction *)

Lemma Mgr2_pose_loop results idxs acc this :
  foldl (Mgr2.poseStep results) (acc, this) idxs =
  (acc ++ (idxs ≫= poseTriple results),
   let d := Mgr2.landmarksDetected this in
   Mgr2.set_landmarksDetected
     (Mgr2.mkDetected (Mgr2.leftHand d) (Mgr2.rightHand d)
                      (Mgr2.pose d + poseCount results idxs)) this).
Proof.
  revert acc this. induction idxs as [|idx rest IH]; intros acc this.
  - simpl. rewrite app_nil_r. unfold poseCount. simpl. rewrite Nat.add_0_r.
    now destruct this as [? ? ? ? ? ? ? []].
  - cbn [foldl]. rewrite bind_cons.
    assert (Hstep : Mgr2.poseStep results (acc, this) idx =
      (acc ++ poseTriple results idx,
       if poseAt results idx is Some _ then
         let d := Mgr2.landmarksDetected this in
         Mgr2.set_landmarksDetected
           (Mgr2.mkDetected (Mgr2.leftHand d) (Mgr2.rightHand d) (Mgr2.pose d + 1))
           this
       else this)).
    { unfold Mgr2.poseStep, poseTriple. now destruct (poseAt results idx). }
    rewrite Hstep, IH, <- app_assoc. f_equal.
    unfold poseCount. rewrite filter_cons.
    destruct (poseAt results idx) as [lm|]; simpl.
    + unfold Mgr2.set_landmarksDetected; simpl. do 2 f_equal. lia.
    + reflexivity.
Qed.

Lemma Mgr2_extractLandmarks_eq hand handName this :
  Mgr2.extractLandmarks hand 21 handName this =
  (Mgr2.set_landmarksDetected
     (if handCount hand =? 0 then Mgr2.landmarksDetected this
      else Mgr2.setHand handName (handCount hand) (Mgr2.landmarksDetected this))
     this,
   handCoords hand).
Proof.
  unfold Mgr2.extractLandmarks, handCoords, handCount.
  destruct hand as [landmarks|]; simpl.
  - destruct (length landmarks =? 0); [|reflexivity].
    now destruct this.
  - now destruct this.
Qed.

Lemma Mgr2_extractKeypoints_eq results this :
  Mgr2.extractKeypoints results this =
  (Mgr2.set_landmarksDetected (detectedAfter results) this, keypointsOf results).
Proof.
  unfold Mgr2.extractKeypoints, keypointsOf, detectedAfter.
  rewrite Mgr2_pose_loop. cbn zeta.
  rewrite Mgr2_extractLandmarks_eq.
  destruct (handCoords (leftHandLandmarks results)) as [l|e] eqn:El.
  - cbv beta iota. rewrite Mgr2_extractLandmarks_eq.
    destruct (handCoords (rightHandLandmarks results)) as [r|e] eqn:Er;
      simpl; f_equal; try reflexivity;
      unfold Mgr2.set_landmarksDetected; simpl; f_equal;
      destruct (handCount (leftHandLandmarks results)),
               (handCount (rightHandLandmarks results)); reflexivity.
  - simpl. f_equal. unfold Mgr2.set_landmarksDetected; simpl. f_equal.
    destruct (handCount (leftHandLandmarks results)); reflexivity.
Qed.

Lemma handCoords_regular hand :
  regularHand hand ->
  exists coords, handCoords hand = Ok coords /\ length coords = 63 /\
    (handCount hand = 0 -> coords = zeros 63) /\
    (forall landmarks, hand = Some landmarks -> landmarks <> [] ->
                       flatMapCoords landmarks = Ok coords).
Proof.
  destruct hand as [landmarks|]; simpl.
  - intros [-> | [Hlen Hfull]].
    + exists (zeros 63). repeat split; congruence.
    + destruct (flatMapCoords_filled _ Hfull) as [coords Hc].
      exists coords. rewrite Hlen. simpl. split; [assumption|].
      apply flatMapCoords_length in Hc as Hn. rewrite Hlen in Hn.
      repeat split; [assumption| discriminate | congruence].
  - intros _. exists (zeros 63). repeat split; congruence.
Qed.

Lemma handCoords_length hand coords :
  handCoords hand = Ok coords ->
  length coords = 3 * (if handCount hand =? 0 then 21 else handCount hand).
Proof.
  destruct hand as [landmarks|]; simpl; [|intros [= <-]; apply zeros_length].
  destruct (length landmarks =? 0); [intros [= <-]; apply zeros_length|].
  apply flatMapCoords_length.
Qed.

Lemma keypointsOf_length results keypoints :
  keypointsOf results = Ok keypoints -> length keypoints = keypointCount results.
Proof.
  unfold keypointsOf, keypointCount. intros H.
  apply bind_Ok_inv in H as (l & Hl & H).
  apply bind_Ok_inv in H as (r & Hr & H). injection H as <-.
  rewrite !length_app, !poseTriple_length.
  rewrite (handCoords_length _ _ Hl), (handCoords_length _ _ Hr). simpl length. lia.
Qed.

Lemma Mgr1_extract_length hand coords :
  Mgr1.extract hand 21 = Ok coords ->
  length coords = 3 * (if hand is Some landmarks then length landmarks else 21).
Proof.
  destruct hand as [landmarks|]; simpl; [|intros [= <-]; apply zeros_length].
  apply flatMapCoords_length.
Qed.

Lemma Mgr1_keypoints_length results keypoints :
  Mgr1.extractKeypoints results = Ok keypoints ->
  length keypoints =
    3 * (if leftHandLandmarks results is Some landmarks then length landmarks else 21)
    + 3 * (if rightHandLandmarks results is Some landmarks then length landmarks
           else 21)
    + 18.
Proof.
  rewrite Mgr1_extractKeypoints_eq. intros H.
  apply bind_Ok_inv in H as (l & Hl & H).
  apply bind_Ok_inv in H as (r & Hr & H). injection H as <-.
  rewrite !length_app, !poseTriple_length.
  rewrite (Mgr1_extract_length _ _ Hl), (Mgr1_extract_length _ _ Hr).
  simpl length. lia.
Qed.

(** The whole method in closed form: the counters and the vector of the
    result, and the debug block's throw when it is due and the vector is
    longer than the engine accepts. *)
Lemma Mgr2_extractKeypointsLogged_eq maxArguments results this :
  Mgr2.extractKeypointsLogged maxArguments results this =
  (Mgr2.set_landmarksDetected (detectedAfter results) this,
   keypoints ← keypointsOf results;
   if Mgr2.debugDue this && (maxArguments <? length keypoints)
   then Throw RangeError else Ok keypoints).
Proof.
  unfold Mgr2.extractKeypointsLogged. rewrite Mgr2_extractKeypoints_eq.
  destruct (keypointsOf results) as [keypoints|e]; [|reflexivity].
  cbn [mbind Outcome_bind]. unfold Mgr2.debugBlock.
  change (Mgr2.debugDue (Mgr2.set_landmarksDetected (detectedAfter results) this))
    with (Mgr2.debugDue this).
  now destruct (_ && _).
Qed.

(** Where the debug block does not matter: when it is not due, or the
    vector is short enough, the whole method is [Mgr2.extractKeypoints]. *)
Lemma Mgr2_extractKeypointsLogged_agrees maxArguments results this :
  Mgr2.debugDue this = false \/ keypointCount results <= maxArguments ->
  Mgr2.extractKeypointsLogged maxArguments results this
  = Mgr2.extractKeypoints results this.
Proof.
  intros Hsmall.
  rewrite Mgr2_extractKeypointsLogged_eq, Mgr2_extractKeypoints_eq. f_equal.
  destruct (keypointsOf results) as [keypoints|e] eqn:E; [|reflexivity].
  cbn [mbind Outcome_bind]. apply keypointsOf_length in E.
  destruct Hsmall as [-> | Hle]; [reflexivity|].
  replace (maxArguments <? length keypoints) with false;
    [now rewrite andb_false_r|].
  symmetry. apply Nat.ltb_ge. lia.
Qed.

(** ** Keypoint extraction (claims C1 and C9) *)

(** The first manager's [extractKeypoints] takes no state at all; on
    results whose present hand sets are not empty it returns what the
    second manager returns. *)
Lemma Mgr1_extractKeypoints_agrees results this :
  leftHandLandmarks results <> Some [] ->
  rightHandLandmarks results <> Some [] ->
  Mgr1.extractKeypoints results = snd (Mgr2.extractKeypoints results this).
Proof.
  intros Hl Hr. rewrite Mgr1_extractKeypoints_eq, Mgr2_extractKeypoints_eq.
  unfold keypointsOf. simpl.
  assert (H : forall hand, hand <> Some [] -> Mgr1.extract hand 21 = handCoords hand).
  { intros [[|slot rest]|] Hne; simpl; congruence. }
  now rewrite !H.
Qed.

Section Extraction.

Variable results : Results.

(** The length of the vector in general: a present, non-empty hand set
    contributes three numbers per landmark it holds. *)
Lemma Mgr2_extractKeypoints_length this keypoints :
  snd (Mgr2.extractKeypoints results this) = Ok keypoints ->
  length keypoints =
    3 * (if handCount (leftHandLandmarks results) =? 0 then 21 else handCount (leftHandLandmarks results))
    + 3 * (if handCount (rightHandLandmarks results) =? 0 then 21 else handCount (rightHandLandmarks results)) + 18.
Proof.
  rewrite Mgr2_extractKeypoints_eq. unfold keypointsOf. cbn [snd]. intros H.
  apply bind_Ok_inv in H as (l & Hl & H).
  apply bind_Ok_inv in H as (r & Hr & H). injection H as <-.
  rewrite !length_app, !poseTriple_length.
  assert (Hhand : forall hand coords, handCoords hand = Ok coords ->
            length coords = 3 * (if handCount hand =? 0 then 21 else handCount hand)).
  { intros [landmarks|] coords; simpl; [|intros [= <-]; apply zeros_length].
    destruct (length landmarks =? 0); [intros [= <-]; apply zeros_length|].
    apply flatMapCoords_length. }
  rewrite (Hhand _ _ Hl), (Hhand _ _ Hr). simpl length. lia.
Qed.

(** The first manager has no test for an empty hand set: it contributes
    no number at all. *)
Lemma Mgr1_extractKeypoints_length keypoints :
  Mgr1.extractKeypoints results = Ok keypoints ->
  length keypoints =
    3 * (if (leftHandLandmarks results) is Some landmarks then length landmarks else 21)
    + 3 * (if (rightHandLandmarks results) is Some landmarks then length landmarks else 21) + 18.
Proof.
  rewrite Mgr1_extractKeypoints_eq. intros H.
  apply bind_Ok_inv in H as (l & Hl & H).
  apply bind_Ok_inv in H as (r & Hr & H). injection H as <-.
  rewrite !length_app, !poseTriple_length.
  assert (Hhand : forall hand coords, Mgr1.extract hand 21 = Ok coords ->
            length coords = 3 * (if hand is Some landmarks then length landmarks else 21)).
  { intros [landmarks|] coords; simpl; [|intros [= <-]; apply zeros_length].
    apply flatMapCoords_length. }
  rewrite (Hhand _ _ Hl), (Hhand _ _ Hr). simpl length. lia.
Qed.

(** C1, as amended.  When each hand set is absent, empty, or holds exactly
    21 filled landmarks, [extractKeypoints] returns (it does not throw) a
    vector of exactly 144 numbers, whatever the pose set holds: an absent
    or empty hand gives 63 zeros, a present one its coordinates in order,
    and each of the six pose indices gives its landmark or three zeros.
    The first manager returns the same vector, unless a hand set is an
    empty array; and so does the whole method with its debug block, on an
    engine that lets a call take 144 arguments.  A hand set is neither
    padded nor truncated: whenever the extraction returns, its vector
    holds three numbers for each landmark of a present hand set (63 for an
    absent one, and in the second manager for an empty one), and eighteen
    for the pose. *)
Theorem C1_extractKeypoints_regular (maxArguments : nat) (this : Mgr2.Manager) :
  (regularHand (leftHandLandmarks results) ->
   regularHand (rightHandLandmarks results) ->
   exists keypoints,
     snd (Mgr2.extractKeypoints results this) = Ok keypoints /\
     (leftHandLandmarks results <> Some [] ->
      rightHandLandmarks results <> Some [] ->
      Mgr1.extractKeypoints results = Ok keypoints) /\
     (144 <= maxArguments ->
      snd (Mgr2.extractKeypointsLogged maxArguments results this) = Ok keypoints) /\
     length keypoints = 144 /\
     (handCount (leftHandLandmarks results) = 0 -> take 63 keypoints = zeros 63) /\
     (handCount (rightHandLandmarks results) = 0 ->
      take 63 (drop 63 keypoints) = zeros 63) /\
     (forall landmarks, leftHandLandmarks results = Some landmarks -> landmarks <> [] ->
        flatMapCoords landmarks = Ok (take 63 keypoints)) /\
     (forall landmarks, rightHandLandmarks results = Some landmarks -> landmarks <> [] ->
        flatMapCoords landmarks = Ok (take 63 (drop 63 keypoints))) /\
     drop 126 keypoints = CONFIG.POSE_INDICES ≫= poseTriple results) /\
  (forall keypoints,
     snd (Mgr2.extractKeypoints results this) = Ok keypoints \/
     snd (Mgr2.extractKeypointsLogged maxArguments results this) = Ok keypoints ->
     length keypoints =
       3 * (if handCount (leftHandLandmarks results) =? 0 then 21
            else handCount (leftHandLandmarks results))
       + 3 * (if handCount (rightHandLandmarks results) =? 0 then 21
              else handCount (rightHandLandmarks results))
       + 18) /\
  (forall keypoints,
     Mgr1.extractKeypoints results = Ok keypoints ->
     length keypoints =
       3 * (if leftHandLandmarks results is Some landmarks then length landmarks
            else 21)
       + 3 * (if rightHandLandmarks results is Some landmarks then length landmarks
              else 21)
       + 18).
Proof.
  split; [|split].
  - intros Hl Hr.
    destruct (handCoords_regular _ Hl) as (l & El & Ll & Zl & Fl).
    destruct (handCoords_regular _ Hr) as (r & Er & Lr & Zr & Fr).
    exists (l ++ r ++ (CONFIG.POSE_INDICES ≫= poseTriple results)).
    assert (T1 : take 63 (l ++ r ++ (CONFIG.POSE_INDICES ≫= poseTriple results)) = l).
    { rewrite take_app_le by lia. apply take_ge. lia. }
    assert (D1 : drop 63 (l ++ r ++ (CONFIG.POSE_INDICES ≫= poseTriple results))
                 = r ++ (CONFIG.POSE_INDICES ≫= poseTriple results)).
    { rewrite drop_app_ge by lia. rewrite Ll. reflexivity. }
    assert (T2 : take 63 (r ++ (CONFIG.POSE_INDICES ≫= poseTriple results)) = r).
    { rewrite take_app_le by lia. apply take_ge. lia. }
    assert (EK : keypointsOf results
                 = Ok (l ++ r ++ (CONFIG.POSE_INDICES ≫= poseTriple results))).
    { unfold keypointsOf. rewrite El, Er. reflexivity. }
    assert (E2 : snd (Mgr2.extractKeypoints results this)
                 = Ok (l ++ r ++ (CONFIG.POSE_INDICES ≫= poseTriple results))).
    { rewrite Mgr2_extractKeypoints_eq. exact EK. }
    assert (L : length (l ++ r ++ (CONFIG.POSE_INDICES ≫= poseTriple results)) = 144).
    { rewrite !length_app, pose_region_length, Ll, Lr. reflexivity. }
    rewrite D1, T1, T2.
    split; [exact E2|]. split.
    { intros Nl Nr. rewrite <- E2. now apply Mgr1_extractKeypoints_agrees. }
    split.
    { intros Hmax. rewrite Mgr2_extractKeypointsLogged_agrees; [exact E2|].
      right. rewrite <- (keypointsOf_length _ _ EK), L. exact Hmax. }
    split; [exact L|].
    repeat split; try assumption.
    rewrite drop_app_ge by lia. rewrite Ll.
    rewrite drop_app_ge by lia. rewrite Lr. reflexivity.
  - intros keypoints H. apply (keypointsOf_length results).
    destruct H as [H|H].
    + now rewrite Mgr2_extractKeypoints_eq in H.
    + rewrite Mgr2_extractKeypointsLogged_eq in H. cbn [snd] in H.
      apply bind_Ok_inv in H as (k & Hk & H).
      destruct (_ && _); [discriminate|]. now injection H as <-.
  - apply Mgr1_keypoints_length.
Qed.

(** C9, as amended.  What [extractKeypoints] returns is a function of the
    detection result alone: whenever it returns, the vector is that of
    the result, so that two calls on the same result that both return
    give the same vector, whatever the manager states and the engine.
    The call is not free of effects, nor is its outcome a function of the
    result alone.  It overwrites the debug counters [landmarksDetected]
    with the counts of this result, and changes no other field.  And its
    debug block, which runs when [framesProcessed] is 1 or a multiple of
    60, throws a RangeError when the vector is longer than the engine lets
    a call take arguments; otherwise the outcome (the vector, or the
    TypeError of a hand set with an empty slot) is that of the result. *)
Theorem C9_extractKeypoints_effect (maxArguments maxArguments' : nat)
    (this this' : Mgr2.Manager) :
  (forall keypoints keypoints',
     snd (Mgr2.extractKeypointsLogged maxArguments results this) = Ok keypoints ->
     snd (Mgr2.extractKeypointsLogged maxArguments' results this') = Ok keypoints' ->
     keypoints = keypoints' /\ keypointsOf results = Ok keypoints) /\
  snd (Mgr2.extractKeypointsLogged maxArguments results this)
  = (keypoints ← keypointsOf results;
     if Mgr2.debugDue this && (maxArguments <? length keypoints)
     then Throw RangeError else Ok keypoints) /\
  fst (Mgr2.extractKeypointsLogged maxArguments results this)
  = Mgr2.set_landmarksDetected (detectedAfter results) this /\
  (let after := fst (Mgr2.extractKeypointsLogged maxArguments results this) in
   Mgr2.capturing after = Mgr2.capturing this /\
   Mgr2.frameCounter after = Mgr2.frameCounter this /\
   Mgr2.keypointSequence after = Mgr2.keypointSequence this /\
   Mgr2.lastPredictionTime after = Mgr2.lastPredictionTime this /\
   Mgr2.onPredictionReady after = Mgr2.onPredictionReady this /\
   Mgr2.framesProcessed after = Mgr2.framesProcessed this /\
   Mgr2.predictionsAttempted after = Mgr2.predictionsAttempted this).
Proof.
  rewrite !Mgr2_extractKeypointsLogged_eq. cbn [fst snd].
  split; [|split; [reflexivity|split; [reflexivity|]]].
  - intros keypoints keypoints' H H'.
    apply bind_Ok_inv in H as (k & Hk & H).
    apply bind_Ok_inv in H' as (k' & Hk' & H').
    destruct (_ && _); [discriminate|]. injection H as <-.
    destruct (_ && _); [discriminate|]. injection H' as <-.
    split; [congruence | exact Hk].
  - cbv zeta. simpl. repeat split.
Qed.

End Extraction.

(** C1: a left hand of 20 landmarks, all filled, yields a vector of 141
    numbers, not 144, in both managers. *)
Lemma C1_short_hand_counterexample :
  (exists keypoints,
     snd (Mgr2.extractKeypoints shortHand Mgr2.new) = Ok keypoints /\
     length keypoints = 141) /\
  (exists keypoints,
     Mgr1.extractKeypoints shortHand = Ok keypoints /\ length keypoints = 141).
Proof. split; eexists; split; reflexivity. Qed.

(** A hand set with an empty slot makes the extraction throw. *)
Lemma extractKeypoints_holed_hand_throws :
  snd (Mgr2.extractKeypoints holedHand Mgr2.new) = Throw TypeError /\
  Mgr1.extractKeypoints holedHand = Throw TypeError.
Proof. split; reflexivity. Qed.

Lemma sampleSet_filled n : filled (sampleSet n).
Proof. apply Forall_replicate. eauto. Qed.

Lemma C1_extractKeypoints_regular_witness :
  regularHand (leftHandLandmarks fullDetection) /\
  regularHand (rightHandLandmarks fullDetection) /\
  exists keypoints,
    snd (Mgr2.extractKeypoints fullDetection Mgr2.new) = Ok keypoints /\
    Mgr1.extractKeypoints fullDetection = Ok keypoints /\
    length keypoints = 144.
Proof.
  assert (H : regularHand (Some (sampleSet 21))).
  { right. split; [reflexivity | apply sampleSet_filled]. }
  split; [exact H|]. split; [exact H|].
  destruct (proj1 (C1_extractKeypoints_regular fullDetection sampleLimit Mgr2.new) H H)
    as (keypoints & E2 & E1 & _ & L & _).
  exists keypoints. split; [exact E2|]. split; [|exact L].
  apply E1; discriminate.
Defined.

(** C9: after a frame with both hands and the pose, the counters read
    21, 21, 6; extracting from a frame with no detection resets them.  And
    on an engine that lets a call take 65535 arguments, the same result,
    with a left hand of 50000 landmarks, makes the call throw when
    [framesProcessed] is 0 and return when it is 2. *)
Lemma C9_counters_counterexample :
  let seen := fst (Mgr2.extractKeypointsLogged sampleLimit fullDetection Mgr2.new) in
  Mgr2.landmarksDetected seen = Mgr2.mkDetected 21 21 6 /\
  Mgr2.landmarksDetected
    (fst (Mgr2.extractKeypointsLogged sampleLimit noDetection seen))
  = Mgr2.mkDetected 0 0 0 /\
  snd (Mgr2.extractKeypointsLogged sampleLimit hugeHand Mgr2.new) = Throw RangeError /\
  returns (snd (Mgr2.extractKeypointsLogged sampleLimit hugeHand
                  (Mgr2.set_framesProcessed 2 Mgr2.new))) = true.
Proof.
  cbv zeta. split; [|split; [|split]]; vm_compute; reflexivity.
Qed.

Lemma C9_extractKeypoints_effect_witness :
  exists keypoints,
    snd (Mgr2.extractKeypointsLogged sampleLimit fullDetection Mgr2.new)
    = Ok keypoints /\
    snd (Mgr2.extractKeypointsLogged sampleLimit fullDetection primed) = Ok keypoints /\
    keypointsOf fullDetection = Ok keypoints.
Proof.
  eexists. split; [vm_compute; reflexivity|]. split; [vm_compute; reflexivity|].
  eapply (C9_extractKeypoints_effect fullDetection sampleLimit sampleLimit
            Mgr2.new primed); vm_compute; reflexivity.
Defined.

(** ** One detection callback, in closed form *)

Lemma Mgr1_onResults_eq results now this :
  Mgr1.onResults results now this =
  match Mgr1.extractKeypoints results with
  | Throw e => (this, Throw e)
  | Ok keypoints =>
      let buffer := Mgr1.keypointSequence this ++ [keypoints] in
      if gate (length buffer) now (Mgr1.lastPredictionTime this) then
        (Mgr1.mkManager (Mgr1.capturing this) (Mgr1.frameCounter this) []
                        now (Mgr1.onPredictionReady this),
         Ok (Fired buffer (Mgr1.onPredictionReady this)))
      else
        (Mgr1.set_keypointSequence buffer this, Ok Quiet)
  end.
Proof.
  unfold Mgr1.onResults. destruct (Mgr1.extractKeypoints results); [|reflexivity].
  cbn zeta. simpl Mgr1.keypointSequence. simpl Mgr1.lastPredictionTime.
  destruct gate; reflexivity.
Qed.

Lemma Mgr2_onResults_eq results now this :
  Mgr2.onResults results now this =
  match keypointsOf results with
  | Throw e =>
      (Mgr2.set_landmarksDetected (detectedAfter results)
         (Mgr2.set_framesProcessed (Mgr2.framesProcessed this + 1) this),
       Throw e)
  | Ok keypoints =>
      let buffer := Mgr2.keypointSequence this ++ [keypoints] in
      if gate (length buffer) now (Mgr2.lastPredictionTime this) then
        (Mgr2.mkManager (Mgr2.capturing this) (Mgr2.frameCounter this)
                        (slice_neg 10 buffer) now (Mgr2.onPredictionReady this)
                        (Mgr2.framesProcessed this + 1)
                        (Mgr2.predictionsAttempted this + 1)
                        (detectedAfter results),
         Ok (Fired buffer (Mgr2.onPredictionReady this)))
      else
        (Mgr2.mkManager (Mgr2.capturing this) (Mgr2.frameCounter this)
                        buffer (Mgr2.lastPredictionTime this)
                        (Mgr2.onPredictionReady this)
                        (Mgr2.framesProcessed this + 1)
                        (Mgr2.predictionsAttempted this)
                        (detectedAfter results),
         Ok Quiet)
  end.
Proof.
  unfold Mgr2.onResults. cbn zeta. rewrite Mgr2_extractKeypoints_eq.
  destruct (keypointsOf results); [|reflexivity].
  simpl Mgr2.keypointSequence. simpl Mgr2.lastPredictionTime.
  destruct gate; reflexivity.
Qed.

Lemma gate_spec len now last :
  gate len now last = true <->
  CONFIG.N_FRAMES <= len /\ (CONFIG.PREDICTION_THROTTLE_MS < now - last)%Z.
Proof.
  unfold gate. rewrite andb_true_iff, Nat.leb_le, Z.ltb_lt. reflexivity.
Qed.

Lemma gate_false len now last :
  gate len now last = false ->
  len < CONFIG.N_FRAMES \/ (now - last <= CONFIG.PREDICTION_THROTTLE_MS)%Z.
Proof.
  unfold gate. rewrite andb_false_iff, Nat.leb_gt, Z.ltb_ge. tauto.
Qed.

Lemma slice_neg_length {A} n (arr : list A) :
  n <= length arr -> length (slice_neg n arr) = n.
Proof. unfold slice_neg. rewrite length_drop. lia. Qed.

Lemma slice_neg_tail {A} n (arr : list A) :
  arr = take (length arr - n) arr ++ slice_neg n arr.
Proof. unfold slice_neg. now rewrite take_drop. Qed.

Lemma slice_neg_elem {A} n (arr : list A) a :
  a ∈ slice_neg n arr -> a ∈ arr.
Proof.
  intros H. rewrite (slice_neg_tail n arr). apply elem_of_app. now right.
Qed.

(** ** Traces: the throttle (claim C2) *)

Lemma fireTimes_app a b : fireTimes (a ++ b) = fireTimes a ++ fireTimes b.
Proof. apply omap_app. Qed.

Lemma firedSequences_app a b :
  firedSequences (a ++ b) = firedSequences a ++ firedSequences b.
Proof. apply omap_app. Qed.

Section Throttle.

Context {State : Type}.
Variable step : Event -> State -> State * list Obs.
Variable last : State -> Z.

(** A step either fires nothing and keeps the recorded timestamp, or fires
    once, at a clock value beyond the throttle, and records it. *)
Hypothesis step_throttle : forall ev this,
  (fireTimes (snd (step ev this)) = [] /\ last (fst (step ev this)) = last this) \/
  (exists now, fireTimes (snd (step ev this)) = [now] /\
               last (fst (step ev this)) = now /\
               (CONFIG.PREDICTION_THROTTLE_MS < now - last this)%Z).

Hypothesis step_full : forall ev this,
  Forall (fun s => CONFIG.N_FRAMES <= length s) (firedSequences (snd (step ev this))).

Lemma runWith_cons ev rest this :
  runWith step (ev :: rest) this =
  (fst (runWith step rest (fst (step ev this))),
   snd (step ev this) ++ snd (runWith step rest (fst (step ev this)))).
Proof.
  simpl. destruct (step ev this) as [this1 o]. simpl.
  now destruct (runWith step rest this1).
Qed.

Lemma fires_after evs : forall this t,
  t ∈ fireTimes (snd (runWith step evs this)) ->
  (last this + CONFIG.PREDICTION_THROTTLE_MS < t)%Z.
Proof.
  induction evs as [|ev rest IH]; intros this t Ht.
  - simpl in Ht. inversion Ht.
  - rewrite runWith_cons in Ht. cbn [snd] in Ht.
    rewrite fireTimes_app in Ht.
    apply elem_of_app in Ht.
    destruct (step_throttle ev this) as [[E L] | (now & E & L & G)];
      rewrite E in Ht.
    + destruct Ht as [Ht|Ht]; [inversion Ht|].
      apply IH in Ht. lia.
    + destruct Ht as [Ht|Ht].
      * apply list_elem_of_singleton in Ht. lia.
      * apply IH in Ht. unfold CONFIG.PREDICTION_THROTTLE_MS in *. lia.
Qed.

Lemma fires_gap evs : forall this i j ti tj,
  i < j ->
  fireTimes (snd (runWith step evs this)) !! i = Some ti ->
  fireTimes (snd (runWith step evs this)) !! j = Some tj ->
  (CONFIG.PREDICTION_THROTTLE_MS < tj - ti)%Z.
Proof.
  induction evs as [|ev rest IH]; intros this i j ti tj Hij Hi Hj.
  - discriminate.
  - rewrite runWith_cons in Hi, Hj. cbn [snd] in Hi, Hj.
    rewrite fireTimes_app in Hi, Hj.
    destruct (step_throttle ev this) as [[E L] | (now & E & L & G)];
      rewrite E in Hi, Hj.
    + eapply (IH _ i j ti tj); eassumption.
    + destruct i as [|i].
      * injection Hi as <-. destruct j as [|j]; [lia|].
        simpl in Hj. apply list_elem_of_lookup_2, fires_after in Hj. lia.
      * destruct j as [|j]; [lia|]. simpl in Hi, Hj.
        eapply (IH _ i j ti tj); [lia | eassumption | eassumption].
Qed.

Lemma fires_full evs : forall this,
  Forall (fun s => CONFIG.N_FRAMES <= length s)
         (firedSequences (snd (runWith step evs this))).
Proof.
  induction evs as [|ev rest IH]; intros this.
  - constructor.
  - rewrite runWith_cons. cbn [snd]. rewrite firedSequences_app.
    apply Forall_app. split; [apply step_full | apply IH].
Qed.

End Throttle.

Lemma Mgr2_step_throttle ev this :
  (fireTimes (snd (Mgr2.step ev this)) = [] /\
   Mgr2.lastPredictionTime (fst (Mgr2.step ev this)) = Mgr2.lastPredictionTime this) \/
  (exists now, fireTimes (snd (Mgr2.step ev this)) = [now] /\
               Mgr2.lastPredictionTime (fst (Mgr2.step ev this)) = now /\
               (CONFIG.PREDICTION_THROTTLE_MS < now - Mgr2.lastPredictionTime this)%Z).
Proof.
  destruct ev as [|cam loaded| | |results now|installed]; simpl.
  - left. destruct (Mgr2.startCapture_asks this); auto.
  - left. destruct cam; simpl; auto.
  - left. unfold Mgr2.stopCapture. destruct (Mgr2.capturing this); auto.
  - left. unfold Mgr2.processVideoFrame.
    destruct (Mgr2.capturing this); simpl; auto.
  - rewrite Mgr2_onResults_eq.
    destruct (keypointsOf results) as [keypoints|e]; [|left; simpl; auto].
    cbn zeta. destruct gate eqn:G; [|left; simpl; auto].
    right. exists now. apply gate_spec in G as [_ G]. simpl. auto.
  - left. auto.
Qed.

Lemma Mgr2_step_full ev this :
  Forall (fun s => CONFIG.N_FRAMES <= length s)
         (firedSequences (snd (Mgr2.step ev this))).
Proof.
  destruct ev as [|cam loaded| | |results now|installed]; simpl.
  - destruct Mgr2.startCapture_asks; constructor.
  - destruct cam; constructor.
  - constructor.
  - destruct Mgr2.processVideoFrame as [? []]; constructor.
  - rewrite Mgr2_onResults_eq.
    destruct (keypointsOf results) as [keypoints|e]; [|constructor].
    cbn zeta. destruct gate eqn:G; [|constructor].
    apply gate_spec in G as [G _]. repeat constructor. exact G.
  - constructor.
Qed.

Lemma Mgr1_step_throttle ev this :
  (fireTimes (snd (Mgr1.step ev this)) = [] /\
   Mgr1.lastPredictionTime (fst (Mgr1.step ev this)) = Mgr1.lastPredictionTime this) \/
  (exists now, fireTimes (snd (Mgr1.step ev this)) = [now] /\
               Mgr1.lastPredictionTime (fst (Mgr1.step ev this)) = now /\
               (CONFIG.PREDICTION_THROTTLE_MS < now - Mgr1.lastPredictionTime this)%Z).
Proof.
  destruct ev as [|cam loaded| | |results now|installed]; simpl.
  - left. destruct (Mgr1.startCapture_asks this); auto.
  - left. destruct cam; simpl; auto.
  - left. auto.
  - left. unfold Mgr1.processVideoFrame.
    destruct (Mgr1.capturing this); simpl; auto.
    destruct (_ =? 0); auto.
  - rewrite Mgr1_onResults_eq.
    destruct (Mgr1.extractKeypoints results) as [keypoints|e]; [|left; simpl; auto].
    cbn zeta. destruct gate eqn:G; [|left; simpl; auto].
    right. exists now. apply gate_spec in G as [_ G]. simpl. auto.
  - left. auto.
Qed.

Lemma Mgr1_step_full ev this :
  Forall (fun s => CONFIG.N_FRAMES <= length s)
         (firedSequences (snd (Mgr1.step ev this))).
Proof.
  destruct ev as [|cam loaded| | |results now|installed]; simpl.
  - destruct Mgr1.startCapture_asks; constructor.
  - destruct cam; constructor.
  - constructor.
  - destruct Mgr1.processVideoFrame as [? []]; constructor.
  - rewrite Mgr1_onResults_eq.
    destruct (Mgr1.extractKeypoints results) as [keypoints|e]; [|constructor].
    cbn zeta. destruct gate eqn:G; [|constructor].
    apply gate_spec in G as [G _]. repeat constructor. exact G.
  - constructor.
Qed.

Lemma Mgr2_throttle evs this :
  Forall (fun s => CONFIG.N_FRAMES <= length s)
         (firedSequences (snd (Mgr2.run evs this))) /\
  (forall i j ti tj,
     i < j ->
     fireTimes (snd (Mgr2.run evs this)) !! i = Some ti ->
     fireTimes (snd (Mgr2.run evs this)) !! j = Some tj ->
     (CONFIG.PREDICTION_THROTTLE_MS < tj - ti)%Z).
Proof.
  unfold Mgr2.run. split.
  - apply fires_full, Mgr2_step_full.
  - apply (fires_gap Mgr2.step Mgr2.lastPredictionTime Mgr2_step_throttle).
Qed.

Lemma Mgr1_throttle evs this :
  Forall (fun s => CONFIG.N_FRAMES <= length s)
         (firedSequences (snd (Mgr1.run evs this))) /\
  (forall i j ti tj,
     i < j ->
     fireTimes (snd (Mgr1.run evs this)) !! i = Some ti ->
     fireTimes (snd (Mgr1.run evs this)) !! j = Some tj ->
     (CONFIG.PREDICTION_THROTTLE_MS < tj - ti)%Z).
Proof.
  unfold Mgr1.run. split.
  - apply fires_full, Mgr1_step_full.
  - apply (fires_gap Mgr1.step Mgr1.lastPredictionTime Mgr1_step_throttle).
Qed.

Lemma Mgr2_fires_iff results now this keypoints :
  snd (Mgr2.extractKeypoints results this) = Ok keypoints ->
  (exists s d, snd (Mgr2.onResults results now this) = Ok (Fired s d)) <->
  CONFIG.N_FRAMES <= length (Mgr2.keypointSequence this ++ [keypoints]) /\
  (CONFIG.PREDICTION_THROTTLE_MS < now - Mgr2.lastPredictionTime this)%Z.
Proof.
  intros E. rewrite Mgr2_extractKeypoints_eq in E. cbn [snd] in E.
  rewrite Mgr2_onResults_eq, E. cbn zeta.
  rewrite <- gate_spec. destruct gate; cbn [snd]; split.
  - reflexivity.
  - eauto.
  - intros (s & d & H). discriminate.
  - discriminate.
Qed.

Lemma Mgr1_fires_iff results now this keypoints :
  Mgr1.extractKeypoints results = Ok keypoints ->
  (exists s d, snd (Mgr1.onResults results now this) = Ok (Fired s d)) <->
  CONFIG.N_FRAMES <= length (Mgr1.keypointSequence this ++ [keypoints]) /\
  (CONFIG.PREDICTION_THROTTLE_MS < now - Mgr1.lastPredictionTime this)%Z.
Proof.
  intros E. rewrite Mgr1_onResults_eq, E. cbn zeta.
  rewrite <- gate_spec. destruct gate; cbn [snd]; split.
  - reflexivity.
  - eauto.
  - intros (s & d & H). discriminate.
  - discriminate.
Qed.



(** ** The flush (claims C3, C4, C6) *)

Lemma Mgr2_flush_retains results now this this' sequenceToPredict delivered :
  Mgr2.onResults results now this = (this', Ok (Fired sequenceToPredict delivered)) ->
  (exists keypoints,
     snd (Mgr2.extractKeypoints results this) = Ok keypoints /\
     sequenceToPredict = Mgr2.keypointSequence this ++ [keypoints]) /\
  10 < length sequenceToPredict /\
  length (Mgr2.keypointSequence this') = 10 /\
  Mgr2.keypointSequence this' = drop (length sequenceToPredict - 10) sequenceToPredict /\
  sequenceToPredict =
    take (length sequenceToPredict - 10) sequenceToPredict ++ Mgr2.keypointSequence this'.
Proof.
  rewrite Mgr2_onResults_eq, Mgr2_extractKeypoints_eq. cbn [snd].
  destruct (keypointsOf results) as [keypoints|e]; [|discriminate].
  cbn zeta. destruct gate eqn:G; [|discriminate].
  intros [= <- <- <-]. apply gate_spec in G as [G _].
  unfold CONFIG.N_FRAMES in G. cbn [Mgr2.keypointSequence].
  split; [eauto|]. split; [lia|]. split; [apply slice_neg_length; lia|].
  split; [reflexivity | apply slice_neg_tail].
Qed.

Lemma Mgr1_flush_clears results now this this' sequenceToPredict delivered :
  Mgr1.onResults results now this = (this', Ok (Fired sequenceToPredict delivered)) ->
  (exists keypoints,
     Mgr1.extractKeypoints results = Ok keypoints /\
     sequenceToPredict = Mgr1.keypointSequence this ++ [keypoints]) /\
  10 < length sequenceToPredict /\
  Mgr1.keypointSequence this' = [].
Proof.
  rewrite Mgr1_onResults_eq.
  destruct (Mgr1.extractKeypoints results) as [keypoints|e]; [|discriminate].
  cbn zeta. destruct gate eqn:G; [|discriminate].
  intros [= <- <- <-]. apply gate_spec in G as [G _].
  unfold CONFIG.N_FRAMES in G. split; [eauto|]. split; [lia | reflexivity].
Qed.

(** C4, as amended.  In the second manager, whenever the gate fires,
    [sequenceToPredict] is the whole buffer before the flush (the old
    buffer and the new frame); it holds more than 10 frames, and the buffer
    after the flush holds exactly 10: the last 10 of the buffer before, in
    order.  In the first manager the buffer after the flush is empty. *)
Theorem C4_flush_tail :
  (forall results now this this' sequenceToPredict delivered,
     Mgr2.onResults results now this
     = (this', Ok (Fired sequenceToPredict delivered)) ->
     (exists keypoints,
        snd (Mgr2.extractKeypoints results this) = Ok keypoints /\
        sequenceToPredict = Mgr2.keypointSequence this ++ [keypoints]) /\
     10 < length sequenceToPredict /\
     length (Mgr2.keypointSequence this') = 10 /\
     Mgr2.keypointSequence this'
     = drop (length sequenceToPredict - 10) sequenceToPredict /\
     sequenceToPredict
     = take (length sequenceToPredict - 10) sequenceToPredict
         ++ Mgr2.keypointSequence this') /\
  (forall results now this this' sequenceToPredict delivered,
     Mgr1.onResults results now this
     = (this', Ok (Fired sequenceToPredict delivered)) ->
     (exists keypoints,
        Mgr1.extractKeypoints results = Ok keypoints /\
        sequenceToPredict = Mgr1.keypointSequence this ++ [keypoints]) /\
     10 < length sequenceToPredict /\
     Mgr1.keypointSequence this' = []).
Proof. split; [exact Mgr2_flush_retains | exact Mgr1_flush_clears]. Qed.

Lemma C4_flush_tail_witness :
  length (Mgr2.keypointSequence primed) = 29 /\
  length (Mgr2.keypointSequence (fst (Mgr2.onResults fullDetection T0 primed))) = 10 /\
  Mgr1.keypointSequence (fst (Mgr1.onResults fullDetection T0 primed1)) = [].
Proof.
  destruct C4_flush_tail as [H2 H1].
  split; [vm_compute; reflexivity|]. split.
  - eapply (H2 fullDetection T0 primed). vm_compute. reflexivity.
  - eapply (H1 fullDetection T0 primed1). vm_compute. reflexivity.
Defined.

(** C4: the first manager with 29 frames in its buffer.  The thirtieth
    frame fires the gate; the buffer before the flush holds 30 frames,
    the buffer after it none. *)
Lemma C4_first_manager_clears :
  length (Mgr1.keypointSequence primed1) = 29 /\
  (exists s d, snd (Mgr1.onResults fullDetection T0 primed1) = Ok (Fired s d) /\
               length s = 30) /\
  length (Mgr1.keypointSequence (fst (Mgr1.onResults fullDetection T0 primed1))) = 0.
Proof.
  split; [vm_compute; reflexivity|]. split; [|vm_compute; reflexivity].
  do 2 eexists. split; vm_compute; reflexivity.
Qed.




(** C6, as amended.  The buffer is not bounded by [N_FRAMES].  After a
    detection callback at clock value [now]: if the gate fired, the buffer
    holds exactly 10 frames (none in the first manager); if it did not,
    the buffer holds one frame more than before, and it holds 30 or more
    only while the throttle is closed ([now - lastPredictionTime <= 400]);
    if the extraction threw, the buffer is as before. *)
Theorem C6_buffer_length :
  (forall results now this,
     match Mgr2.onResults results now this with
     | (this', Ok (Fired _ _)) => length (Mgr2.keypointSequence this') = 10
     | (this', Ok Quiet) =>
         length (Mgr2.keypointSequence this')
         = length (Mgr2.keypointSequence this) + 1 /\
         (length (Mgr2.keypointSequence this') < CONFIG.N_FRAMES \/
          (now - Mgr2.lastPredictionTime this' <= CONFIG.PREDICTION_THROTTLE_MS)%Z)
     | (this', Throw _) => Mgr2.keypointSequence this' = Mgr2.keypointSequence this
     end) /\
  (forall results now this,
     match Mgr1.onResults results now this with
     | (this', Ok (Fired _ _)) => length (Mgr1.keypointSequence this') = 0
     | (this', Ok Quiet) =>
         length (Mgr1.keypointSequence this')
         = length (Mgr1.keypointSequence this) + 1 /\
         (length (Mgr1.keypointSequence this') < CONFIG.N_FRAMES \/
          (now - Mgr1.lastPredictionTime this' <= CONFIG.PREDICTION_THROTTLE_MS)%Z)
     | (this', Throw _) => Mgr1.keypointSequence this' = Mgr1.keypointSequence this
     end).
Proof.
  split; intros results now this.
  - rewrite Mgr2_onResults_eq.
    destruct (keypointsOf results) as [keypoints|e]; [|reflexivity].
    cbn zeta. destruct gate eqn:G.
    + apply gate_spec in G as [G _]. unfold CONFIG.N_FRAMES in G.
      cbn [Mgr2.keypointSequence]. apply slice_neg_length. lia.
    + cbn [Mgr2.keypointSequence Mgr2.lastPredictionTime].
      split; [now rewrite length_app | now apply gate_false].
  - rewrite Mgr1_onResults_eq.
    destruct (Mgr1.extractKeypoints results) as [keypoints|e]; [|reflexivity].
    cbn zeta. destruct gate eqn:G; [reflexivity|].
    simpl Mgr1.keypointSequence. simpl Mgr1.lastPredictionTime.
    split; [now rewrite length_app | now apply gate_false].
Qed.

(** C6: thirty frames at 16 ms, a dispatch that keeps ten, then 21 frames
    at 16 ms: the buffer of the second manager holds 31 frames.  In the
    first manager, which keeps none, the clock set back before 31 further
    frames does the same. *)
Lemma C6_overfull_buffer :
  length (Mgr2.keypointSequence (fst (Mgr2.run overfullTrace Mgr2.new))) = 31 /\
  fireTimes (snd (Mgr2.run overfullTrace Mgr2.new)) = [T0] /\
  length (Mgr1.keypointSequence (fst (Mgr1.run clockSetBackTrace Mgr1.new))) = 31 /\
  fireTimes (snd (Mgr1.run clockSetBackTrace Mgr1.new)) = [T0].
Proof. split; [|split; [|split]]; vm_compute; reflexivity. Qed.

(** ** The capture life cycle (claims C7 and C8) *)

Lemma Mgr2_onResults_ignores_capturing results now this b :
  Mgr2.onResults results now (Mgr2.set_capturing b this)
  = (Mgr2.set_capturing b (fst (Mgr2.onResults results now this)),
     snd (Mgr2.onResults results now this)).
Proof.
  rewrite !Mgr2_onResults_eq.
  destruct (keypointsOf results) as [keypoints|e]; [|reflexivity].
  cbn zeta. simpl Mgr2.keypointSequence. simpl Mgr2.lastPredictionTime.
  destruct gate; reflexivity.
Qed.

Lemma Mgr1_onResults_ignores_capturing results now this b :
  Mgr1.onResults results now (Mgr1.set_capturing b this)
  = (Mgr1.set_capturing b (fst (Mgr1.onResults results now this)),
     snd (Mgr1.onResults results now this)).
Proof.
  rewrite !Mgr1_onResults_eq.
  destruct (Mgr1.extractKeypoints results) as [keypoints|e]; [|reflexivity].
  cbn zeta. simpl Mgr1.keypointSequence. simpl Mgr1.lastPredictionTime.
  destruct gate; reflexivity.
Qed.

(** C7, as amended.  In both managers [stopCapture] clears the [capturing]
    flag and the frame loop then sends nothing more to the detector.
    [onResults] does not read the flag: a detection callback delivered
    after [stopCapture] is handled exactly as one delivered while
    capturing. *)
Theorem C7_onResults_ignores_capturing :
  (forall results now this b,
     Mgr2.capturing (Mgr2.stopCapture this) = false /\
     Mgr2.processVideoFrame (Mgr2.stopCapture this) = (Mgr2.stopCapture this, false) /\
     Mgr2.onResults results now (Mgr2.set_capturing b this)
     = (Mgr2.set_capturing b (fst (Mgr2.onResults results now this)),
        snd (Mgr2.onResults results now this))) /\
  (forall results now this b,
     Mgr1.capturing (Mgr1.stopCapture this) = false /\
     Mgr1.processVideoFrame (Mgr1.stopCapture this) = (Mgr1.stopCapture this, false) /\
     Mgr1.onResults results now (Mgr1.set_capturing b this)
     = (Mgr1.set_capturing b (fst (Mgr1.onResults results now this)),
        snd (Mgr1.onResults results now this))).
Proof.
  split; intros results now this b.
  - split; [|split].
    + unfold Mgr2.stopCapture. destruct (Mgr2.capturing this) eqn:E; auto.
    + unfold Mgr2.processVideoFrame, Mgr2.stopCapture.
      destruct (Mgr2.capturing this) eqn:E; simpl; [reflexivity|].
      now rewrite E.
    + apply Mgr2_onResults_ignores_capturing.
  - split; [reflexivity|]. split; [reflexivity|].
    apply Mgr1_onResults_ignores_capturing.
Qed.

(** C7: capture is started and stopped; a callback delivered afterwards
    still puts its frame into the buffer, also when capture has been
    started again in between. *)
Lemma C7_stale_callback_appends :
  Mgr2.capturing (fst (Mgr2.run stoppedTrace Mgr2.new)) = false /\
  length (Mgr2.keypointSequence (fst (Mgr2.run stoppedTrace Mgr2.new))) = 0 /\
  length (Mgr2.keypointSequence
            (fst (Mgr2.run (stoppedTrace ++ [DetectorResults fullDetection T0])
                           Mgr2.new))) = 1 /\
  length (Mgr2.keypointSequence
            (fst (Mgr2.run (stoppedTrace ++
                              [StartCapture; CameraAnswer Granted true;
                               DetectorResults fullDetection T0])
                           Mgr2.new))) = 1 /\
  length (Mgr1.keypointSequence
            (fst (Mgr1.run (stoppedTrace ++ [DetectorResults fullDetection T0])
                           Mgr1.new))) = 1.
Proof. repeat split. Qed.

(** Where the frames of a fired sequence come from: the buffer at the
    start of the trace, or a detection result of the trace. *)
Lemma framesOf_cons extractKeypoints ev rest :
  framesOf extractKeypoints (ev :: rest)
  = framesOf extractKeypoints [ev] ++ framesOf extractKeypoints rest.
Proof.
  unfold framesOf. simpl.
  destruct ev; try reflexivity. now destruct (extractKeypoints results).
Qed.

Section Origin.

Context {State : Type}.
Variable step : Event -> State -> State * list Obs.
Variable buffer : State -> list Frame.
Variable extractKeypoints : Results -> Outcome Frame.

Hypothesis step_origin : forall ev this,
  Forall (fun s => forall f, f ∈ s ->
                             f ∈ buffer this ++ framesOf extractKeypoints [ev])
         (firedSequences (snd (step ev this))) /\
  (forall f, f ∈ buffer (fst (step ev this)) ->
             f ∈ buffer this ++ framesOf extractKeypoints [ev]).

Lemma fired_origin evs : forall this,
  Forall (fun s => forall f, f ∈ s ->
                             f ∈ buffer this ++ framesOf extractKeypoints evs)
         (firedSequences (snd (runWith step evs this))).
Proof.
  induction evs as [|ev rest IH]; intros this; [constructor|].
  rewrite runWith_cons. cbn [snd]. rewrite firedSequences_app, framesOf_cons.
  destruct (step_origin ev this) as [Hfired Hbuf].
  apply Forall_app. split.
  - eapply Forall_impl; [exact Hfired|]. intros s Hs f Hf.
    apply Hs in Hf. rewrite app_assoc. apply elem_of_app. now left.
  - eapply Forall_impl; [apply IH|]. intros s Hs f Hf.
    apply Hs in Hf. rewrite app_assoc.
    apply elem_of_app in Hf as [Hf|Hf]; apply elem_of_app; auto.
Qed.

End Origin.

Lemma Mgr2_step_origin ev this :
  Forall (fun s => forall f, f ∈ s ->
                             f ∈ Mgr2.keypointSequence this ++ framesOf keypointsOf [ev])
         (firedSequences (snd (Mgr2.step ev this))) /\
  (forall f, f ∈ Mgr2.keypointSequence (fst (Mgr2.step ev this)) ->
             f ∈ Mgr2.keypointSequence this ++ framesOf keypointsOf [ev]).
Proof.
  destruct ev as [|cam loaded| | |results now|installed]; simpl.
  - split; [destruct Mgr2.startCapture_asks; constructor|].
    intros f. now rewrite app_nil_r.
  - destruct cam; simpl; (split; [constructor|]); intros f; rewrite ?app_nil_r; auto.
    intros H. inversion H.
  - unfold Mgr2.stopCapture. destruct (Mgr2.capturing this); simpl;
      (split; [constructor|]); intros f; rewrite ?app_nil_r; auto.
  - unfold Mgr2.processVideoFrame. destruct (Mgr2.capturing this); simpl;
      (split; [constructor|]); intros f; rewrite ?app_nil_r; auto.
  - unfold framesOf. cbn [omap list_omap]. rewrite Mgr2_onResults_eq.
    destruct (keypointsOf results) as [keypoints|e]; cbn zeta.
    + destruct gate; cbn [fst snd firedSequences omap list_omap
                          Mgr2.keypointSequence].
      * split; [repeat constructor; auto|]. intros f. apply slice_neg_elem.
      * split; [constructor | auto].
    + simpl. split; [constructor|]. intros f. now rewrite app_nil_r.
  - split; [constructor|]. intros f. now rewrite app_nil_r.
Qed.

Lemma Mgr1_step_origin ev this :
  Forall (fun s => forall f, f ∈ s ->
            f ∈ Mgr1.keypointSequence this ++ framesOf Mgr1.extractKeypoints [ev])
         (firedSequences (snd (Mgr1.step ev this))) /\
  (forall f, f ∈ Mgr1.keypointSequence (fst (Mgr1.step ev this)) ->
             f ∈ Mgr1.keypointSequence this ++ framesOf Mgr1.extractKeypoints [ev]).
Proof.
  destruct ev as [|cam loaded| | |results now|installed]; simpl.
  - split; [destruct Mgr1.startCapture_asks; constructor|].
    intros f. now rewrite app_nil_r.
  - destruct cam; simpl; (split; [constructor|]); intros f; rewrite ?app_nil_r; auto.
    intros H. inversion H.
  - split; [constructor|]. intros f. now rewrite app_nil_r.
  - unfold Mgr1.processVideoFrame. destruct (Mgr1.capturing this); simpl;
      [destruct (_ =? 0)|]; simpl;
      (split; [constructor|]); intros f; rewrite ?app_nil_r; auto.
  - unfold framesOf. cbn [omap list_omap]. rewrite Mgr1_onResults_eq.
    destruct (Mgr1.extractKeypoints results) as [keypoints|e]; cbn zeta.
    + destruct gate; cbn [fst snd firedSequences omap list_omap
                          Mgr1.keypointSequence Mgr1.set_keypointSequence].
      * split; [repeat constructor; auto|]. intros f H. inversion H.
      * split; [constructor | auto].
    + simpl. split; [constructor|]. intros f. now rewrite app_nil_r.
  - split; [constructor|]. intros f. now rewrite app_nil_r.
Qed.




(** ** The sequence validator (claims C5 and C10) *)

Lemma nonFinite_spec n : nonFinite n <-> num_isFinite n = false.
Proof.
  unfold nonFinite. destruct n; simpl; split; try tauto; try discriminate.
  intros [H|[H|H]]; discriminate.
Qed.

Lemma some_invalidValue_numbers f :
  some Mgr2.invalidValue (PNum <$> f) = Ok (negb (forallb num_isFinite f)).
Proof.
  induction f as [|n rest IH]; [reflexivity|].
  rewrite fmap_cons. cbn [some]. rewrite IH. now destruct n.
Qed.

Lemma validateFrames_numbers s :
  Mgr2.validateFrames (Mgr2.ofFrame <$> s)
  = Ok (forallb (fun f => (length f =? 144) && forallb num_isFinite f) s).
Proof.
  induction s as [|f rest IH]; [reflexivity|].
  rewrite fmap_cons. cbn [Mgr2.validateFrames forallb].
  change (Mgr2.ofFrame f) with (@Array Prim (PNum <$> f)).
  cbn [isArray lengthDiffers negb orb]. rewrite length_fmap.
  destruct (length f =? 144); [|reflexivity].
  cbn [negb andb]. rewrite some_invalidValue_numbers.
  cbn [mbind Outcome_bind]. rewrite IH.
  now destruct (forallb num_isFinite f).
Qed.

Lemma validateSequence_numbers s :
  Mgr2.validateSequence (Mgr2.ofSequence s)
  = Ok ((length s =? 30)
        && forallb (fun f => (length f =? 144) && forallb num_isFinite f) s).
Proof.
  unfold Mgr2.validateSequence, Mgr2.ofSequence. rewrite length_fmap.
  unfold CONFIG.N_FRAMES. destruct (length s =? 30); [|reflexivity].
  apply validateFrames_numbers.
Qed.

Lemma forallb_finite_false f :
  forallb num_isFinite f = false <-> Exists nonFinite f.
Proof.
  induction f as [|n rest IH]; simpl.
  - split; [discriminate | intros H; inversion H].
  - rewrite andb_false_iff, Exists_cons, IH, nonFinite_spec. reflexivity.
Qed.

Lemma forallb_frames_false s :
  forallb (fun f => (length f =? 144) && forallb num_isFinite f) s = false <->
  Exists (fun f => length f <> 144) s \/ Exists (fun f => Exists nonFinite f) s.
Proof.
  induction s as [|f rest IH]; simpl.
  - split; [discriminate | intros [H|H]; inversion H].
  - rewrite !andb_false_iff, !Exists_cons, IH, forallb_finite_false, Nat.eqb_neq.
    tauto.
Qed.

Lemma malformed_spec s :
  malformed s <->
  (length s =? 30)
  && forallb (fun f => (length f =? 144) && forallb num_isFinite f) s = false.
Proof.
  unfold malformed.
  rewrite andb_false_iff, forallb_frames_false, Nat.eqb_neq. reflexivity.
Qed.

(** C5.  On a candidate that is an array of arrays of numbers,
    [validateSequence] answers [false] when the outer length is not 30, or
    some inner vector has a length other than 144, or some element is NaN
    or infinite; it answers [true] on every other such candidate. *)
Theorem C5_validateSequence_verdict (s : list Frame) :
  (malformed s -> Mgr2.validateSequence (Mgr2.ofSequence s) = Ok false) /\
  (~ malformed s -> Mgr2.validateSequence (Mgr2.ofSequence s) = Ok true).
Proof.
  rewrite validateSequence_numbers, malformed_spec.
  destruct (_ && _); split; congruence.
Qed.

Lemma C5_validateSequence_verdict_witness :
  malformed (replicate 31 (zeros 144)) /\
  Mgr2.validateSequence (Mgr2.ofSequence (replicate 31 (zeros 144))) = Ok false /\
  ~ malformed (replicate 30 (zeros 144)) /\
  Mgr2.validateSequence (Mgr2.ofSequence (replicate 30 (zeros 144))) = Ok true.
Proof.
  assert (Hbad : malformed (replicate 31 (zeros 144))).
  { left. vm_compute. discriminate. }
  assert (Hgood : ~ malformed (replicate 30 (zeros 144))).
  { rewrite malformed_spec. vm_compute. discriminate. }
  split; [exact Hbad|]. split.
  - exact (proj1 (C5_validateSequence_verdict _) Hbad).
  - split; [exact Hgood|].
    exact (proj2 (C5_validateSequence_verdict _) Hgood).
Defined.

(** Each kind of defect, on its own, makes the validator answer [false]. *)
Lemma validateSequence_rejects_NaN :
  Mgr2.validateSequence
    (Mgr2.ofSequence (replicate 29 (zeros 144) ++ [NaN :: zeros 143])) = Ok false /\
  Mgr2.validateSequence
    (Mgr2.ofSequence (replicate 29 (zeros 144) ++ [PosInf :: zeros 143])) = Ok false /\
  Mgr2.validateSequence
    (Mgr2.ofSequence (replicate 29 (zeros 144) ++ [zeros 143])) = Ok false.
Proof. split; [|split]; vm_compute; reflexivity. Qed.

(** C10: a sequence of 30 frames whose first frame is [null].  The frame
    fails the [Array.isArray] test, and the error message then reads
    [frame.length] of [null]: the validator throws. *)
Theorem C10_null_frame_throws :
  Mgr2.validateSequence (Array (replicate 30 (Primitive PNull))) = Throw TypeError.
Proof. reflexivity. Qed.

(** The same with [undefined] frames, and with frames of the right shape
    that hold a BigInt or a Symbol: [isNaN] throws on them. *)
Lemma validateSequence_other_throws :
  Mgr2.validateSequence (Array (replicate 30 (Primitive PUndefined))) = Throw TypeError /\
  Mgr2.validateSequence (Array (replicate 30 (Array (replicate 144 (PBigInt 1)))))
  = Throw TypeError /\
  Mgr2.validateSequence (Array (replicate 30 (Array (replicate 144 PSymbol))))
  = Throw TypeError.
Proof. split; [|split]; vm_compute; reflexivity. Qed.

(** Where the validator does return: on a value that is not an array, on
    an array of the wrong length (its frames are not looked at), and on
    frames that are primitives other than [undefined] and [null]. *)
Lemma validateSequence_returns_false_early (p : Prim) (frames : list FrameValue) :
  Mgr2.validateSequence (Primitive p) = Ok false /\
  (length frames <> 30 -> Mgr2.validateSequence (Array frames) = Ok false).
Proof.
  split; [reflexivity|]. intros H. unfold Mgr2.validateSequence.
  apply Nat.eqb_neq in H. unfold CONFIG.N_FRAMES. now rewrite H.
Qed.

(** Where no element makes [isNaN] throw, the validator returns. *)
Lemma validateSequence_returns (sequence : Candidate) :
  (forall frames, sequence = Array frames ->
     Forall (fun frame =>
               match frame with
               | Primitive p => p <> PUndefined /\ p <> PNull
               | Array elems =>
                   Forall (fun val => returns (ToNumber val) = true) elems
               end) frames) ->
  exists verdict, Mgr2.validateSequence sequence = Ok verdict.
Proof.
  destruct sequence as [p|frames]; [eauto|]. intros H.
  specialize (H frames eq_refl). unfold Mgr2.validateSequence.
  destruct (negb _); [eauto|]. clear -H.
  induction H as [|frame rest Hframe _ IH]; [simpl; eauto|].
  destruct frame as [p|elems].
  - simpl. destruct Hframe. destruct p; simpl; eauto; congruence.
  - cbn [Mgr2.validateFrames isArray lengthDiffers negb orb].
    destruct (negb _); [simpl; eauto|].
    assert (Hsome : exists b, some Mgr2.invalidValue elems = Ok b).
    { clear -Hframe. induction Hframe as [|val more Hval _ [b IHb]]; [simpl; eauto|].
      simpl. unfold Mgr2.invalidValue, isNaN, isFinite.
      destruct (ToNumber val) as [n|e]; [|discriminate]. simpl.
      destruct (num_isNaN n); simpl; [eauto|].
      destruct (negb (num_isFinite n)); eauto. }
    destruct Hsome as [b ->]. simpl. destruct b; eauto.
Qed.

(** On a candidate of the values modelled here (a primitive that is not a
    string, or an array whose frames are such primitives or arrays of
    them), the validator returns whenever no frame is [undefined] or
    [null] and no element of a frame is a BigInt or a Symbol.  Strings and
    other objects, as candidate, frame or element, are outside this
    statement. *)
Lemma validateSequence_total_on_safe (sequence : Candidate) :
  (forall frames, sequence = Array frames ->
     Forall (fun frame =>
               match frame with
               | Primitive p => p <> PUndefined /\ p <> PNull
               | Array elems =>
                   Forall (fun val => (forall i, val <> PBigInt i) /\ val <> PSymbol)
                          elems
               end) frames) ->
  exists verdict, Mgr2.validateSequence sequence = Ok verdict.
Proof.
  intros H. apply validateSequence_returns. intros frames E.
  eapply Forall_impl; [exact (H frames E)|].
  intros [p|elems]; [tauto|]. cbn beta iota. intros Helems.
  eapply Forall_impl; [exact Helems|]. intros val [Hbig Hsym].
  destruct val; try reflexivity; [destruct (Hbig i) | destruct Hsym]; reflexivity.
Qed.

(** ** Further facts about the two managers *)

Lemma handCoords_returns hand :
  returns (handCoords hand) = true <->
  (forall landmarks, hand = Some landmarks -> filled landmarks).
Proof.
  destruct hand as [landmarks|]; simpl.
  - destruct (length landmarks =? 0) eqn:E.
    + apply Nat.eqb_eq, nil_length_inv in E. subst. simpl.
      split; [intros _ l [= <-]; constructor | reflexivity].
    + destruct (decide (filled landmarks)) as [Hf|Hf].
      * destruct (flatMapCoords_filled _ Hf) as [coords ->]. simpl.
        split; [intros _ l [= <-]; exact Hf | reflexivity].
      * rewrite (flatMapCoords_throws _ Hf). simpl.
        split; [discriminate | intros H; destruct Hf; now apply H].
  - split; [discriminate | reflexivity].
Qed.

(** The second manager's [extractKeypoints], debug block included, returns
    exactly when no present hand set has an empty slot and, if the debug
    block is due ([framesProcessed] is 1 or a multiple of 60), the vector
    is not longer than the engine lets a call take arguments.  A hand set
    with an empty slot makes it throw a TypeError, a vector too long for
    the debug block a RangeError; the pose set never makes it throw. *)
Lemma Mgr2_extractKeypoints_returns maxArguments results this :
  (returns (snd (Mgr2.extractKeypointsLogged maxArguments results this)) = true <->
   (forall landmarks, leftHandLandmarks results = Some landmarks -> filled landmarks) /\
   (forall landmarks, rightHandLandmarks results = Some landmarks -> filled landmarks) /\
   (Mgr2.debugDue this = true -> keypointCount results <= maxArguments)) /\
  (returns (keypointsOf results) = false ->
   snd (Mgr2.extractKeypointsLogged maxArguments results this) = Throw TypeError) /\
  (returns (keypointsOf results) = true ->
   Mgr2.debugDue this = true -> maxArguments < keypointCount results ->
   snd (Mgr2.extractKeypointsLogged maxArguments results this) = Throw RangeError) /\
  (returns (keypointsOf results) = true <->
   (forall landmarks, leftHandLandmarks results = Some landmarks -> filled landmarks) /\
   (forall landmarks, rightHandLandmarks results = Some landmarks -> filled landmarks)).
Proof.
  assert (Hhands : returns (keypointsOf results) = true <->
    (forall landmarks, leftHandLandmarks results = Some landmarks -> filled landmarks) /\
    (forall landmarks, rightHandLandmarks results = Some landmarks -> filled landmarks)).
  { unfold keypointsOf. rewrite <- !handCoords_returns.
    destruct (handCoords (leftHandLandmarks results)),
             (handCoords (rightHandLandmarks results)); simpl; intuition congruence. }
  assert (Hthrows : forall e, keypointsOf results = Throw e -> e = TypeError).
  { unfold keypointsOf. intros e.
    destruct (leftHandLandmarks results) as [l|], (rightHandLandmarks results) as [r|];
      simpl;
      repeat match goal with
             | |- context [length ?x =? 0] => destruct (length x =? 0)
             end; simpl;
      repeat match goal with
             | |- context [flatMapCoords ?x] =>
                 let E := fresh in
                 destruct (decide (filled x)) as [E|E];
                 [destruct (flatMapCoords_filled _ E) as [? ->]
                 | rewrite (flatMapCoords_throws _ E)]; simpl
             end; congruence. }
  rewrite Mgr2_extractKeypointsLogged_eq. cbn [snd].
  split; [|split; [|split; [|exact Hhands]]].
  - destruct (keypointsOf results) as [keypoints|e] eqn:E; cbn [mbind Outcome_bind].
    + destruct (proj1 Hhands eq_refl) as [Hl Hr].
      apply keypointsOf_length in E. rewrite <- E.
      destruct (Mgr2.debugDue this); cbn [andb].
      * destruct (maxArguments <? length keypoints) eqn:L.
        -- apply Nat.ltb_lt in L. cbn. split; [discriminate|].
           intros (_ & _ & H). specialize (H eq_refl). lia.
        -- apply Nat.ltb_ge in L. cbn. tauto.
      * cbn. split; [|reflexivity]. intros _.
        split; [exact Hl|]. split; [exact Hr | discriminate].
    + cbn. split; [discriminate|]. intros (Hl & Hr & _).
      apply (proj2 Hhands (conj Hl Hr)).
  - destruct (keypointsOf results) as [keypoints|e] eqn:E; [discriminate|].
    intros _. cbn. now rewrite (Hthrows e eq_refl).
  - destruct (keypointsOf results) as [keypoints|e] eqn:E; [|discriminate].
    intros _ Hdue Hlong. cbn [mbind Outcome_bind].
    apply keypointsOf_length in E. rewrite Hdue, E.
    apply Nat.ltb_lt in Hlong. now rewrite Hlong.
Qed.

Lemma pose_region_triple results (idxs : list nat) : forall i idx,
  idxs !! i = Some idx ->
  take 3 (drop (3 * i) (idxs ≫= poseTriple results)) = poseTriple results idx.
Proof.
  induction idxs as [|idx' rest IH]; intros i idx Hi; [discriminate|].
  rewrite bind_cons. destruct i as [|i].
  - injection Hi as ->. rewrite Nat.mul_0_r, drop_0.
    rewrite take_app_length'; [reflexivity | now rewrite poseTriple_length].
  - replace (3 * S i) with (length (poseTriple results idx') + 3 * i)
      by (rewrite poseTriple_length; lia).
    rewrite drop_app_add. now apply IH.
Qed.

Lemma pose_region_last results (hands keypoints : Frame) (i idx : nat) :
  keypoints = hands ++ (CONFIG.POSE_INDICES ≫= poseTriple results) ->
  CONFIG.POSE_INDICES !! i = Some idx ->
  take 3 (drop (length keypoints - 18 + 3 * i) keypoints) = poseTriple results idx.
Proof.
  intros -> Hi. rewrite length_app, pose_region_length.
  replace (length hands + 3 * length CONFIG.POSE_INDICES - 18 + 3 * i)
    with (length hands + 3 * i) by (cbn; lia).
  rewrite drop_app_add. now apply pose_region_triple.
Qed.

(** The pose region of the vector.  In both managers, whenever
    [extractKeypoints] returns, the last eighteen numbers of the vector are
    the pose: for the [i]-th of the six pose indices, [idx], three numbers
    that are the [x], [y], [z] of the pose landmark at [idx] when the pose
    set is present and holds a landmark there, and three zeros when the
    pose set is absent, ends before [idx], or holds an empty slot at
    [idx]. *)
Theorem extractKeypoints_pose_region (results : Results) (i idx : nat) :
  CONFIG.POSE_INDICES !! i = Some idx ->
  (forall this keypoints,
     snd (Mgr2.extractKeypoints results this) = Ok keypoints ->
     take 3 (drop (length keypoints - 18 + 3 * i) keypoints) =
     match poseLandmarks results with
     | Some landmarks =>
         match landmarks !! idx with
         | Some (Some landmark) => [lm_x landmark; lm_y landmark; lm_z landmark]
         | Some None | None => [zero; zero; zero]
         end
     | None => [zero; zero; zero]
     end) /\
  (forall keypoints,
     Mgr1.extractKeypoints results = Ok keypoints ->
     take 3 (drop (length keypoints - 18 + 3 * i) keypoints) =
     match poseLandmarks results with
     | Some landmarks =>
         match landmarks !! idx with
         | Some (Some landmark) => [lm_x landmark; lm_y landmark; lm_z landmark]
         | Some None | None => [zero; zero; zero]
         end
     | None => [zero; zero; zero]
     end).
Proof.
  intros Hi.
  assert (Htriple : poseTriple results idx =
    match poseLandmarks results with
    | Some landmarks =>
        match landmarks !! idx with
        | Some (Some landmark) => [lm_x landmark; lm_y landmark; lm_z landmark]
        | Some None | None => [zero; zero; zero]
        end
    | None => [zero; zero; zero]
    end).
  { unfold poseTriple, poseAt. destruct (poseLandmarks results) as [landmarks|];
      [|reflexivity].
    now destruct (landmarks !! idx) as [[landmark|]|]. }
  rewrite <- Htriple. split.
  - intros this keypoints H. rewrite Mgr2_extractKeypoints_eq in H. cbn [snd] in H.
    unfold keypointsOf in H.
    apply bind_Ok_inv in H as (l & _ & H).
    apply bind_Ok_inv in H as (r & _ & H). injection H as H.
    apply (pose_region_last results (l ++ r)); [|exact Hi].
    now rewrite <- app_assoc.
  - intros keypoints H. rewrite Mgr1_extractKeypoints_eq in H.
    apply bind_Ok_inv in H as (l & _ & H).
    apply bind_Ok_inv in H as (r & _ & H). injection H as H.
    apply (pose_region_last results (l ++ r)); [|exact Hi].
    now rewrite <- app_assoc.
Qed.

Lemma extractKeypoints_pose_region_witness :
  (exists keypoints,
     snd (Mgr2.extractKeypoints fullDetection Mgr2.new) = Ok keypoints /\
     take 3 (drop (length keypoints - 18 + 3 * 0) keypoints)
     = [lm_x samplePoint; lm_y samplePoint; lm_z samplePoint]) /\
  (exists keypoints,
     Mgr1.extractKeypoints noDetection = Ok keypoints /\
     take 3 (drop (length keypoints - 18 + 3 * 5) keypoints) = [zero; zero; zero]).
Proof.
  split; eexists; (split; [vm_compute; reflexivity|]).
  - apply (proj1 (extractKeypoints_pose_region fullDetection 0 11 eq_refl) Mgr2.new).
    vm_compute. reflexivity.
  - apply (proj2 (extractKeypoints_pose_region noDetection 5 16 eq_refl)).
    vm_compute. reflexivity.
Defined.

Lemma Mgr2_extractKeypoints_length_witness :
  exists keypoints,
    snd (Mgr2.extractKeypoints shortHand Mgr2.new) = Ok keypoints /\
    length keypoints = 3 * 20 + 3 * 21 + 18.
Proof.
  eexists. split; [reflexivity|].
  exact (Mgr2_extractKeypoints_length shortHand Mgr2.new _ eq_refl).
Defined.

Lemma Mgr1_extractKeypoints_length_witness :
  exists keypoints,
    Mgr1.extractKeypoints (mkResults (Some []) None None) = Ok keypoints /\
    length keypoints = 3 * 0 + 3 * 21 + 18.
Proof.
  eexists. split; [reflexivity|].
  exact (Mgr1_extractKeypoints_length (mkResults (Some []) None None) _ eq_refl).
Defined.

Lemma validateSequence_total_on_safe_witness :
  exists verdict,
    Mgr2.validateSequence (Array (replicate 30 (Primitive (PBool true)))) = Ok verdict.
Proof.
  apply validateSequence_total_on_safe.
  intros frames H. injection H as <-.
  repeat (constructor; [split; discriminate|]). constructor.
Defined.

(** ** The frame loop and the debug counters *)

Lemma skip_count (c k : nat) :
  (if (c + 1) mod 4 =? 0 then 1 else 0) + ((c + S k) / 4 - (c + 1) / 4)
  = (c + S k) / 4 - c / 4.
Proof.
  pose proof (Nat.div_mod_eq (c + 1) 4). pose proof (Nat.div_mod_eq c 4).
  pose proof (Nat.div_mod_eq (c + S k) 4).
  pose proof (Nat.mod_upper_bound c 4). pose proof (Nat.mod_upper_bound (c + 1) 4).
  pose proof (Nat.mod_upper_bound (c + S k) 4).
  destruct ((c + 1) mod 4 =? 0) eqn:E;
    [apply Nat.eqb_eq in E | apply Nat.eqb_neq in E]; lia.
Qed.

Lemma Mgr1_run_cons ev rest this :
  Mgr1.run (ev :: rest) this =
  (fst (Mgr1.run rest (fst (Mgr1.step ev this))),
   snd (Mgr1.step ev this) ++ snd (Mgr1.run rest (fst (Mgr1.step ev this)))).
Proof. apply runWith_cons. Qed.

Lemma Mgr2_run_cons ev rest this :
  Mgr2.run (ev :: rest) this =
  (fst (Mgr2.run rest (fst (Mgr2.step ev this))),
   snd (Mgr2.step ev this) ++ snd (Mgr2.run rest (fst (Mgr2.step ev this)))).
Proof. apply runWith_cons. Qed.

(** The frame loop of the first manager.  While capturing, [k] animation
    frames advance the frame counter by [k] and send to the detector
    exactly the frames whose number is a multiple of [FRAME_SKIP] = 4;
    nothing else changes.  While not capturing, they do nothing. *)
Theorem Mgr1_frame_loop (this : Mgr1.Manager) (k : nat) :
  Mgr1.run (replicate k AnimationFrame) this =
  if Mgr1.capturing this then
    (Mgr1.set_frameCounter (Mgr1.frameCounter this + k) this,
     replicate ((Mgr1.frameCounter this + k) / CONFIG.FRAME_SKIP
                - Mgr1.frameCounter this / CONFIG.FRAME_SKIP) Sent)
  else (this, []).
Proof.
  revert this. induction k as [|k IH]; intros this.
  - destruct this as [[] c ? ? ?]; cbn -[Nat.div]; [|reflexivity].
    unfold Mgr1.set_frameCounter; cbn -[Nat.div].
    rewrite Nat.add_0_r, Nat.sub_diag. reflexivity.
  - change (replicate (S k) AnimationFrame)
      with (AnimationFrame :: replicate k AnimationFrame).
    rewrite Mgr1_run_cons, IH. clear IH.
    destruct this as [[] c buf last cb]; cbn -[Nat.div Nat.modulo]; [|reflexivity].
    unfold Mgr1.set_frameCounter, CONFIG.FRAME_SKIP; cbn -[Nat.div Nat.modulo].
    replace (c + 1 + k) with (c + S k) by lia. f_equal.
    rewrite <- skip_count.
    destruct ((c + 1) mod 4 =? 0); reflexivity.
Qed.

(** The frame loop of the second manager.  While capturing, [k] animation
    frames advance the frame counter by [k] and each is sent to the
    detector; nothing else changes.  While not capturing, they do
    nothing. *)
Theorem Mgr2_frame_loop (this : Mgr2.Manager) (k : nat) :
  Mgr2.run (replicate k AnimationFrame) this =
  if Mgr2.capturing this then
    (Mgr2.set_frameCounter (Mgr2.frameCounter this + k) this, replicate k Sent)
  else (this, []).
Proof.
  revert this. induction k as [|k IH]; intros this.
  - simpl. destruct this as [[] c ? ? ? ? ? ?]; simpl; [|reflexivity].
    unfold Mgr2.set_frameCounter; simpl. now rewrite Nat.add_0_r.
  - change (replicate (S k) AnimationFrame)
      with (AnimationFrame :: replicate k AnimationFrame).
    rewrite Mgr2_run_cons, IH. clear IH.
    destruct this as [[] c buf last cb fp pa ld]; simpl; [|reflexivity].
    unfold Mgr2.set_frameCounter; simpl.
    replace (c + 1 + k) with (c + S k) by lia. reflexivity.
Qed.

Lemma countResults_cons ev rest :
  countResults (ev :: rest) = countResults [ev] + countResults rest.
Proof. destruct ev; reflexivity. Qed.

Lemma Mgr2_step_counters ev this :
  restartFree [ev] = true ->
  Mgr2.framesProcessed (fst (Mgr2.step ev this))
  = Mgr2.framesProcessed this + countResults [ev] /\
  Mgr2.predictionsAttempted (fst (Mgr2.step ev this))
  = Mgr2.predictionsAttempted this + length (fireTimes (snd (Mgr2.step ev this))).
Proof.
  destruct ev as [|cam loaded| | |results now|installed]; simpl; intros Hfree.
  - destruct (Mgr2.startCapture_asks this); simpl; split; lia.
  - destruct cam; [discriminate|]. simpl. split; lia.
  - unfold Mgr2.stopCapture. destruct (Mgr2.capturing this); simpl; split; lia.
  - unfold Mgr2.processVideoFrame. destruct (Mgr2.capturing this); simpl; split; lia.
  - rewrite Mgr2_onResults_eq.
    destruct (keypointsOf results) as [keypoints|e]; [|simpl; split; lia].
    cbn zeta. destruct gate; simpl; split; lia.
  - split; lia.
Qed.

(** The debug counters of the second manager.  Along a trace in which no
    camera is granted, [getStats()] moves as follows: [framesProcessed]
    grows by the number of detection callbacks (also those whose
    extraction throws) and [predictionsAttempted] by the number of times
    the gate fired.  After a camera is granted both start again from
    zero. *)
Theorem Mgr2_getStats_counts (evs : list Event) (this : Mgr2.Manager) :
  restartFree evs = true ->
  (Mgr2.stats_framesProcessed (Mgr2.getStats (fst (Mgr2.run evs this)))
   = Mgr2.stats_framesProcessed (Mgr2.getStats this) + countResults evs /\
   Mgr2.stats_predictionsAttempted (Mgr2.getStats (fst (Mgr2.run evs this)))
   = Mgr2.stats_predictionsAttempted (Mgr2.getStats this)
     + length (fireTimes (snd (Mgr2.run evs this)))) /\
  (forall loaded,
     Mgr2.stats_framesProcessed
       (Mgr2.getStats (fst (Mgr2.run (CameraAnswer Granted loaded :: evs) this)))
     = countResults evs /\
     Mgr2.stats_predictionsAttempted
       (Mgr2.getStats (fst (Mgr2.run (CameraAnswer Granted loaded :: evs) this)))
     = length (fireTimes (snd (Mgr2.run (CameraAnswer Granted loaded :: evs) this)))).
Proof.
  intros Hfree.
  assert (Hrun : forall this,
    Mgr2.framesProcessed (fst (Mgr2.run evs this))
    = Mgr2.framesProcessed this + countResults evs /\
    Mgr2.predictionsAttempted (fst (Mgr2.run evs this))
    = Mgr2.predictionsAttempted this + length (fireTimes (snd (Mgr2.run evs this)))).
  { clear this. induction evs as [|ev rest IH]; intros this.
    - simpl. split; lia.
    - unfold restartFree in Hfree. cbn [forallb] in Hfree.
      apply andb_true_iff in Hfree as [Hev Hrest].
      assert (Hev' : restartFree [ev] = true)
        by (unfold restartFree; cbn [forallb]; now rewrite Hev).
      rewrite Mgr2_run_cons. cbn [fst snd]. rewrite fireTimes_app, length_app.
      destruct (IH Hrest (fst (Mgr2.step ev this))) as [IH1 IH2].
      destruct (Mgr2_step_counters ev this Hev') as [S1 S2].
      rewrite IH1, IH2, S1, S2.
      rewrite (countResults_cons ev rest). split; lia. }
  split; [exact (Hrun this)|].
  intros loaded. rewrite Mgr2_run_cons. cbn [fst snd]. simpl Mgr2.step.
  cbn [fst snd fireTimes omap list_omap app].
  destruct (Hrun (fst (Mgr2.startCapture_resume Granted loaded this))) as [H1 H2].
  exact (conj H1 H2).
Qed.

Lemma Mgr2_getStats_counts_witness :
  restartFree overfullTrace = true /\
  Mgr2.stats_framesProcessed (Mgr2.getStats (fst (Mgr2.run overfullTrace Mgr2.new))) = 51 /\
  Mgr2.stats_predictionsAttempted
    (Mgr2.getStats (fst (Mgr2.run overfullTrace Mgr2.new))) = 1.
Proof.
  assert (Hfree : restartFree overfullTrace = true) by reflexivity.
  split; [exact Hfree|].
  destruct (Mgr2_getStats_counts overfullTrace Mgr2.new Hfree) as [[H1 H2] _].
  rewrite H1, H2. split; vm_compute; reflexivity.
Defined.

(** ** The handler registry of [WebSocketManager] *)

Lemma emitEvent_on {H D} (event event' : string) (handler : H) (data : D)
    (ws : WebSocketManager.Manager H) :
  WebSocketManager.emitEvent event data (WebSocketManager.on event' handler ws) =
  WebSocketManager.emitEvent event data ws
    ++ (if decide (event' = event) then [(handler, data)] else []).
Proof.
  unfold WebSocketManager.emitEvent, WebSocketManager.on. cbn.
  destruct (decide (event' = event)) as [->|Hne].
  - rewrite lookup_insert_eq.
    destruct (WebSocketManager.eventHandlers ws !! event) as [handlers|]; cbn.
    + now rewrite fmap_app.
    + reflexivity.
  - rewrite lookup_insert_ne by exact Hne. now rewrite app_nil_r.
Qed.

(** [on] and [emitEvent].  After any list of registrations, [emitEvent]
    calls the handlers that were there before and then those registered
    for this event, in the order of their registration, each with the
    data; handlers registered for other events are not called, and a
    handler registered twice is called twice. *)
Theorem WebSocketManager_emitEvent_registered {H D}
    (registrations : list (string * H)) (ws : WebSocketManager.Manager H)
    (event : string) (data : D) :
  WebSocketManager.emitEvent event data (registerAll registrations ws) =
  WebSocketManager.emitEvent event data ws
    ++ ((fun handler => (handler, data)) <$> registeredFor event registrations).
Proof.
  revert ws. unfold registerAll, registeredFor.
  induction registrations as [|[event' handler] rest IH]; intros ws.
  - cbn. now rewrite app_nil_r.
  - cbn [foldl fst snd]. rewrite IH, emitEvent_on, <- app_assoc. f_equal.
    rewrite filter_cons. cbn [fst].
    destruct (decide (event' = event)); reflexivity.
Qed.

Lemma runOver_cons {State Input Output : Type}
    (step : Input -> State -> State * list Output) input rest this :
  runOver step (input :: rest) this =
  (fst (runOver step rest (fst (step input this))),
   snd (step input this) ++ snd (runOver step rest (fst (step input this)))).
Proof.
  simpl. destruct (step input this) as [this1 o]. simpl.
  now destruct (runOver step rest this1).
Qed.

Lemma runOver_app {State Input Output : Type}
    (step : Input -> State -> State * list Output) inputs inputs' this :
  runOver step (inputs ++ inputs') this =
  (fst (runOver step inputs' (fst (runOver step inputs this))),
   snd (runOver step inputs this)
     ++ snd (runOver step inputs' (fst (runOver step inputs this)))).
Proof.
  revert this. induction inputs as [|input rest IH]; intros this.
  - cbn. now destruct (runOver step inputs' this).
  - rewrite <- app_comm_cons, !runOver_cons, IH. cbn [fst snd].
    now rewrite app_assoc.
Qed.

Lemma toSocket_app {H P} (a b : list (WebSocketManager.Seen H P)) :
  WebSocketManager.toSocket (a ++ b)
  = WebSocketManager.toSocket a ++ WebSocketManager.toSocket b.
Proof. apply omap_app. Qed.

Lemma toSocket_Called {H P} (calls : list (H * WebSocketManager.Data P)) :
  WebSocketManager.toSocket
    ((fun c => WebSocketManager.Called (fst c) (snd c)) <$> calls) = [].
Proof. induction calls as [|c rest IH]; [reflexivity | exact IH]. Qed.

Lemma WebSocketManager_step_socketless {H P}
    (call : WebSocketManager.Call H P) (this : WebSocketManager.Manager H) :
  initializeFree [call] = true ->
  WebSocketManager.socket this = false ->
  WebSocketManager.toSocket (snd (WebSocketManager.step call this)) = [] /\
  WebSocketManager.socket (fst (WebSocketManager.step call this)) = false.
Proof.
  intros Hfree Hsocket.
  destruct call as [io|ev|event handler|sequence history|text| |];
    cbn [WebSocketManager.step].
  - discriminate.
  - destruct (WebSocketManager.handle ev this) as [this' calls] eqn:E.
    cbn [fst snd]. rewrite toSocket_Called. split; [reflexivity|].
    destruct ev; injection E as <- _; exact Hsocket.
  - auto.
  - unfold WebSocketManager.predictSequence, WebSocketManager.send.
    rewrite Hsocket. auto.
  - unfold WebSocketManager.generateAnimation, WebSocketManager.send.
    rewrite Hsocket. auto.
  - unfold WebSocketManager.clearHistory, WebSocketManager.send.
    rewrite Hsocket. auto.
  - unfold WebSocketManager.disconnect. rewrite Hsocket. auto.
Qed.

(** [disconnect()] is final.  A manager that holds no socket (a new one,
    or one after [disconnect()]) hands nothing to a socket, whatever it is
    called with and whatever events still arrive, until [initialize()] is
    called again: not even after a late ['connect'] event has set
    [isConnected]. *)
Theorem WebSocketManager_disconnect_final {H P}
    (calls : list (WebSocketManager.Call H P)) (this : WebSocketManager.Manager H) :
  initializeFree calls = true ->
  (WebSocketManager.socket this = false ->
   WebSocketManager.toSocket (snd (WebSocketManager.run calls this)) = [] /\
   WebSocketManager.socket (fst (WebSocketManager.run calls this)) = false) /\
  WebSocketManager.toSocket
    (snd (WebSocketManager.run calls (fst (WebSocketManager.disconnect this)))) = [].
Proof.
  intros Hfree.
  assert (Hrun : forall this,
    WebSocketManager.socket this = false ->
    WebSocketManager.toSocket (snd (WebSocketManager.run calls this)) = [] /\
    WebSocketManager.socket (fst (WebSocketManager.run calls this)) = false).
  { clear this. unfold WebSocketManager.run.
    induction calls as [|call rest IH]; intros this Hsocket.
    - auto.
    - unfold initializeFree in Hfree. cbn [forallb] in Hfree.
      apply andb_true_iff in Hfree as [Hcall Hrest].
      assert (Hcall' : initializeFree [call] = true)
        by (unfold initializeFree; cbn [forallb]; now rewrite Hcall).
      destruct (WebSocketManager_step_socketless call this Hcall' Hsocket)
        as [Hout Hnext].
      rewrite runOver_cons. cbn [fst snd]. rewrite toSocket_app, Hout.
      exact (IH Hrest _ Hnext). }
  split; [exact (Hrun this)|].
  apply Hrun. unfold WebSocketManager.disconnect.
  destruct (WebSocketManager.socket this) eqn:E; [reflexivity | exact E].
Qed.

Lemma WebSocketManager_disconnect_final_witness :
  WebSocketManager.toSocket
    (snd (WebSocketManager.run
            [WebSocketManager.FromSocket (H := unit) (P := unit) WebSocketManager.Connect;
             WebSocketManager.PredictSequence [] []; WebSocketManager.ClearHistory]
            (fst (WebSocketManager.disconnect
                    (WebSocketManager.mkManager true ∅ true))))) = [].
Proof.
  apply (WebSocketManager_disconnect_final
           [WebSocketManager.FromSocket (H := unit) (P := unit) WebSocketManager.Connect;
            WebSocketManager.PredictSequence [] []; WebSocketManager.ClearHistory]
           (WebSocketManager.mkManager true ∅ true)).
  reflexivity.
Defined.

(** ** Text: [trim()] and [split(/\s+/)] *)

Lemma trimStart_decompose (text : JsString) :
  exists ws, text = ws ++ trimStart text /\ blank ws /\
             match trimStart text with
             | [] => True
             | c :: _ => isWhiteSpace c = false
             end.
Proof.
  induction text as [|c rest (ws & E & B & Hhead)].
  - exists []. repeat split. constructor.
  - cbn [trimStart]. destruct (isWhiteSpace c) eqn:Hc.
    + exists (c :: ws). split; [cbn; congruence|]. split; [|exact Hhead].
      constructor; assumption.
    + exists []. split; [reflexivity|]. split; [constructor | exact Hc].
Qed.

Lemma blank_reverse (text : JsString) : blank text -> blank (reverse text).
Proof. unfold blank. rewrite !Forall_forall. intros Hb c Hc. apply Hb. now apply elem_of_reverse. Qed.

Lemma trimEnd_decompose (text : JsString) :
  exists ws, text = trimEnd text ++ ws /\ blank ws /\
             (trimEnd text = [] \/
              exists u c, trimEnd text = u ++ [c] /\ isWhiteSpace c = false).
Proof.
  unfold trimEnd.
  destruct (trimStart_decompose (reverse text)) as (ws & E & B & Hhead).
  exists (reverse ws). split; [|split].
  - rewrite <- reverse_app, <- E. now rewrite reverse_involutive.
  - now apply blank_reverse.
  - destruct (trimStart (reverse text)) as [|c u]; [now left|].
    right. exists (reverse u), c. now rewrite reverse_cons.
Qed.

Lemma trimStart_blank (text : JsString) : blank text -> trimStart text = [].
Proof.
  induction 1 as [|c rest Hc _ IH]; [reflexivity|]. cbn. now rewrite Hc.
Qed.

Lemma blank_app (a b : JsString) : blank (a ++ b) <-> blank a /\ blank b.
Proof. apply Forall_app. Qed.

(** The shape of a trimmed text: the text is white space, the trimmed
    text, white space; and the trimmed text is empty or begins and ends
    with code units that are not white space. *)
Lemma trim_decompose (text : JsString) :
  exists before after,
    text = before ++ trim text ++ after /\ blank before /\ blank after /\
    (trim text = [] \/
     (exists c u, trim text = c :: u /\ isWhiteSpace c = false) /\
     (exists u c, trim text = u ++ [c] /\ isWhiteSpace c = false)).
Proof.
  unfold trim.
  destruct (trimStart_decompose text) as (before & E1 & B1 & Hhead).
  destruct (trimEnd_decompose (trimStart text)) as (after & E2 & B2 & Hlast).
  exists before, after. split; [|split; [exact B1|split; [exact B2|]]].
  - rewrite <- E2. exact E1.
  - destruct Hlast as [Hnil | Hlast]; [now left|]. right. split; [|exact Hlast].
    destruct (trimEnd (trimStart text)) as [|c u] eqn:Em.
    + destruct Hlast as (u & c & Hu & _). now destruct u.
    + exists c, u. split; [reflexivity|].
      rewrite E2 in Hhead. exact Hhead.
Qed.

Lemma trim_nil_iff (text : JsString) : trim text = [] <-> blank text.
Proof.
  split.
  - intros E. destruct (trim_decompose text) as (before & after & Ht & B1 & B2 & _).
    rewrite E in Ht. rewrite Ht. apply blank_app. split; [exact B1 | exact B2].
  - intros B. unfold trim. rewrite (trimStart_blank text B). reflexivity.
Qed.

Lemma wordStarts_blank_l (before text : JsString) :
  blank before -> wordStarts true (before ++ text) = wordStarts true text.
Proof.
  induction 1 as [|c rest Hc _ IH]; [reflexivity|]. cbn. now rewrite Hc.
Qed.

Lemma wordStarts_blank_r (text after : JsString) (afterSpace : bool) :
  blank after -> wordStarts afterSpace (text ++ after) = wordStarts afterSpace text.
Proof.
  intros B. revert afterSpace. induction text as [|c rest IH]; intros afterSpace.
  - cbn [app]. revert afterSpace.
    induction B as [|c rest Hc _ IH]; intros afterSpace; [reflexivity|].
    cbn. rewrite Hc. apply IH.
  - cbn. now rewrite !IH.
Qed.

Lemma splitSpaces_length (text : JsString) : forall inSpace piece,
  length (splitSpaces inSpace piece text) =
  wordStarts inSpace text + (if inSpace then 0 else 1)
  + (if endsInSpace inSpace text then 1 else 0).
Proof.
  induction text as [|c rest IH]; intros inSpace piece.
  - cbn. destruct inSpace; reflexivity.
  - cbn. destruct (isWhiteSpace c) eqn:Hc.
    + destruct inSpace; cbn [length]; rewrite IH; lia.
    + rewrite IH. destruct inSpace; lia.
Qed.

Lemma endsInSpace_last (text : JsString) (c : N) (inSpace : bool) :
  endsInSpace inSpace (text ++ [c]) = isWhiteSpace c.
Proof.
  revert inSpace. induction text as [|d rest IH]; intros inSpace; [reflexivity|].
  cbn. apply IH.
Qed.

(** [updateWordCount()].  The number shown is the number of words of the
    text: of its maximal runs of code units that are not white space. *)
Theorem countWords_wordStarts (text : JsString) :
  UIManager.countWords text = wordStarts true text.
Proof.
  unfold UIManager.countWords.
  destruct (trim_decompose text) as (before & after & Ht & B1 & B2 & Hshape).
  remember (trim text) as trimmed eqn:Etrimmed. clear Etrimmed. subst text.
  rewrite (wordStarts_blank_l before _ B1), (wordStarts_blank_r _ after true B2).
  destruct (decide (trimmed = [])) as [E|Hne]; [now rewrite E|].
  destruct Hshape as [E | [(c & u & Ec & Hc) (u' & d & Ed & Hd)]]; [contradiction|].
  unfold split_spaces. rewrite splitSpaces_length.
  replace (endsInSpace false trimmed) with false
    by (now rewrite Ed, endsInSpace_last, Hd).
  rewrite Ec. cbn. rewrite Hc. lia.
Qed.

(** ** [AnimationManager]: the text of an animation request *)

Lemma sanitize_elem (text : JsString) (c : N) :
  c ∈ AnimationManager.sanitize text <-> c ∈ text /\ c <> lessThan /\ c <> greaterThan.
Proof.
  unfold AnimationManager.sanitize, lessThan, greaterThan.
  rewrite list_elem_of_filter. tauto.
Qed.

Lemma length_zero_nil {A} (l : list A) : (length l =? 0) = true <-> l = [].
Proof. rewrite Nat.eqb_eq. destruct l; cbn; split; (discriminate || reflexivity). Qed.

Lemma validateText_eq (text : JsString) :
  AnimationManager.validateText text =
  if decide (blank text) then AnimationManager.Invalid "Text cannot be empty"
  else if decide (500 < length text)
       then AnimationManager.Invalid "Text too long (max 500 characters)"
       else AnimationManager.Valid (AnimationManager.sanitize text).
Proof.
  unfold AnimationManager.validateText.
  destruct (decide (blank text)) as [B|NB].
  - apply trim_nil_iff in B. rewrite B. cbn. now rewrite orb_true_r.
  - replace (length text =? 0) with false; cycle 1.
    { symmetry. apply not_true_iff_false. rewrite length_zero_nil.
      intros ->. apply NB. constructor. }
    replace (length (trim text) =? 0) with false; cycle 1.
    { symmetry. apply not_true_iff_false. rewrite length_zero_nil.
      now rewrite trim_nil_iff. }
    cbn [orb]. destruct (decide (500 < length text)) as [L|L].
    + apply Nat.ltb_lt in L. now rewrite L.
    + apply Nat.ltb_nlt in L. now rewrite L.
Qed.

(** [validateText(text)] on a string.  It accepts exactly the texts that
    are not blank (empty or white space only) and hold at most 500 code
    units; the text it returns is the input without its [<] and [>], the
    other code units kept in order.  Emptiness is tested first: every
    blank text, of whatever length, gets the empty-text error, and the
    too-long error is given to the texts that are not blank and hold more
    than 500 code units, and to no other. *)
Theorem validateText_verdict (text : JsString) :
  ((exists sanitized,
      AnimationManager.validateText text = AnimationManager.Valid sanitized)
   <-> (~ blank text /\ length text <= 500)) /\
  (forall sanitized,
     AnimationManager.validateText text = AnimationManager.Valid sanitized ->
     sanitized = AnimationManager.sanitize text /\
     (lessThan ∉ sanitized) /\ (greaterThan ∉ sanitized) /\
     sanitized `sublist_of` text /\
     (forall c, c ∈ text -> c <> lessThan -> c <> greaterThan -> c ∈ sanitized)) /\
  (forall error,
     AnimationManager.validateText text = AnimationManager.Invalid error ->
     (error = "Text cannot be empty" /\ blank text) \/
     (error = "Text too long (max 500 characters)" /\
      ~ blank text /\ 500 < length text)) /\
  (blank text ->
   AnimationManager.validateText text
   = AnimationManager.Invalid "Text cannot be empty") /\
  (~ blank text -> 500 < length text ->
   AnimationManager.validateText text
   = AnimationManager.Invalid "Text too long (max 500 characters)").
Proof.
  rewrite validateText_eq. split; [|split; [|split; [|split]]].
  - destruct (decide (blank text)) as [B|NB]; [|destruct (decide (500 < length text))].
    + split; [intros [? ?]; discriminate | tauto].
    + split; [intros [? ?]; discriminate | lia].
    + split; [intros _; split; [exact NB | lia] | eauto].
  - intros sanitized E.
    destruct (decide (blank text)); [discriminate|].
    destruct (decide (500 < length text)); [discriminate|].
    injection E as <-. split; [reflexivity|].
    split; [|split; [|split]].
    + rewrite sanitize_elem. tauto.
    + rewrite sanitize_elem. tauto.
    + apply sublist_filter.
    + intros c Hc H1 H2. apply sanitize_elem. tauto.
  - intros error E.
    destruct (decide (blank text)) as [B|NB]; [left; injection E as <-; auto|].
    destruct (decide (500 < length text)); [right; injection E as <-; auto|].
    discriminate.
  - intros B. destruct (decide (blank text)); [reflexivity | contradiction].
  - intros NB L. destruct (decide (blank text)); [contradiction|].
    destruct (decide (500 < length text)); [reflexivity | contradiction].
Qed.

(** [validateText] tests for emptiness before it removes [<] and [>]: a
    text of at most 500 code units that holds, white space apart, only
    [<] and [>], and at least one of them, is accepted, and the text
    returned for it is blank. *)
Theorem validateText_blank_result (text : JsString) :
  Forall (fun c => c = lessThan \/ c = greaterThan \/ isWhiteSpace c = true) text ->
  ~ blank text ->
  length text <= 500 ->
  AnimationManager.validateText text
  = AnimationManager.Valid (AnimationManager.sanitize text) /\
  blank (AnimationManager.sanitize text).
Proof.
  intros Hall NB L. rewrite validateText_eq.
  destruct (decide (blank text)); [contradiction|].
  destruct (decide (500 < length text)); [lia|]. split; [reflexivity|].
  apply Forall_forall. intros c Hc. apply sanitize_elem in Hc as (Hc & H1 & H2).
  rewrite Forall_forall in Hall. destruct (Hall c Hc) as [?|[?|?]]; tauto.
Qed.

Lemma validateText_blank_result_witness :
  AnimationManager.validateText [lessThan; space; greaterThan]
  = AnimationManager.Valid [space].
Proof.
  apply (validateText_blank_result [lessThan; space; greaterThan]).
  - constructor; [left; reflexivity|].
    constructor; [right; right; reflexivity|].
    constructor; [right; left; reflexivity|]. constructor.
  - intros B. inversion B as [|? ? Hc ?]. discriminate Hc.
  - cbn. lia.
Defined.

(** [AnimationManager.generateAnimation()].  A request goes to the server
    exactly when the text input is not blank and the socket manager holds
    a socket and is connected; the text sent is the trimmed input as
    typed ([validateText] is not applied to it); the method answers
    [true] exactly then.  A blank input stops at the alert; a manager
    that says it is connected but holds no socket gives the
    failed-to-send error. *)
Theorem generateAnimation_request {H} (ui : UIManager.UI)
    (ws : WebSocketManager.Manager H) :
  AnimationManager.sent (AnimationManager.generateAnimation ui ws) =
    (if AnimationManager.answer (AnimationManager.generateAnimation ui ws)
     then [WebSocketManager.generate_animation (trim (UIManager.textInput ui))]
     else []) /\
  (AnimationManager.answer (AnimationManager.generateAnimation ui ws) = true <->
   ~ blank (UIManager.textInput ui) /\
   WebSocketManager.socket ws = true /\ WebSocketManager.isConnected ws = true) /\
  (AnimationManager.alerted (AnimationManager.generateAnimation ui ws) = true <->
   blank (UIManager.textInput ui)) /\
  (AnimationManager.shown (AnimationManager.generateAnimation ui ws)
   = Some "Failed to send animation request" <->
   ~ blank (UIManager.textInput ui) /\
   WebSocketManager.socket ws = false /\ WebSocketManager.isConnected ws = true).
Proof.
  unfold AnimationManager.generateAnimation, UIManager.getTextInput,
    WebSocketManager.getConnectionStatus, WebSocketManager.generateAnimation,
    WebSocketManager.send.
  rewrite <- trim_nil_iff.
  destruct (length (trim (UIManager.textInput ui)) =? 0) eqn:E.
  - apply length_zero_nil in E. cbn. rewrite E.
    repeat split; try tauto; try discriminate; intros (? & _); contradiction.
  - assert (Hne : trim (UIManager.textInput ui) <> []).
    { intros E'. apply length_zero_nil in E'. congruence. }
    destruct (WebSocketManager.isConnected ws), (WebSocketManager.socket ws); cbn;
      repeat split; try tauto; try discriminate; try (intros (_ & ? & ?); discriminate).
Qed.

(** ** The application *)

Section App.

Context {M : Type} `{MediaPipe M}.

Lemma App_run_cons ev rest (app : DeepISLApp.App M) :
  DeepISLApp.run (ev :: rest) app =
  (fst (DeepISLApp.run rest (fst (DeepISLApp.step ev app))),
   snd (DeepISLApp.step ev app)
     ++ snd (DeepISLApp.run rest (fst (DeepISLApp.step ev app)))).
Proof. apply runOver_cons. Qed.

Lemma updateRecentSigns_recent (signHistory : list string) (ui : UIManager.UI) :
  UIManager.recentSigns (UIManager.updateRecentSigns signHistory ui)
  = slice_neg 5 signHistory.
Proof. destruct signHistory; reflexivity. Qed.

Lemma called_pageConsistent call (app : DeepISLApp.App M) :
  pageConsistent app -> pageConsistent (DeepISLApp.called call app).
Proof.
  intros [Hwords Hsigns]. destruct call as [handler data].
  destruct handler; cbn [DeepISLApp.called];
    try (destruct data as [status|[data|error|video_url]]); try (split; assumption).
  unfold TranslationManager.handlePredictionResult.
  destruct (num_gt _ _); [|split; assumption].
  split.
  - cbn. destruct (length (TranslationManager.sentence data) =? 0);
      [exact Hwords | reflexivity].
  - cbn -[slice_neg UIManager.updateRecentSigns]. apply updateRecentSigns_recent.
Qed.

Lemma step_pageConsistent ev (app : DeepISLApp.App M) :
  pageConsistent app -> pageConsistent (fst (DeepISLApp.step ev app)).
Proof.
  intros Hpage. pose proof Hpage as [Hwords Hsigns].
  destruct ev as [|cam| | | | |hidden| |results now|ev|]; cbn [DeepISLApp.step fst].
  - unfold DeepISLApp.startSignDetection.
    destruct (mp_isCapturing _); [exact Hpage|].
    destruct (negb _); [exact Hpage|]. split; assumption.
  - destruct cam; split; assumption.
  - unfold DeepISLApp.videoLoaded. destruct (mp_processVideoFrame _).
    destruct (DeepISLApp.startPending _); split; assumption.
  - unfold DeepISLApp.videoError.
    destruct (DeepISLApp.startPending _); split; assumption.
  - split; assumption.
  - split; reflexivity.
  - unfold DeepISLApp.handleVisibilityChange.
    destruct (_ && _); [split; assumption | exact Hpage].
  - destruct (mp_processVideoFrame _). split; assumption.
  - unfold DeepISLApp.detected.
    destruct (mp_onResults _ _ _) as [m [[|sequence []]|e]]; try (split; assumption).
    unfold TranslationManager.handleSequenceReady,
      WebSocketManager.getConnectionStatus, WebSocketManager.predictSequence,
      WebSocketManager.send.
    cbn [DeepISLApp.webSocketManager DeepISLApp.with_manager].
    destruct (WebSocketManager.isConnected (DeepISLApp.webSocketManager app)),
      (WebSocketManager.socket (DeepISLApp.webSocketManager app));
      split; assumption.
  - unfold DeepISLApp.fromSocket.
    destruct (WebSocketManager.handle _ _) as [ws calls].
    assert (Hstart : pageConsistent
              (DeepISLApp.mkApp (DeepISLApp.mediaPipeManager app) ws
                                (DeepISLApp.uiManager app) (DeepISLApp.signHistory app)
                                (DeepISLApp.startPending app)))
      by (split; assumption).
    revert Hstart. generalize (DeepISLApp.mkApp (DeepISLApp.mediaPipeManager app) ws
                                (DeepISLApp.uiManager app) (DeepISLApp.signHistory app)
                                (DeepISLApp.startPending app)).
    induction calls as [|call rest IH]; intros app' Happ'; [exact Happ'|].
    cbn [foldl]. apply IH. now apply called_pageConsistent.
  - unfold DeepISLApp.cleanup. destruct (WebSocketManager.disconnect _). split; assumption.
Qed.

(** The page stays consistent.  From an application whose page shows the
    word count of its detected text and the last five signs of its sign
    history, whatever happens (clicks, camera and video events, detection
    results, socket events, page unload), the page still does: the
    program writes the detected text and the recent signs nowhere
    else. *)
Theorem App_page_consistent evs (app : DeepISLApp.App M) :
  pageConsistent app -> pageConsistent (fst (DeepISLApp.run evs app)).
Proof.
  revert app. induction evs as [|ev rest IH]; intros app Hpage; [exact Hpage|].
  rewrite App_run_cons. cbn [fst]. apply IH. now apply step_pageConsistent.
Qed.

End App.

Lemma App_page_consistent_witness :
  pageConsistent
    (fst (DeepISLApp.run sampleSession
            (DeepISLApp.initialized (M := Mgr2.Manager) blankPage))).
Proof.
  apply (App_page_consistent sampleSession (DeepISLApp.initialized blankPage)).
  split; reflexivity.
Defined.

(** *** The application drives its [MediaPipeManager] *)

Lemma runWith_runOver {State : Type} (step : Event -> State -> State * list Obs)
    evs this :
  runWith step evs this = runOver step evs this.
Proof. revert this. induction evs as [|ev rest IH]; intros this; cbn; [|destruct step; rewrite IH]; reflexivity. Qed.

Lemma runWith_app {State : Type} (step : Event -> State -> State * list Obs)
    evs evs' this :
  runWith step (evs ++ evs') this =
  (fst (runWith step evs' (fst (runWith step evs this))),
   snd (runWith step evs this)
     ++ snd (runWith step evs' (fst (runWith step evs this)))).
Proof. rewrite !runWith_runOver. apply runOver_app. Qed.

Lemma predictions_app a b : predictions (a ++ b) = predictions a ++ predictions b.
Proof. apply omap_app. Qed.

Lemma predictions_times obs : fst <$> predictions obs = fireTimes obs.
Proof.
  induction obs as [|o rest IH]; [reflexivity|].
  destruct o; try exact IH.
  unfold predictions, fireTimes in *. cbn. now rewrite <- IH.
Qed.

Lemma predictions_sequences obs : snd <$> predictions obs = firedSequences obs.
Proof.
  induction obs as [|o rest IH]; [reflexivity|].
  destruct o; try exact IH.
  unfold predictions, firedSequences in *. cbn. now rewrite <- IH.
Qed.

Lemma firings_app (a b : list DeepISLApp.Seen) :
  DeepISLApp.firings (a ++ b) = DeepISLApp.firings a ++ DeepISLApp.firings b.
Proof. apply omap_app. Qed.

Lemma firings_ToSocket (out : list WebSocketManager.Emit) :
  DeepISLApp.firings (DeepISLApp.ToSocket <$> out) = [].
Proof. induction out as [|m rest IH]; [reflexivity | exact IH]. Qed.

Section Drives.

Context {M : Type} `{MediaPipe M}.

(** The manager's own transition function, and how it is made of the
    methods the application calls. *)
Variable mstep : Event -> M -> M * list Obs.

Hypothesis mstep_camera : forall cam loaded m,
  mstep (CameraAnswer cam loaded) m =
  (fst (mp_startCapture_resume cam loaded m),
   [Started (snd (mp_startCapture_resume cam loaded m))]).
Hypothesis mstep_stop : forall m, mstep StopCapture m = (mp_stopCapture m, []).
Hypothesis mstep_frame : forall m,
  mstep AnimationFrame m =
  (fst (mp_processVideoFrame m), if snd (mp_processVideoFrame m) then [Sent] else []).
Hypothesis mstep_results : forall results now m,
  mstep (DetectorResults results now) m =
  match mp_onResults results now m with
  | (m, Throw e) => (m, [Raised e])
  | (m, Ok Quiet) => (m, [])
  | (m, Ok (Fired s d)) => (m, [Predict now s d])
  end.
Hypothesis denied_keeps : forall loaded m,
  fst (mp_startCapture_resume Denied loaded m) = m.
Hypothesis stop_idle : forall m, mp_isCapturing m = false -> mp_stopCapture m = m.
Hypothesis cleanup_stops : forall m, mp_cleanup m = mp_stopCapture m.

Lemma called_manager call (app : DeepISLApp.App M) :
  DeepISLApp.mediaPipeManager (DeepISLApp.called call app)
  = DeepISLApp.mediaPipeManager app.
Proof.
  destruct call as [[] [status|[data|error|video_url]]]; cbn; try reflexivity.
  now destruct (TranslationManager.handlePredictionResult _ _ _).
Qed.

Lemma fromSocket_manager ev (app : DeepISLApp.App M) :
  DeepISLApp.mediaPipeManager (DeepISLApp.fromSocket ev app)
  = DeepISLApp.mediaPipeManager app.
Proof.
  unfold DeepISLApp.fromSocket.
  destruct (WebSocketManager.handle _ _) as [ws calls].
  change (DeepISLApp.mediaPipeManager app) with
    (DeepISLApp.mediaPipeManager
       (DeepISLApp.mkApp (DeepISLApp.mediaPipeManager app) ws
                         (DeepISLApp.uiManager app) (DeepISLApp.signHistory app)
                         (DeepISLApp.startPending app))) at 2.
  generalize (DeepISLApp.mkApp (DeepISLApp.mediaPipeManager app) ws
                               (DeepISLApp.uiManager app) (DeepISLApp.signHistory app)
                               (DeepISLApp.startPending app)).
  induction calls as [|call rest IH]; intros app'; [reflexivity|].
  cbn [foldl]. rewrite IH. apply called_manager.
Qed.

Lemma step_drives ev (app : DeepISLApp.App M) :
  DeepISLApp.mediaPipeManager (fst (DeepISLApp.step ev app))
  = fst (runWith mstep (managerEvents ev) (DeepISLApp.mediaPipeManager app)) /\
  DeepISLApp.firings (snd (DeepISLApp.step ev app))
  = predictions (snd (runWith mstep (managerEvents ev)
                                (DeepISLApp.mediaPipeManager app))).
Proof.
  destruct ev as [|cam| | | | |hidden| |results now|ev|];
    cbn [DeepISLApp.step managerEvents].
  - unfold DeepISLApp.startSignDetection.
    destruct (mp_isCapturing _); [split; reflexivity|].
    destruct (negb _); split; reflexivity.
  - destruct cam; cbn [runWith]; rewrite mstep_camera.
    + split; reflexivity.
    + rewrite mstep_stop. cbn. rewrite denied_keeps. split; reflexivity.
  - cbn [runWith]. rewrite mstep_frame. unfold DeepISLApp.videoLoaded.
    destruct (mp_processVideoFrame _) as [m sent]. cbn.
    destruct (DeepISLApp.startPending app);
      (split; [reflexivity | now destruct sent]).
  - cbn [runWith]. rewrite mstep_stop. unfold DeepISLApp.videoError. cbn.
    destruct (DeepISLApp.startPending app); split; reflexivity.
  - cbn [runWith]. rewrite mstep_stop. split; reflexivity.
  - unfold DeepISLApp.clear, TranslationManager.clearHistory. cbn.
    split; [reflexivity | apply firings_ToSocket].
  - unfold DeepISLApp.handleVisibilityChange. destruct hidden; [|split; reflexivity].
    cbn [runWith andb]. rewrite mstep_stop.
    destruct (mp_isCapturing _) eqn:E; cbn; [split; reflexivity|].
    now rewrite (stop_idle _ E).
  - cbn [runWith]. rewrite mstep_frame.
    destruct (mp_processVideoFrame _) as [m sent]. cbn.
    split; [reflexivity | now destruct sent].
  - cbn [runWith]. rewrite mstep_results. unfold DeepISLApp.detected.
    destruct (mp_onResults _ _ _) as [m [[|sequence delivered]|e]];
      try (split; reflexivity).
    destruct delivered; [|split; reflexivity].
    destruct (TranslationManager.handleSequenceReady _ _ _ _) as [ui out].
    cbn. split; [reflexivity|].
    f_equal. apply firings_ToSocket.
  - cbn. split; [apply fromSocket_manager | reflexivity].
  - cbn [runWith]. rewrite mstep_stop. unfold DeepISLApp.cleanup.
    destruct (WebSocketManager.disconnect _) as [ws out]. cbn.
    split; [apply cleanup_stops | apply firings_ToSocket].
Qed.

Lemma run_drives evs : forall app : DeepISLApp.App M,
  DeepISLApp.mediaPipeManager (fst (DeepISLApp.run evs app))
  = fst (runWith mstep (managerTrace evs) (DeepISLApp.mediaPipeManager app)) /\
  DeepISLApp.firings (snd (DeepISLApp.run evs app))
  = predictions (snd (runWith mstep (managerTrace evs)
                                (DeepISLApp.mediaPipeManager app))).
Proof.
  induction evs as [|ev rest IH]; intros app; [split; reflexivity|].
  change (managerTrace (ev :: rest)) with (managerEvents ev ++ managerTrace rest).
  rewrite App_run_cons, runWith_app. cbn [fst snd].
  rewrite firings_app, predictions_app.
  destruct (step_drives ev app) as [E1 E2].
  destruct (IH (fst (DeepISLApp.step ev app))) as [E3 E4].
  rewrite E3, E4, E1, E2. split; reflexivity.
Qed.

End Drives.

Lemma Mgr1_stop_idle (m : Mgr1.Manager) :
  Mgr1.isCapturing m = false -> Mgr1.stopCapture m = m.
Proof. destruct m as [[] ? ? ? ?]; [discriminate | reflexivity]. Qed.

Lemma Mgr2_stop_idle (m : Mgr2.Manager) :
  Mgr2.isCapturing m = false -> Mgr2.stopCapture m = m.
Proof. unfold Mgr2.isCapturing, Mgr2.stopCapture. now intros ->. Qed.

Lemma Mgr1_drives evs (app : DeepISLApp.App Mgr1.Manager) :
  DeepISLApp.mediaPipeManager (fst (DeepISLApp.run evs app))
  = fst (Mgr1.run (managerTrace evs) (DeepISLApp.mediaPipeManager app)) /\
  DeepISLApp.firings (snd (DeepISLApp.run evs app))
  = predictions (snd (Mgr1.run (managerTrace evs) (DeepISLApp.mediaPipeManager app))).
Proof.
  apply (run_drives Mgr1.step).
  - intros cam loaded m. cbn. now destruct (Mgr1.startCapture_resume cam loaded m).
  - reflexivity.
  - intros m. cbn. now destruct (Mgr1.processVideoFrame m).
  - reflexivity.
  - reflexivity.
  - exact Mgr1_stop_idle.
  - reflexivity.
Qed.

Lemma Mgr2_drives evs (app : DeepISLApp.App Mgr2.Manager) :
  DeepISLApp.mediaPipeManager (fst (DeepISLApp.run evs app))
  = fst (Mgr2.run (managerTrace evs) (DeepISLApp.mediaPipeManager app)) /\
  DeepISLApp.firings (snd (DeepISLApp.run evs app))
  = predictions (snd (Mgr2.run (managerTrace evs) (DeepISLApp.mediaPipeManager app))).
Proof.
  apply (run_drives Mgr2.step).
  - intros cam loaded m. cbn. now destruct (Mgr2.startCapture_resume cam loaded m).
  - reflexivity.
  - intros m. cbn. now destruct (Mgr2.processVideoFrame m).
  - reflexivity.
  - reflexivity.
  - exact Mgr2_stop_idle.
  - reflexivity.
Qed.

(** The application and its manager.  Whatever happens to the
    application, its [MediaPipeManager] ends in the state, and fires the
    gate at the clock values and with the sequences, of the manager
    driven alone by the trace [managerTrace]: camera answers, stops (the
    stop button, a hidden page while capturing, a denied camera, a video
    error, page unload), animation frames and detection results.
    Clicks on start and clear and socket events do not touch it.  This
    holds with either definition of the manager. *)
Theorem App_drives_manager :
  (forall evs (app : DeepISLApp.App Mgr1.Manager),
     DeepISLApp.mediaPipeManager (fst (DeepISLApp.run evs app))
     = fst (Mgr1.run (managerTrace evs) (DeepISLApp.mediaPipeManager app)) /\
     DeepISLApp.firings (snd (DeepISLApp.run evs app))
     = predictions (snd (Mgr1.run (managerTrace evs)
                                  (DeepISLApp.mediaPipeManager app)))) /\
  (forall evs (app : DeepISLApp.App Mgr2.Manager),
     DeepISLApp.mediaPipeManager (fst (DeepISLApp.run evs app))
     = fst (Mgr2.run (managerTrace evs) (DeepISLApp.mediaPipeManager app)) /\
     DeepISLApp.firings (snd (DeepISLApp.run evs app))
     = predictions (snd (Mgr2.run (managerTrace evs)
                                  (DeepISLApp.mediaPipeManager app)))).
Proof. split; [exact Mgr1_drives | exact Mgr2_drives]. Qed.

(** *** What the application sends to the server *)

Lemma sublist_fmap_mono {A B} (f : A -> B) (l k : list A) :
  l `sublist_of` k -> (f <$> l) `sublist_of` (f <$> k).
Proof. induction 1; cbn; [constructor | now apply sublist_skip | now apply sublist_cons]. Qed.

Lemma Forall_sublist_of {A} (P : A -> Prop) (l k : list A) :
  l `sublist_of` k -> Forall P k -> Forall P l.
Proof.
  intros Hsub Hk. apply Forall_forall. intros x Hx.
  rewrite Forall_forall in Hk. apply Hk. now apply (sublist_subseteq l k).
Qed.

Lemma spaced_sublist (l k : list Z) : l `sublist_of` k -> spaced k -> spaced l.
Proof.
  unfold spaced. induction 1 as [|x l k Hsub IH|x l k Hsub IH]; intros Hk.
  - constructor.
  - apply StronglySorted_cons in Hk as [Hx Hk].
    apply StronglySorted_cons. split; [|now apply IH].
    now apply (Forall_sublist_of _ l k).
  - apply StronglySorted_cons in Hk as [_ Hk]. now apply IH.
Qed.

Lemma spaced_gaps (times : list Z) :
  (forall i j ti tj, i < j -> times !! i = Some ti -> times !! j = Some tj ->
                     (CONFIG.PREDICTION_THROTTLE_MS < tj - ti)%Z) ->
  spaced times.
Proof.
  unfold spaced. induction times as [|t rest IH]; intros Hgap; [constructor|].
  apply StronglySorted_cons. split.
  - apply Forall_forall. intros t' Ht'.
    apply list_elem_of_lookup in Ht' as [j Hj].
    apply (Hgap 0 (S j)); [lia | reflexivity | exact Hj].
  - apply IH. intros i j ti tj Hij Hi Hj.
    apply (Hgap (S i) (S j)); [lia | exact Hi | exact Hj].
Qed.

Lemma sends_quiet (o os : list DeepISLApp.Seen) :
  forallb quiet o = true ->
  DeepISLApp.sends (o ++ os) = DeepISLApp.sends os /\
  DeepISLApp.firings (o ++ os) = DeepISLApp.firings os /\
  DeepISLApp.sentSequences (o ++ os) = DeepISLApp.sentSequences os /\
  (headFree os -> headFree (o ++ os)).
Proof.
  induction o as [|x o IH]; intros Hq; [auto|].
  cbn [forallb] in Hq. apply andb_true_iff in Hq as [Hx Ho].
  destruct (IH Ho) as (E1 & E2 & E3 & _).
  destruct x as [[]| | | | |]; try discriminate; cbn; auto.
Qed.

Lemma sends_fired (now : Z) (s : list Frame) (os : list DeepISLApp.Seen) :
  headFree os ->
  DeepISLApp.sends (DeepISLApp.GateFired now s :: os) = DeepISLApp.sends os.
Proof. destruct os as [|[[]| | | | |] os]; cbn; tauto. Qed.

Section Sends.

Context {M : Type} `{MediaPipe M}.

Lemma step_shape ev (app : DeepISLApp.App M) :
  forallb quiet (snd (DeepISLApp.step ev app)) = true \/
  (exists now s, snd (DeepISLApp.step ev app) = [DeepISLApp.GateFired now s]) \/
  (exists now s h,
     snd (DeepISLApp.step ev app)
     = [DeepISLApp.GateFired now s;
        DeepISLApp.ToSocket (WebSocketManager.predict_sequence s h)]).
Proof.
  destruct ev as [|cam| | | | |hidden| |results now|ev|]; cbn [DeepISLApp.step snd].
  - left. unfold DeepISLApp.startSignDetection.
    destruct (mp_isCapturing _); [reflexivity|]. destruct (negb _); reflexivity.
  - now left.
  - left. unfold DeepISLApp.videoLoaded.
    destruct (mp_processVideoFrame _) as [m []]; reflexivity.
  - now left.
  - now left.
  - left. unfold DeepISLApp.clear, TranslationManager.clearHistory,
      WebSocketManager.clearHistory, WebSocketManager.send.
    destruct (_ && _); reflexivity.
  - now left.
  - left. destruct (mp_processVideoFrame _) as [m []]; reflexivity.
  - unfold DeepISLApp.detected.
    destruct (mp_onResults _ _ _) as [m [[|sequence delivered]|e]];
      [now left | | now left].
    destruct delivered; [|right; left; cbn; eauto].
    unfold TranslationManager.handleSequenceReady,
      WebSocketManager.getConnectionStatus, WebSocketManager.predictSequence,
      WebSocketManager.send.
    cbn [DeepISLApp.webSocketManager DeepISLApp.with_manager].
    destruct (WebSocketManager.isConnected (DeepISLApp.webSocketManager app)),
      (WebSocketManager.socket (DeepISLApp.webSocketManager app)); cbn; eauto 7.
  - now left.
  - left. unfold DeepISLApp.cleanup, WebSocketManager.disconnect.
    destruct (WebSocketManager.socket _); reflexivity.
Qed.

Lemma run_sends evs : forall app : DeepISLApp.App M,
  headFree (snd (DeepISLApp.run evs app)) /\
  snd <$> DeepISLApp.sends (snd (DeepISLApp.run evs app))
  = DeepISLApp.sentSequences (snd (DeepISLApp.run evs app)) /\
  DeepISLApp.sends (snd (DeepISLApp.run evs app))
    `sublist_of` DeepISLApp.firings (snd (DeepISLApp.run evs app)).
Proof.
  induction evs as [|ev rest IH]; intros app.
  - cbn. split; [exact I|]. split; [reflexivity | constructor].
  - rewrite App_run_cons. cbn [snd].
    destruct (IH (fst (DeepISLApp.step ev app))) as (Hhead & Hseq & Hsub).
    destruct (step_shape ev app) as [Hq | [(now & s & E) | (now & s & h & E)]].
    + destruct (sends_quiet _ (snd (DeepISLApp.run rest (fst (DeepISLApp.step ev app)))) Hq)
        as (E1 & E2 & E3 & E4).
      rewrite E1, E2, E3. auto.
    + rewrite E. cbn [Datatypes.app]. rewrite (sends_fired _ _ _ Hhead).
      split; [exact I|]. split; [exact Hseq|].
      cbn. apply sublist_cons. exact Hsub.
    + rewrite E. cbn [Datatypes.app]. split; [exact I|]. cbn.
      split; [f_equal; exact Hseq | apply sublist_skip; exact Hsub].
Qed.

End Sends.

Lemma sends_throttled (obs : list Obs)
    (seen : list DeepISLApp.Seen) :
  DeepISLApp.firings seen = predictions obs ->
  DeepISLApp.sends seen `sublist_of` DeepISLApp.firings seen ->
  snd <$> DeepISLApp.sends seen = DeepISLApp.sentSequences seen ->
  Forall (fun s => CONFIG.N_FRAMES <= length s) (firedSequences obs) ->
  (forall i j ti tj, i < j -> fireTimes obs !! i = Some ti ->
                     fireTimes obs !! j = Some tj ->
                     (CONFIG.PREDICTION_THROTTLE_MS < tj - ti)%Z) ->
  Forall (fun s => CONFIG.N_FRAMES <= length s) (DeepISLApp.sentSequences seen) /\
  spaced (fst <$> DeepISLApp.sends seen).
Proof.
  intros Hfirings Hsub Hseq Hfull Hgap. rewrite Hfirings in Hsub. split.
  - rewrite <- Hseq. apply (Forall_sublist_of _ _ (firedSequences obs)); [|exact Hfull].
    rewrite <- predictions_sequences. now apply sublist_fmap_mono.
  - apply (spaced_sublist _ (fireTimes obs)); [|now apply spaced_gaps].
    rewrite <- predictions_times. now apply sublist_fmap_mono.
Qed.

(** What reaches the server.  Whatever happens to the application, with
    either definition of the manager: every [predict_sequence] it emits
    follows at once a firing of the gate and carries the sequence fired;
    every sequence sent holds at least [N_FRAMES] = 30 frames; and the
    clock values of any two detection callbacks whose sequence was sent
    are more than [PREDICTION_THROTTLE_MS] = 400 ms apart. *)
Theorem App_sends_throttled :
  (forall evs (app : DeepISLApp.App Mgr1.Manager),
     snd <$> DeepISLApp.sends (snd (DeepISLApp.run evs app))
     = DeepISLApp.sentSequences (snd (DeepISLApp.run evs app)) /\
     DeepISLApp.sends (snd (DeepISLApp.run evs app))
       `sublist_of` DeepISLApp.firings (snd (DeepISLApp.run evs app)) /\
     Forall (fun s => CONFIG.N_FRAMES <= length s)
            (DeepISLApp.sentSequences (snd (DeepISLApp.run evs app))) /\
     spaced (fst <$> DeepISLApp.sends (snd (DeepISLApp.run evs app)))) /\
  (forall evs (app : DeepISLApp.App Mgr2.Manager),
     snd <$> DeepISLApp.sends (snd (DeepISLApp.run evs app))
     = DeepISLApp.sentSequences (snd (DeepISLApp.run evs app)) /\
     DeepISLApp.sends (snd (DeepISLApp.run evs app))
       `sublist_of` DeepISLApp.firings (snd (DeepISLApp.run evs app)) /\
     Forall (fun s => CONFIG.N_FRAMES <= length s)
            (DeepISLApp.sentSequences (snd (DeepISLApp.run evs app))) /\
     spaced (fst <$> DeepISLApp.sends (snd (DeepISLApp.run evs app)))).
Proof.
  split; intros evs app.
  - destruct (run_sends evs app) as (_ & Hseq & Hsub).
    destruct (Mgr1_drives evs app) as [_ Hfirings].
    destruct (Mgr1_throttle (managerTrace evs) (DeepISLApp.mediaPipeManager app))
      as [Hfull Hgap].
    split; [exact Hseq|]. split; [exact Hsub|].
    exact (sends_throttled _ _ Hfirings Hsub Hseq Hfull Hgap).
  - destruct (run_sends evs app) as (_ & Hseq & Hsub).
    destruct (Mgr2_drives evs app) as [_ Hfirings].
    destruct (Mgr2_throttle (managerTrace evs) (DeepISLApp.mediaPipeManager app))
      as [Hfull Hgap].
    split; [exact Hseq|]. split; [exact Hsub|].
    exact (sends_throttled _ _ Hfirings Hsub Hseq Hfull Hgap).
Qed.

Lemma App_sends_throttled_witness :
  (fst <$> DeepISLApp.sends
             (snd (DeepISLApp.run streamingSession
                     (DeepISLApp.initialized (M := Mgr1.Manager) blankPage)))
   = [T0; (T0 + 990)%Z] /\
   spaced (fst <$> DeepISLApp.sends
                     (snd (DeepISLApp.run streamingSession
                             (DeepISLApp.initialized (M := Mgr1.Manager) blankPage))))) /\
  (fst <$> DeepISLApp.sends
             (snd (DeepISLApp.run streamingSession
                     (DeepISLApp.initialized (M := Mgr2.Manager) blankPage)))
   = [T0; (T0 + 660)%Z] /\
   spaced (fst <$> DeepISLApp.sends
                     (snd (DeepISLApp.run streamingSession
                             (DeepISLApp.initialized (M := Mgr2.Manager) blankPage))))).
Proof.
  destruct App_sends_throttled as [H1 H2].
  split; (split; [vm_compute; reflexivity|]).
  - apply (H1 streamingSession (DeepISLApp.initialized blankPage)).
  - apply (H2 streamingSession (DeepISLApp.initialized blankPage)).
Defined.

(** *** Socket events and errors on the page *)

Section Wired.

Context {M : Type} `{MediaPipe M}.

Lemma called_wired call (app : DeepISLApp.App M) :
  DeepISLApp.webSocketManager (DeepISLApp.called call app)
  = DeepISLApp.webSocketManager app.
Proof.
  destruct call as [[] [status|[data|error|video_url]]]; cbn; try reflexivity.
  now destruct (TranslationManager.handlePredictionResult _ _ _).
Qed.

Lemma calls_wired calls : forall app : DeepISLApp.App M,
  DeepISLApp.webSocketManager
    (foldl (fun app call => DeepISLApp.called call app) app calls)
  = DeepISLApp.webSocketManager app.
Proof.
  induction calls as [|call rest IH]; intros app; [reflexivity|].
  cbn [foldl]. rewrite IH. apply called_wired.
Qed.

Lemma step_wired ev (app : DeepISLApp.App M) :
  wired app -> wired (fst (DeepISLApp.step ev app)).
Proof.
  unfold wired. intros Hw.
  destruct ev as [|cam| | | | |hidden| |results now|ev|]; cbn [DeepISLApp.step fst].
  - unfold DeepISLApp.startSignDetection.
    destruct (mp_isCapturing _); [exact Hw|]. destruct (negb _); exact Hw.
  - destruct cam; exact Hw.
  - unfold DeepISLApp.videoLoaded. destruct (mp_processVideoFrame _).
    cbn. destruct (DeepISLApp.startPending app); exact Hw.
  - unfold DeepISLApp.videoError. cbn.
    destruct (DeepISLApp.startPending app); exact Hw.
  - exact Hw.
  - exact Hw.
  - unfold DeepISLApp.handleVisibilityChange. destruct (_ && _); exact Hw.
  - destruct (mp_processVideoFrame _). exact Hw.
  - unfold DeepISLApp.detected.
    destruct (mp_onResults _ _ _) as [m [[|sequence []]|e]]; try exact Hw.
    destruct (TranslationManager.handleSequenceReady _ _ _ _). exact Hw.
  - unfold DeepISLApp.fromSocket.
    destruct (WebSocketManager.handle _ _) as [ws calls] eqn:E.
    rewrite calls_wired. cbn [DeepISLApp.webSocketManager]. rewrite <- Hw.
    destruct ev; cbn in E; injection E as <- _; reflexivity.
  - unfold DeepISLApp.cleanup, WebSocketManager.disconnect.
    destruct (WebSocketManager.socket _); exact Hw.
Qed.

Lemma run_wired evs : forall app : DeepISLApp.App M,
  wired app -> wired (fst (DeepISLApp.run evs app)).
Proof.
  induction evs as [|ev rest IH]; intros app Hw; [exact Hw|].
  rewrite App_run_cons. cbn [fst]. apply IH. now apply step_wired.
Qed.

Lemma wired_emitEvent {D} (event : string) (data : D) (app : DeepISLApp.App M) :
  wired app ->
  WebSocketManager.emitEvent event data (DeepISLApp.webSocketManager app)
  = WebSocketManager.emitEvent event data
      (DeepISLApp.registered WebSocketManager.new).
Proof. unfold wired, WebSocketManager.emitEvent. now intros ->. Qed.

(** Socket events on the page.  On an application wired by
    [initialize()], and after whatever happened to it since: a
    ['connect'] sets the connected flag and shows READY; a
    ['disconnect'] clears the flag and shows DISCONNECTED; a
    ['prediction_result'] is handled by
    [TranslationManager.handlePredictionResult] (once); and a
    ['prediction_error'] leaves the status ERROR without a type: the
    PREDICTION_ERROR status with its error type, which
    [TranslationManager.handlePredictionError] writes, is overwritten at
    once by the status update the [WebSocketManager] emits next.  No
    socket event touches the [MediaPipeManager]. *)
Theorem App_socket_events evs (start : DeepISLApp.App M) :
  wired start ->
  (WebSocketManager.isConnected
     (DeepISLApp.webSocketManager
        (DeepISLApp.fromSocket DeepISLApp.Connect (fst (DeepISLApp.run evs start))))
   = true /\
   DeepISLApp.uiManager
     (DeepISLApp.fromSocket DeepISLApp.Connect (fst (DeepISLApp.run evs start)))
   = UIManager.updateStatus (UIManager.Plain "READY") ""
       (DeepISLApp.uiManager (fst (DeepISLApp.run evs start)))) /\
  (WebSocketManager.isConnected
     (DeepISLApp.webSocketManager
        (DeepISLApp.fromSocket DeepISLApp.Disconnected
           (fst (DeepISLApp.run evs start))))
   = false /\
   DeepISLApp.uiManager
     (DeepISLApp.fromSocket DeepISLApp.Disconnected (fst (DeepISLApp.run evs start)))
   = UIManager.updateStatus (UIManager.Plain "DISCONNECTED") ""
       (DeepISLApp.uiManager (fst (DeepISLApp.run evs start)))) /\
  (forall data,
     (DeepISLApp.signHistory
        (DeepISLApp.fromSocket (DeepISLApp.PredictionResult data)
           (fst (DeepISLApp.run evs start))),
      DeepISLApp.uiManager
        (DeepISLApp.fromSocket (DeepISLApp.PredictionResult data)
           (fst (DeepISLApp.run evs start))))
     = TranslationManager.handlePredictionResult data
         (DeepISLApp.signHistory (fst (DeepISLApp.run evs start)))
         (DeepISLApp.uiManager (fst (DeepISLApp.run evs start)))) /\
  (forall error,
     DeepISLApp.uiManager
       (DeepISLApp.fromSocket (DeepISLApp.PredictionError error)
          (fst (DeepISLApp.run evs start)))
     = UIManager.updateStatus (UIManager.Plain "ERROR") ""
         (DeepISLApp.uiManager (fst (DeepISLApp.run evs start))) /\
     DeepISLApp.signHistory
       (DeepISLApp.fromSocket (DeepISLApp.PredictionError error)
          (fst (DeepISLApp.run evs start)))
     = DeepISLApp.signHistory (fst (DeepISLApp.run evs start))) /\
  (forall ev,
     DeepISLApp.mediaPipeManager
       (DeepISLApp.fromSocket ev (fst (DeepISLApp.run evs start)))
     = DeepISLApp.mediaPipeManager (fst (DeepISLApp.run evs start))).
Proof.
  intros Hstart. pose proof (run_wired evs start Hstart) as Hw.
  generalize dependent (fst (DeepISLApp.run evs start)). clear Hstart.
  intros app Hw.
  assert (Hresult : forall data,
    (DeepISLApp.signHistory
       (DeepISLApp.fromSocket (DeepISLApp.PredictionResult data) app),
     DeepISLApp.uiManager
       (DeepISLApp.fromSocket (DeepISLApp.PredictionResult data) app))
    = TranslationManager.handlePredictionResult data
        (DeepISLApp.signHistory app) (DeepISLApp.uiManager app)).
  { intros data. unfold DeepISLApp.fromSocket.
    cbn [DeepISLApp.socketEvent WebSocketManager.handle].
    rewrite (wired_emitEvent "predictionResult" _ app Hw).
    change (WebSocketManager.emitEvent "predictionResult"
              (WebSocketManager.ServerData (DeepISLApp.PredictionPayload data))
              (DeepISLApp.registered WebSocketManager.new))
      with [(DeepISLApp.TranslationManager_handlePredictionResult,
             WebSocketManager.ServerData (P := DeepISLApp.Payload)
               (DeepISLApp.PredictionPayload data))].
    cbn [foldl DeepISLApp.called DeepISLApp.signHistory DeepISLApp.uiManager].
    now destruct (TranslationManager.handlePredictionResult _ _ _). }
  destruct app as [m [socket handlers connected] ui h pending].
  unfold wired in Hw.
  cbn [DeepISLApp.webSocketManager WebSocketManager.eventHandlers] in Hw.
  subst handlers.
  split; [|split; [|split; [|split]]].
  - split; reflexivity.
  - split; reflexivity.
  - exact Hresult.
  - intros error. split; reflexivity.
  - intros ev. apply fromSocket_manager.
Qed.

End Wired.

Lemma App_socket_events_witness :
  DeepISLApp.uiManager
    (DeepISLApp.fromSocket (DeepISLApp.PredictionError "model failed")
       (fst (DeepISLApp.run sampleSession
               (DeepISLApp.initialized (M := Mgr2.Manager) blankPage))))
  = UIManager.updateStatus (UIManager.Plain "ERROR") ""
      (DeepISLApp.uiManager
         (fst (DeepISLApp.run sampleSession
                 (DeepISLApp.initialized (M := Mgr2.Manager) blankPage)))).
Proof.
  destruct (App_socket_events sampleSession
              (DeepISLApp.initialized (M := Mgr2.Manager) blankPage))
    as (_ & _ & _ & Herror & _); [reflexivity|].
  apply Herror.
Defined.

(** *** The ways capture stops *)

Section Stops.

Context {M : Type} `{MediaPipe M}.

Hypothesis stop_stops : forall m, mp_isCapturing (mp_stopCapture m) = false.
Hypothesis cleanup_stops : forall m, mp_cleanup m = mp_stopCapture m.
Hypothesis idle_frame : forall m,
  mp_isCapturing m = false -> mp_processVideoFrame m = (m, false).

Lemma idle_frames k : forall app : DeepISLApp.App M,
  mp_isCapturing (DeepISLApp.mediaPipeManager app) = false ->
  DeepISLApp.run (replicate k DeepISLApp.AnimationFrame) app = (app, []).
Proof.
  induction k as [|k IH]; intros app Hidle; [reflexivity|].
  change (replicate (S k) DeepISLApp.AnimationFrame)
    with (DeepISLApp.AnimationFrame :: replicate k DeepISLApp.AnimationFrame).
  rewrite App_run_cons. cbn [DeepISLApp.step]. rewrite (idle_frame _ Hidle).
  destruct app as [m ws ui h pending]. cbn -[DeepISLApp.run replicate] in *.
  change (DeepISLApp.with_manager m (DeepISLApp.mkApp m ws ui h pending))
    with (DeepISLApp.mkApp m ws ui h pending).
  now rewrite (IH (DeepISLApp.mkApp m ws ui h pending) Hidle).
Qed.

Lemma stopping_stops ev (app : DeepISLApp.App M) :
  stopping ev = true ->
  mp_isCapturing (DeepISLApp.mediaPipeManager (fst (DeepISLApp.step ev app))) = false.
Proof.
  destruct ev as [|[]| | | | |[]| |results now|ev|]; try discriminate; intros _;
    cbn [DeepISLApp.step fst].
  - cbn. apply stop_stops.
  - unfold DeepISLApp.videoError. cbn.
    destruct (DeepISLApp.startPending app); cbn; apply stop_stops.
  - cbn. apply stop_stops.
  - unfold DeepISLApp.handleVisibilityChange. cbn [andb].
    destruct (mp_isCapturing (DeepISLApp.mediaPipeManager app)) eqn:E;
      [cbn; apply stop_stops | exact E].
  - unfold DeepISLApp.cleanup. destruct (WebSocketManager.disconnect _).
    cbn. rewrite cleanup_stops. apply stop_stops.
Qed.

End Stops.

Lemma Mgr1_idle_frame (m : Mgr1.Manager) :
  Mgr1.isCapturing m = false -> Mgr1.processVideoFrame m = (m, false).
Proof. unfold Mgr1.isCapturing, Mgr1.processVideoFrame. now intros ->. Qed.

Lemma Mgr2_idle_frame (m : Mgr2.Manager) :
  Mgr2.isCapturing m = false -> Mgr2.processVideoFrame m = (m, false).
Proof. unfold Mgr2.isCapturing, Mgr2.processVideoFrame. now intros ->. Qed.

Lemma Mgr2_stop_stops (m : Mgr2.Manager) :
  Mgr2.isCapturing (Mgr2.stopCapture m) = false.
Proof.
  unfold Mgr2.isCapturing, Mgr2.stopCapture.
  destruct (Mgr2.capturing m) eqn:E; [reflexivity | exact E].
Qed.

(** Capture stops.  After the stop button, a video error, a denied
    camera, a page hidden, or page unload, the manager (either
    definition) is not capturing, and animation frames that still arrive
    change nothing and send nothing to the detector. *)
Theorem App_stop_paths (ev : DeepISLApp.Event) (k : nat) :
  stopping ev = true ->
  (forall app : DeepISLApp.App Mgr1.Manager,
     Mgr1.isCapturing (DeepISLApp.mediaPipeManager (fst (DeepISLApp.step ev app)))
     = false /\
     DeepISLApp.run (replicate k DeepISLApp.AnimationFrame)
                    (fst (DeepISLApp.step ev app))
     = (fst (DeepISLApp.step ev app), [])) /\
  (forall app : DeepISLApp.App Mgr2.Manager,
     Mgr2.isCapturing (DeepISLApp.mediaPipeManager (fst (DeepISLApp.step ev app)))
     = false /\
     DeepISLApp.run (replicate k DeepISLApp.AnimationFrame)
                    (fst (DeepISLApp.step ev app))
     = (fst (DeepISLApp.step ev app), [])).
Proof.
  intros Hstop. split; intros app.
  - assert (Hidle : Mgr1.isCapturing
                      (DeepISLApp.mediaPipeManager (fst (DeepISLApp.step ev app)))
                    = false).
    { refine (stopping_stops (M := Mgr1.Manager) _ _ ev app Hstop); reflexivity. }
    split; [exact Hidle|].
    exact (idle_frames (M := Mgr1.Manager) Mgr1_idle_frame k _ Hidle).
  - assert (Hidle : Mgr2.isCapturing
                      (DeepISLApp.mediaPipeManager (fst (DeepISLApp.step ev app)))
                    = false).
    { refine (stopping_stops (M := Mgr2.Manager) Mgr2_stop_stops _ ev app Hstop);
        reflexivity. }
    split; [exact Hidle|].
    exact (idle_frames (M := Mgr2.Manager) Mgr2_idle_frame k _ Hidle).
Qed.

Lemma App_stop_paths_witness :
  Mgr2.isCapturing
    (DeepISLApp.mediaPipeManager
       (fst (DeepISLApp.step (DeepISLApp.VisibilityChange true)
               (fst (DeepISLApp.run
                       [DeepISLApp.FromSocket DeepISLApp.Connect;
                        DeepISLApp.ClickStart; DeepISLApp.CameraAnswered Granted]
                       (DeepISLApp.initialized (M := Mgr2.Manager) blankPage))))))
  = false.
Proof.
  apply (App_stop_paths (DeepISLApp.VisibilityChange true) 3); reflexivity.
Defined.

(** Errors of the [MediaPipeManager] on the page.  The MEDIAPIPE_ERROR
    status that [handleMediaPipeError] writes is not left on the page:
    the [stopSignDetection()] it ends in overwrites it with IDLE, without
    a type.  When the camera is denied, and when the video fails while
    [startSignDetection()] still waits for it, [startSignDetection()] then
    shows CAMERA_ERROR with the error type; a video error after the video
    was loaded leaves IDLE.  In each case the video placeholder is
    shown. *)
Theorem App_error_status {M : Type} `{MediaPipe M} (app : DeepISLApp.App M) :
  DeepISLApp.uiManager (DeepISLApp.handleMediaPipeError app)
  = UIManager.showVideoPlaceholder true
      (UIManager.updateStatus (UIManager.Plain "IDLE") "" (DeepISLApp.uiManager app)) /\
  DeepISLApp.uiManager (fst (DeepISLApp.step DeepISLApp.VideoError app))
  = UIManager.showVideoPlaceholder true
      (if DeepISLApp.startPending app
       then UIManager.updateStatus (UIManager.Plain "CAMERA_ERROR") "error"
                                   (DeepISLApp.uiManager app)
       else UIManager.updateStatus (UIManager.Plain "IDLE") ""
                                   (DeepISLApp.uiManager app)) /\
  DeepISLApp.uiManager
    (fst (DeepISLApp.step (DeepISLApp.CameraAnswered Denied) app))
  = UIManager.showVideoPlaceholder true
      (UIManager.updateStatus (UIManager.Plain "CAMERA_ERROR") "error"
                              (DeepISLApp.uiManager app)) /\
  DeepISLApp.startPending (fst (DeepISLApp.step DeepISLApp.VideoError app)) = false /\
  DeepISLApp.startPending
    (fst (DeepISLApp.step (DeepISLApp.CameraAnswered Denied) app))
  = DeepISLApp.startPending app.
Proof.
  destruct app as [m ws ui h []]; (split; [|split; [|split; [|split]]]); reflexivity.
Qed.

(** ** [TranslationManager]: a prediction of the server *)

Lemma slice_neg_suffix {A} (n : nat) (arr : list A) : slice_neg n arr `suffix_of` arr.
Proof. unfold slice_neg. apply suffix_drop. Qed.

(** [handlePredictionResult(data)].  The confidence is always shown.  A
    prediction whose confidence is not greater than [MIN_CONFIDENCE]
    (0.65 itself, or NaN) changes neither the sign history nor the
    detected text, its word count or the recent signs, and shows
    DETECTING... as uncertain.  A confident one replaces the sign history
    by the history of the prediction (none: the empty one), shows its last
    signs, at most five, and replaces the detected text by the sentence
    unless the sentence is empty. *)
Theorem handlePredictionResult_effect (data : TranslationManager.Prediction)
    (signHistory : list string) (ui : UIManager.UI) :
  UIManager.confidenceShown
    (snd (TranslationManager.handlePredictionResult data signHistory ui))
  = Some (TranslationManager.confidence data) /\
  (num_gt (TranslationManager.confidence data) MIN_CONFIDENCE = false ->
   TranslationManager.handlePredictionResult data signHistory ui
   = (signHistory,
      UIManager.updateStatus (UIManager.Plain "DETECTING...") "uncertain"
        (UIManager.updateConfidence (TranslationManager.confidence data) ui))) /\
  (num_gt (TranslationManager.confidence data) MIN_CONFIDENCE = true ->
   fst (TranslationManager.handlePredictionResult data signHistory ui)
   = default [] (TranslationManager.history data) /\
   UIManager.recentSigns
     (snd (TranslationManager.handlePredictionResult data signHistory ui))
     `suffix_of` default [] (TranslationManager.history data) /\
   length (UIManager.recentSigns
             (snd (TranslationManager.handlePredictionResult data signHistory ui)))
   = 5 `min` length (default [] (TranslationManager.history data)) /\
   UIManager.detectedText
     (snd (TranslationManager.handlePredictionResult data signHistory ui))
   = (if decide (TranslationManager.sentence data = [])
      then UIManager.detectedText ui else TranslationManager.sentence data) /\
   UIManager.statusValue
     (snd (TranslationManager.handlePredictionResult data signHistory ui))
   = UIManager.Recognised (TranslationManager.label data)
                          (TranslationManager.confidence data) /\
   UIManager.statusType
     (snd (TranslationManager.handlePredictionResult data signHistory ui))
   = "confident") /\
  num_gt MIN_CONFIDENCE MIN_CONFIDENCE = false /\
  num_gt NaN MIN_CONFIDENCE = false.
Proof.
  unfold TranslationManager.handlePredictionResult.
  split; [|split; [|split; [|split; reflexivity]]].
  - destruct (num_gt _ _); [destruct (length _ =? 0)|]; reflexivity.
  - intros ->. reflexivity.
  - intros ->. cbn [fst snd]. rewrite updateRecentSigns_recent.
    split; [reflexivity|]. split; [apply slice_neg_suffix|].
    split; [unfold slice_neg; rewrite length_drop; lia|].
    split; [|split].
    + destruct (TranslationManager.sentence data) as [|c rest]; reflexivity.
    + destruct (length (TranslationManager.sentence data) =? 0); reflexivity.
    + destruct (length (TranslationManager.sentence data) =? 0); reflexivity.
Qed.

Lemma handlePredictionResult_effect_witness :
  fst (TranslationManager.handlePredictionResult samplePrediction [] blankPage)
  = ["hello"; "world"].
Proof.
  destruct (handlePredictionResult_effect samplePrediction [] blankPage)
    as (_ & _ & Hconfident & _).
  destruct Hconfident as [Hhistory _]; [reflexivity|].
  exact Hhistory.
Defined.
